(** * Commercial real-estate voice AI: requirement extraction, property
      matching and the emotion heuristic

    A shallow embedding of
      - [app/services/property_matching_service.py]
        ([_extract_requirements], [_apply_emotion_filters],
        [_find_matching_properties]),
      - [final_web_app.py]
        ([analyze_emotion_from_text], [find_matching_properties],
        [generate_response_with_properties] and the routes),
      - [app/services/transcription_service.py]
        ([_basic_emotion_analysis], [transcribe_audio]),
      - [app/api/endpoints/transcription.py].

    Conventions of the embedding.
      - Text is ASCII: a Python [str] is a [list ascii].
      - Python [int] is [Z].  [int(s)] refuses a text of more than 4300
        digits, Python's default limit, with [ValueError].
      - Python [float] is modelled by the exact rationals [Q]: values
        are not rounded and no float is infinite; numeric equalities
        are stated with [==].  The conversion of an
        [int] to a [float] raises [OverflowError] when the [int] is too
        large for a double, as in Python.
      - A function that can raise returns a [result] (or an [option]
        when one exception only is possible).
      - [None] is [option]'s [None]; Python truthiness of an optional
        number ([if requirements['min_size']:]) is [truthy].
      - A pandas data frame is the list of its rows, in index order.
        [DataFrame.sort_values] is a parameter of the matcher: the
        program calls it with pandas' default [kind], which is not a
        stable sort, so nothing but its result being sorted is assumed.
      - [re] patterns are regular-expression syntax trees run by a
        backtracking matcher with Python's priorities (greedy and lazy
        repetition, ordered alternation, one capturing group). *)

From Stdlib Require Import Ascii String.
From Stdlib Require Import List ZArith QArith Qminmax Bool Arith Lia Lqa.
From Stdlib Require Import Permutation Sorted.
Import ListNotations.

(** ** Strings *)

Definition str := list ascii.

Definition lit (s : string) : str := list_ascii_of_string s.

Module Str.

Definition code (c : ascii) : nat := nat_of_ascii c.

Definition is_digit (c : ascii) : bool :=
  (48 <=? code c)%nat && (code c <=? 57)%nat.

(** [str.isspace] on ASCII: TAB..CR, FS..US and the blank. *)
Definition is_space (c : ascii) : bool :=
  ((9 <=? code c)%nat && (code c <=? 13)%nat)
  || ((28 <=? code c)%nat && (code c <=? 32)%nat).

Definition is_upper (c : ascii) : bool :=
  (65 <=? code c)%nat && (code c <=? 90)%nat.

Definition lower_char (c : ascii) : ascii :=
  if is_upper c then ascii_of_nat (code c + 32) else c.

(** [s.lower()] *)
Definition lower (s : str) : str := map lower_char s.

Definition eqb (a b : ascii) : bool := Ascii.eqb a b.

(** [s.startswith(p)] *)
Fixpoint starts_with (p s : str) : bool :=
  match p, s with
  | [], _ => true
  | _ :: _, [] => false
  | a :: p', b :: s' => eqb a b && starts_with p' s'
  end.

(** [sub in s] *)
Fixpoint contains (sub s : str) : bool :=
  starts_with sub s ||
  match s with
  | [] => false
  | _ :: s' => contains sub s'
  end.

(** [sep.join(parts)] *)
Fixpoint join (sep : str) (parts : list str) : str :=
  match parts with
  | [] => []
  | [p] => p
  | p :: rest => p ++ sep ++ join sep rest
  end.

(** [s.replace(',', '')] *)
Definition remove_commas (s : str) : str :=
  filter (fun c => negb (eqb c ","%char)) s.

(** [len(s.split())]: the number of maximal runs of non-blank
    characters.  [inw] tells whether the scan is inside a word. *)
Fixpoint count_words_from (inw : bool) (s : str) : nat :=
  match s with
  | [] => 0
  | c :: s' =>
      if is_space c then count_words_from false s'
      else if inw then count_words_from true s'
           else S (count_words_from true s')
  end.

Definition count_words (s : str) : nat := count_words_from false s.

End Str.

(** ** Numbers read from text *)

Module Num.

Definition digit_val (c : ascii) : Z := Z.of_nat (Str.code c) - 48.

(** Value of a run of decimal digits read left to right. *)
Definition digits_val (s : str) : Z :=
  fold_left (fun acc c => 10 * acc + digit_val c)%Z s 0%Z.

(** The number written by a non-empty run of decimal digits; [None] for
    any other text. *)
Definition digit_run_val (s : str) : option Z :=
  match s with
  | [] => None
  | _ => if forallb Str.is_digit s then Some (digits_val s) else None
  end.

(** Python's default limit on the number of digits [int] converts
    ([sys.int_max_str_digits]). *)
Definition int_max_str_digits : Z := 4300.

(** [int(s)] for a capture: the value of a non-empty run of decimal
    digits no longer than the limit; a longer run, like any other text,
    is the [ValueError] branch. *)
Definition int_of_str (s : str) : option Z :=
  match digit_run_val s with
  | Some n =>
      if (Z.of_nat (length s) <=? int_max_str_digits)%Z then Some n else None
  | None => None
  end.

(** The first [int] that has no [float]: the integers from
    [2^1024 - 2^970] on round to [2^1024], beyond the largest double
    [2^1024 - 2^971]. *)
Definition float_overflow : Z := (2 ^ 1024 - 2 ^ 970)%Z.

(** The conversion of an [int] operand to a [float], as in
    [n * 1.5]: [None] is [OverflowError] (int too large to convert to
    float). *)
Definition float_of_int (n : Z) : option Q :=
  if (Z.abs n <? float_overflow)%Z then Some (inject_Z n) else None.

Fixpoint split_dot (s : str) : str * option str :=
  match s with
  | [] => ([], None)
  | c :: s' =>
      if Str.eqb c "."%char then ([], Some s')
      else let (a, b) := split_dot s' in (c :: a, b)
  end.

(** [float(s)] for a capture: digits, optionally followed by a dot and
    digits ([30], [30.50]); anything else is the [ValueError] branch.
    [float] has no limit on the number of digits. *)
Definition float_of_str (s : str) : option Q :=
  match split_dot s with
  | (ip, None) =>
      match digit_run_val ip with
      | Some n => Some (inject_Z n)
      | None => None
      end
  | (ip, Some fp) =>
      match digit_run_val ip, digit_run_val fp with
      | Some n, Some f =>
          Some (inject_Z n + inject_Z f / inject_Z (10 ^ Z.of_nat (length fp)))
      | _, _ => None
      end
  end.

(** Truthiness of an optional number: [None] and [0] are false. *)
Definition truthy (x : option Q) : bool :=
  match x with
  | None => false
  | Some q => negb (Qeq_bool q 0)
  end.

End Num.

(** ** Regular expressions ([re]) *)

Module Re.

(** Syntax of the patterns used by the program.  [\d{1,3}] and the like
    are written with [Opt] and [Seq] (see [rep_1_3]). *)
Inductive regex : Type :=
| Eps
| Chr (c : ascii)            (* a literal character *)
| Digit                      (* \d *)
| Space                      (* \s *)
| AnyChar                    (* .  (any character but a newline) *)
| Seq (r1 r2 : regex)        (* r1 r2 *)
| Alt (r1 r2 : regex)        (* r1|r2 *)
| Opt (r : regex)            (* r?   greedy *)
| Star (r : regex)           (* r*   greedy *)
| Lazy (r : regex)           (* r*?  lazy *)
| Grp (r : regex).           (* (r)  the capturing group *)

(** The literal word [w]. *)
Fixpoint word (w : str) : regex :=
  match w with
  | [] => Eps
  | [c] => Chr c
  | c :: w' => Seq (Chr c) (word w')
  end.

Definition plus (r : regex) : regex := Seq r (Star r).          (* r+ *)
Definition rep_1_3 (r : regex) : regex :=                       (* r{1,3} *)
  Seq r (Opt (Seq r (Opt r))).
Definition rep_2 (r : regex) : regex := Seq r r.                (* r{2} *)
Definition rep_3 (r : regex) : regex := Seq r (Seq r r).        (* r{3} *)

Fixpoint seqs (rs : list regex) : regex :=
  match rs with
  | [] => Eps
  | [r] => r
  | r :: rs' => Seq r (seqs rs')
  end.

Fixpoint alts (rs : list regex) : regex :=
  match rs with
  | [] => Eps
  | [r] => r
  | r :: rs' => Alt r (alts rs')
  end.

Definition any_but_newline (c : ascii) : bool :=
  negb (Str.eqb c (ascii_of_nat 10)).

(** Outcome of a match attempt: the capture (if the group took part)
    and the input that remains after the match. *)
Definition outcome : Type := option str * str.

Definition cont : Type := str -> option str -> option outcome.

Definition one (p : ascii -> bool) (s : str) (cap : option str) (k : cont)
  : option outcome :=
  match s with
  | c :: s' => if p c then k s' cap else None
  | [] => None
  end.

Definition or_else (a b : option outcome) : option outcome :=
  match a with
  | Some x => Some x
  | None => b
  end.

(** The loop of a greedy repetition [r*]: [body] matches [r]; one more
    round is tried first, then the continuation.  A round that consumes
    nothing ends the loop; [n] bounds the number of rounds by the length
    of the input. *)
Fixpoint star_loop (body : str -> option str -> cont -> option outcome)
    (k : cont) (n : nat) (s : str) (cap : option str) {struct n}
  : option outcome :=
  match n with
  | O => k s cap
  | S n' =>
      or_else
        (body s cap
           (fun s1 cap1 =>
              if (length s1 <? length s)%nat then star_loop body k n' s1 cap1
              else None))
        (k s cap)
  end.

(** The loop of a lazy repetition [r*?]: the continuation is tried
    first, then one more round. *)
Fixpoint lazy_loop (body : str -> option str -> cont -> option outcome)
    (k : cont) (n : nat) (s : str) (cap : option str) {struct n}
  : option outcome :=
  match n with
  | O => k s cap
  | S n' =>
      or_else
        (k s cap)
        (body s cap
           (fun s1 cap1 =>
              if (length s1 <? length s)%nat then lazy_loop body k n' s1 cap1
              else None))
  end.

(** Backtracking matcher in continuation-passing style: [m r s cap k]
    matches a prefix of [s] against [r] and hands the rest to [k]; when
    [k] fails the next alternative is tried, in Python's order. *)
Fixpoint m (r : regex) (s : str) (cap : option str) (k : cont) {struct r}
  : option outcome :=
  match r with
  | Eps => k s cap
  | Chr c => one (Str.eqb c) s cap k
  | Digit => one Str.is_digit s cap k
  | Space => one Str.is_space s cap k
  | AnyChar => one any_but_newline s cap k
  | Seq r1 r2 => m r1 s cap (fun s1 cap1 => m r2 s1 cap1 k)
  | Alt r1 r2 => or_else (m r1 s cap k) (m r2 s cap k)
  | Opt r1 => or_else (m r1 s cap k) (k s cap)
  | Star r1 => star_loop (m r1) k (length s) s cap
  | Lazy r1 => lazy_loop (m r1) k (length s) s cap
  | Grp r1 =>
      m r1 s cap
        (fun s1 _ => k s1 (Some (firstn (length s - length s1) s)))
  end.

(** [pattern.match(s)]: a match anchored at the start of [s]. *)
Definition match_here (r : regex) (s : str) : option outcome :=
  m r s None (fun s1 cap1 => Some (cap1, s1)).

(** [m.group(1)]; an unset group reads as the empty string. *)
Definition group (cap : option str) : str :=
  match cap with
  | Some c => c
  | None => []
  end.

(** [re.search(r, s)]: the leftmost match; [Some] of its [group(1)]. *)
Fixpoint search (r : regex) (s : str) : option str :=
  match match_here r s with
  | Some (cap, _) => Some (group cap)
  | None =>
      match s with
      | [] => None
      | _ :: s' => search r s'
      end
  end.

(** [re.findall(r, s)] for a pattern with one group: [group(1)] of
    the successive non-overlapping matches, left to right. *)
Fixpoint findall_from (fuel : nat) (r : regex) (s : str) : list str :=
  match fuel with
  | O => []
  | S fuel' =>
      match match_here r s with
      | Some (cap, rest) =>
          if (length rest <? length s)%nat
          then group cap :: findall_from fuel' r rest
          else group cap ::
               match s with
               | [] => []
               | _ :: s' => findall_from fuel' r s'
               end
      | None =>
          match s with
          | [] => []
          | _ :: s' => findall_from fuel' r s'
          end
      end
  end.

Definition findall (r : regex) (s : str) : list str :=
  findall_from (S (length s)) r s.

(** A pattern as the program holds it: the pattern text (the program
    tests it with [in]) and its syntax tree. *)
Record pattern : Type := { source : str; re : regex }.

(** The words a pattern can match (its language), used to describe what
    a capture may contain. *)
Inductive lang : regex -> str -> Prop :=
| L_eps : lang Eps []
| L_chr (c : ascii) : lang (Chr c) [c]
| L_digit (c : ascii) : Str.is_digit c = true -> lang Digit [c]
| L_space (c : ascii) : Str.is_space c = true -> lang Space [c]
| L_any (c : ascii) : any_but_newline c = true -> lang AnyChar [c]
| L_seq (r1 r2 : regex) (w1 w2 : str) :
    lang r1 w1 -> lang r2 w2 -> lang (Seq r1 r2) (w1 ++ w2)
| L_alt_l (r1 r2 : regex) (w : str) : lang r1 w -> lang (Alt r1 r2) w
| L_alt_r (r1 r2 : regex) (w : str) : lang r2 w -> lang (Alt r1 r2) w
| L_opt_none (r : regex) : lang (Opt r) []
| L_opt_some (r : regex) (w : str) : lang r w -> lang (Opt r) w
| L_star_nil (r : regex) : lang (Star r) []
| L_star_cons (r : regex) (w1 w2 : str) :
    lang r w1 -> lang (Star r) w2 -> lang (Star r) (w1 ++ w2)
| L_lazy_nil (r : regex) : lang (Lazy r) []
| L_lazy_cons (r : regex) (w1 w2 : str) :
    lang r w1 -> lang (Lazy r) w2 -> lang (Lazy r) (w1 ++ w2)
| L_grp (r : regex) (w : str) : lang r w -> lang (Grp r) w.

(** Every capturing group of the pattern matches only words in [P]. *)
Fixpoint captures_in (P : str -> Prop) (r : regex) : Prop :=
  match r with
  | Seq r1 r2 | Alt r1 r2 => captures_in P r1 /\ captures_in P r2
  | Opt r1 | Star r1 | Lazy r1 => captures_in P r1
  | Grp r1 => (forall w, lang r1 w -> P w) /\ captures_in P r1
  | _ => True
  end.

(** Every match of the pattern goes through a capturing group. *)
Fixpoint sets_group (r : regex) : bool :=
  match r with
  | Grp _ => true
  | Seq r1 r2 => sets_group r1 || sets_group r2
  | Alt r1 r2 => sets_group r1 && sets_group r2
  | _ => false
  end.

(** The capture, when set, is in [P]. *)
Definition capture_in (P : str -> Prop) (cap : option str) : Prop :=
  forall c, cap = Some c -> P c.

(** What a successful run of a matching function for [r] guarantees:
    the consumed prefix is a word of [r], the capture handed on is in
    [P], and a capture once set stays set. *)
Definition sound_for (P : str -> Prop) (r : regex)
    (body : str -> option str -> cont -> option outcome) : Prop :=
  forall s cap k x,
    body s cap k = Some x -> capture_in P cap ->
    exists w s' cap',
      s = w ++ s' /\ lang r w /\ capture_in P cap'
      /\ (sets_group r = true \/ cap <> None -> cap' <> None)
      /\ k s' cap' = Some x.

End Re.

Import Re.

(** Blanks [\s*], an optional dot [\.?], and an optional [per] followed
    by blanks. *)
Definition ws : regex := Star Space.
Definition dot_opt : regex := Opt (Chr "."%char).
Definition per_opt : regex := Opt (Seq (word (lit "per")) ws).
(** [\d{1,3}(?:,\d{3})*] *)
Definition grouped_number : regex :=
  Seq (rep_1_3 Digit) (Star (Seq (Chr ","%char) (rep_3 Digit))).
(** [sq\.?\s*ft\.?] *)
Definition sq_ft : regex :=
  seqs [word (lit "sq"); dot_opt; ws; word (lit "ft"); dot_opt].

(** [(?:sq\.?\s*ft\.?|square\s*feet?|sf)] *)
Definition square_feet_unit : regex :=
  alts [sq_ft;
        seqs [word (lit "square"); ws; word (lit "fee"); Opt (Chr "t"%char)];
        word (lit "sf")].
(** [(?:sq\.?\s*ft\.?|square\s*foot|sf)] *)
Definition square_foot_unit : regex :=
  alts [sq_ft; seqs [word (lit "square"); ws; word (lit "foot")]; word (lit "sf")].
(** [\d+(?:\.\d{2})?] *)
Definition decimal_number : regex :=
  Seq (plus Digit) (Opt (Seq (Chr "."%char) (rep_2 Digit))).
Definition dollar : regex := Chr "$"%char.

(** ** Data model *)

(** A row of the property table (the columns of [properties.csv] used by
    the program). *)
Record property : Type := {
  unique_id : str;
  property_address : str;
  floor : Z;
  suite : str;
  size_sf : Q;
  rent_sf_year : Q;
  associate_1 : str;
  broker_email : str;
  annual_rent : Q;
  monthly_rent : Q
}.

Definition mk_property (id addr : string) (fl : Z) (su : string)
    (size rent : Q) (assoc email : string) (annual monthly : Q) : property :=
  {| unique_id := lit id; property_address := lit addr; floor := fl;
     suite := lit su; size_sf := size; rent_sf_year := rent;
     associate_1 := lit assoc; broker_email := lit email;
     annual_rent := annual; monthly_rent := monthly |}.

Definition PROP001 := mk_property "PROP001" "123 Innovation Drive Downtown" 5 "A"
  2500 28 "John Smith" "john@broker.com" 70000 (583333 # 100).
Definition PROP002 := mk_property "PROP002" "456 Tech Plaza Midtown" 8 "B"
  3200 32 "Lisa Brown" "lisa@broker.com" 102400 (853333 # 100).
Definition PROP003 := mk_property "PROP003" "789 Business Center Uptown" 3 "C"
  1800 25 "David Miller" "david@broker.com" 45000 3750.
Definition PROP004 := mk_property "PROP004" "321 Creative Commons Arts District" 2 "E"
  2000 26 "Michael Clark" "michael@broker.com" 52000 (433333 # 100).
Definition PROP005 := mk_property "PROP005" "654 Executive Tower Financial District" 15 "F"
  5000 42 "Susan Young" "susan@broker.com" 210000 17500.

(** [df['Property Address'].str.contains(term, case=False, na=False)] for
    a term made of plain characters. *)
Definition address_contains (term : str) (p : property) : bool :=
  Str.contains (Str.lower term) (Str.lower (property_address p)).

(** [df.head(3)] and [xs[:3]] *)
Definition head3 {A : Type} (l : list A) : list A := firstn 3 l.

(** The emotion dictionary returned by both emotion analyses. *)
Record tone : Type := {
  professional : Q;
  excited : Q;
  confident : Q;
  uncertain : Q
}.

Record emotion : Type := {
  emotion_score : Q;
  enthusiasm_level : Q;
  voice_pace : Q;
  tone_analysis : tone
}.

(** [sum(1 for word in keywords if word in text_lower)] *)
Definition keyword_hits (keywords : list str) (text_lower : str) : Z :=
  Z.of_nat (length (filter (fun word => Str.contains word text_lower) keywords)).

(** [min(hits / word_count * scale, 1.0)] *)
Definition level (hits : Z) (word_count : Z) (scale : Q) : Q :=
  Qmin (inject_Z hits / inject_Z word_count * scale) 1.

(** ** Exceptions *)

(** The exceptions met in the program: those raised by Python's
    builtins and FastAPI's [HTTPException]. *)
Inductive exn : Type :=
| ValueError
| OverflowError
| TypeError
| AttributeError
| IndexError
| HTTPException (status_code : nat) (detail : str).

(** A call either returns or raises. *)
Inductive result (A : Type) : Type :=
| Return (a : A)
| Raise (e : exn).

Arguments Return {A} a.
Arguments Raise {A} e.

(** Sequencing: the second step runs on what the first returns; an
    exception of the first step goes through. *)
Definition bind {A B : Type} (x : result A) (f : A -> result B) : result B :=
  match x with
  | Return a => f a
  | Raise e => Raise e
  end.

(** ** [app/services/property_matching_service.py] *)

Module PropertyMatchingService.

(** [_create_sample_data] *)
Definition sample_data : list property := [PROP001; PROP002; PROP003].

(** The requirement dictionary.  The keys [company_size], [industry],
    [must_haves] and [nice_to_haves] are created and never written;
    they are left out. *)
Record requirements : Type := {
  min_size : option Q;
  max_size : option Q;
  max_rent_per_sf : option Q;
  preferred_locations : list str;
  culture_keywords : list str
}.

Definition square_footage_pattern : pattern :=
  {| source := lit "(\d{1,3}(?:,\d{3})*)\s*(?:sq\.?\s*ft\.?|square\s*feet?|sf)";
     re := seqs [Grp grouped_number; ws; square_feet_unit] |}.
Definition people_pattern : pattern :=
  {| source := lit "(\d+)\s*people";
     re := seqs [Grp (plus Digit); ws; word (lit "people")] |}.
Definition team_of_pattern : pattern :=
  {| source := lit "team\s*of\s*(\d+)";
     re := seqs [word (lit "team"); ws; word (lit "of"); ws; Grp (plus Digit)] |}.
Definition employees_pattern : pattern :=
  {| source := lit "(\d+)\s*employees";
     re := seqs [Grp (plus Digit); ws; word (lit "employees")] |}.

Definition size_patterns : list pattern :=
  [square_footage_pattern; people_pattern; team_of_pattern; employees_pattern].

Definition per_sq_ft_budget : pattern :=
  {| source := lit "\$(\d+(?:\.\d{2})?)\s*(?:per\s*)?(?:sq\.?\s*ft\.?|square\s*foot|sf)";
     re := seqs [dollar; Grp decimal_number; ws; per_opt; square_foot_unit] |}.
Definition monthly_budget : pattern :=
  {| source := lit "\$(\d{1,3}(?:,\d{3})*)\s*(?:per\s*)?month";
     re := seqs [dollar; Grp grouped_number; ws; per_opt; word (lit "month")] |}.
Definition generic_budget : pattern :=
  {| source := lit "budget.*?\$(\d{1,3}(?:,\d{3})*)";
     re := seqs [word (lit "budget"); Lazy AnyChar; dollar; Grp grouped_number] |}.

Definition budget_patterns : list pattern :=
  [per_sq_ft_budget; monthly_budget; generic_budget].

Definition location_keywords : list str :=
  map lit ["downtown"; "uptown"; "midtown"; "district"; "center"]%string.

Definition culture_vocabulary : list str :=
  map lit ["collaborative"; "modern"; "traditional"; "creative"; "corporate";
           "startup"; "professional"; "casual"; "innovative"; "tech"]%string.

(** ['people' in pattern or 'team' in pattern or 'employees' in pattern] *)
Definition is_people_pattern (p : pattern) : bool :=
  Str.contains (lit "people") (source p)
  || Str.contains (lit "team") (source p)
  || Str.contains (lit "employees") (source p).

(** The body of the inner loop over the matches of one size pattern:
    a match that [int] rejects is skipped ([except: continue]). *)
Definition size_of_match (p : pattern) (mt : str) : list Z :=
  match Num.int_of_str (Str.remove_commas mt) with
  | Some n => [if is_people_pattern p then (n * 125)%Z else n]
  | None => []
  end.

Definition sizes_of_pattern (text_lower : str) (p : pattern) : list Z :=
  flat_map (size_of_match p) (findall (re p) text_lower).

(** The list [sizes] when the loops over [size_patterns] are done. *)
Definition collect_sizes (text_lower : str) : list Z :=
  flat_map (sizes_of_pattern text_lower) size_patterns.

(** [min(xs)] and [max(xs)] of a non-empty list given as head and tail. *)
Definition list_min (x : Z) (xs : list Z) : Z := fold_left Z.min xs x.
Definition list_max (x : Z) (xs : list Z) : Z := fold_left Z.max xs x.

(** The [(min_size, max_size)] pair set from [sizes]:
    [max(sizes) if len(sizes) > 1 else min(sizes) * 1.5].  The product
    converts the [int] to a [float] and raises [OverflowError] when it
    is too large; the statement is outside any [try]. *)
Definition size_bounds (sizes : list Z) : result (option Q * option Q) :=
  match sizes with
  | [] => Return (None, None)
  | x :: xs =>
      let min_size := list_min x xs in
      if (1 <? length sizes)%nat
      then Return (Some (inject_Z min_size), Some (inject_Z (list_max x xs)))
      else
        match Num.float_of_int min_size with
        | Some f => Return (Some (inject_Z min_size), Some (f * (3 # 2)))
        | None => Raise OverflowError
        end
  end.

(** The loop over [budget_patterns]: the first pattern with a match
    whose first capture [float] accepts sets the budget and breaks. *)
Fixpoint detect_budget (pats : list pattern) (text_lower : str) : option Q :=
  match pats with
  | [] => None
  | p :: rest =>
      match findall (re p) text_lower with
      | [] => detect_budget rest text_lower
      | m0 :: _ =>
          match Num.float_of_str (Str.remove_commas m0) with
          | Some budget =>
              Some (if Str.contains (lit "month") (source p)
                    then (budget * 12) / 2000
                    else budget)
          | None => detect_budget rest text_lower
          end
      end
  end.

Definition keywords_in (vocabulary : list str) (text_lower : str) : list str :=
  filter (fun keyword => Str.contains keyword text_lower) vocabulary.

(** [_extract_requirements]; the argument is the list of the messages'
    [content] fields.  The size bounds are set first: when they raise,
    nothing else is done. *)
Definition _extract_requirements (conversation_history : list str)
  : result requirements :=
  let full_conversation := Str.join (lit " ") conversation_history in
  let text_lower := Str.lower full_conversation in
  bind (size_bounds (collect_sizes text_lower)) (fun bounds =>
  Return
    {| min_size := fst bounds;
       max_size := snd bounds;
       max_rent_per_sf := detect_budget budget_patterns text_lower;
       preferred_locations := keywords_in location_keywords text_lower;
       culture_keywords := keywords_in culture_vocabulary text_lower |}).

(** The entries of [emotion_data] read by [_apply_emotion_filters];
    a missing key is [None]. *)
Record emotion_data : Type := {
  ed_enthusiasm_level : option Q;
  ed_tone_excited : option Q;
  ed_tone_professional : option Q
}.

(** [d.get(key, default)] *)
Definition get (x : option Q) (default : Q) : Q :=
  match x with
  | Some v => v
  | None => default
  end.

Definition gt (a b : Q) : bool := negb (Qle_bool a b).

(** [x *= f] guarded by [if x:] *)
Definition scale_if_truthy (x : option Q) (f : Q) : option Q :=
  match x with
  | Some v => if Num.truthy x then Some (v * f) else x
  | None => None
  end.

(** [_apply_emotion_filters] *)
Definition _apply_emotion_filters (r : requirements) (e : emotion_data)
  : requirements :=
  let enthusiastic := gt (get (ed_enthusiasm_level e) (1 # 2)) (7 # 10) in
  let r1 :=
    if enthusiastic then
      {| min_size := min_size r;
         max_size := scale_if_truthy (max_size r) (11 # 10);
         max_rent_per_sf := scale_if_truthy (max_rent_per_sf r) (6 # 5);
         preferred_locations := preferred_locations r;
         culture_keywords := culture_keywords r |}
    else r in
  let kw1 :=
    if gt (get (ed_tone_excited e) 0) (6 # 10)
    then culture_keywords r1 ++ map lit ["modern"; "innovative"; "tech"]%string
    else culture_keywords r1 in
  let kw2 :=
    if gt (get (ed_tone_professional e) 0) (7 # 10)
    then kw1 ++ map lit ["professional"; "corporate"]%string
    else kw1 in
  {| min_size := min_size r1;
     max_size := max_size r1;
     max_rent_per_sf := max_rent_per_sf r1;
     preferred_locations := preferred_locations r1;
     culture_keywords := kw2 |}.

(** The requirements handed to the matcher by
    [get_property_recommendations]: the emotion step runs only when
    [emotion_data] is given. *)
Definition requirements_for (conversation_history : list str)
    (e : option emotion_data) : result requirements :=
  bind (_extract_requirements conversation_history) (fun r =>
  Return
    match e with
    | Some ed => _apply_emotion_filters r ed
    | None => r
    end).

(** *** The matcher *)

(** A row of the matcher's output: the property and, when culture
    keywords were given, the added [culture_score] column. *)
Record row : Type := { rec : property; culture_score : option Z }.

Definition score_of (r : row) : Z :=
  match culture_score r with
  | Some n => n
  | None => 0%Z
  end.

(** [df = df[mask]] guarded by [if bound:] *)
Definition filter_if_truthy (bound : option Q) (keep : Q -> property -> bool)
    (df : list property) : list property :=
  match bound with
  | Some b => if Num.truthy bound then filter (keep b) df else df
  | None => df
  end.

Definition size_at_least (b : Q) (p : property) : bool := Qle_bool b (size_sf p).
Definition size_at_most (b : Q) (p : property) : bool := Qle_bool (size_sf p) b.
Definition rent_at_most (b : Q) (p : property) : bool := Qle_bool (rent_sf_year p) b.

(** The mask of [str.contains('|'.join(locations), case=False)], a
    search for the regular expression [t1|...|tn] that ignores case.
    The terms are read as plain text, as those [_extract_requirements]
    produces are: the search then succeeds exactly when the address
    contains one of the terms, whatever the case.  A term holding a
    character special to [re] (see [plain_term]) is outside what is
    modelled. *)
Definition location_mask (locations : list str) (p : property) : bool :=
  existsb (fun term => address_contains term p) locations.

Definition filter_locations (locations : list str) (df : list property)
  : list property :=
  match locations with
  | [] => df
  | _ :: _ => filter (location_mask locations) df
  end.

(** The data frame after the size, rent and location filters. *)
Definition filtered (req : requirements) (properties_df : list property)
  : list property :=
  let df1 := filter_if_truthy (min_size req) size_at_least properties_df in
  let df2 := filter_if_truthy (max_size req) size_at_most df1 in
  let df3 := filter_if_truthy (max_rent_per_sf req) rent_at_most df2 in
  filter_locations (preferred_locations req) df3.

(** [sum(1 for keyword in culture_keywords
         if keyword.lower() in property_text)] *)
Definition culture_score_of (keywords : list str) (p : property) : Z :=
  let property_text := Str.lower (property_address p) in
  Z.of_nat
    (length (filter (fun keyword => Str.contains (Str.lower keyword) property_text)
                    keywords)).

(** The surviving rows before sorting: with their [culture_score] when
    culture keywords are given, unchanged otherwise. *)
Definition with_scores (keywords : list str) (df : list property) : list row :=
  map (fun p =>
         {| rec := p;
            culture_score :=
              match keywords with
              | [] => None
              | _ :: _ => Some (culture_score_of keywords p)
              end |})
      df.

Section Matcher.

(** [df.sort_values('culture_score', ascending=False)], a pandas
    routine called with the default [kind].  What is known of it is
    stated where it is used, as [sorts_by_score_desc]. *)
Variable sort_values : list row -> list row.

(** The scoring and sorting step; the sort runs only when culture
    keywords are given. *)
Definition ranked (keywords : list str) (df : list property) : list row :=
  match keywords with
  | [] => with_scores keywords df
  | _ :: _ => sort_values (with_scores keywords df)
  end.

(** [_find_matching_properties], with the loaded table as a parameter
    ([None] when it was never loaded). *)
Definition _find_matching_properties (properties_df : option (list property))
    (req : requirements) : list row :=
  match properties_df with
  | None => []
  | Some [] => []
  | Some df => head3 (ranked (culture_keywords req) (filtered req df))
  end.

End Matcher.

End PropertyMatchingService.

(** ** Two sorting routines

    Two ways to put rows in non-increasing order of [culture_score],
    used to run the matcher on examples.  Both are insertion sorts; they
    differ on rows of equal score only. *)

Module Sorts.

Import PropertyMatchingService.

(** A row is placed before the first row whose score is not larger than
    its own: it comes first among the rows of its score. *)
Fixpoint insert_before_equals (x : row) (l : list row) : list row :=
  match l with
  | [] => [x]
  | y :: l' =>
      if (score_of x <? score_of y)%Z then y :: insert_before_equals x l'
      else x :: l
  end.

(** Rows of equal score keep the order they had. *)
Fixpoint sort_keeping_ties (l : list row) : list row :=
  match l with
  | [] => []
  | x :: l' => insert_before_equals x (sort_keeping_ties l')
  end.

(** A row is placed before the first row whose score is smaller than its
    own: it comes last among the rows of its score. *)
Fixpoint insert_after_equals (x : row) (l : list row) : list row :=
  match l with
  | [] => [x]
  | y :: l' =>
      if (score_of x <=? score_of y)%Z then y :: insert_after_equals x l'
      else x :: l
  end.

(** Rows of equal score come out in the reverse of the order they
    had. *)
Fixpoint sort_reversing_ties (l : list row) : list row :=
  match l with
  | [] => []
  | x :: l' => insert_after_equals x (sort_reversing_ties l')
  end.

End Sorts.

(** ** [final_web_app.py] *)

Module FinalWebApp.

(** The demo table used when the CSV cannot be read. *)
Definition sample_data : list property :=
  [PROP001; PROP002; PROP003; PROP004; PROP005].

(** *** [analyze_emotion_from_text] *)

Definition enthusiasm_keywords : list str :=
  map lit ["excited"; "love"; "amazing"; "perfect"; "great"; "fantastic";
           "wow"; "awesome"]%string.
Definition professional_keywords : list str :=
  map lit ["need"; "require"; "business"; "professional"; "office";
           "company"; "corporate"]%string.
Definition uncertainty_keywords : list str :=
  map lit ["maybe"; "perhaps"; "not sure"; "uncertain"; "think"; "might";
           "possibly"]%string.
Definition confidence_keywords : list str :=
  map lit ["definitely"; "certainly"; "absolutely"; "sure"; "confident";
           "know"; "clear"]%string.

Definition analyze_emotion_from_text (text : str) : emotion :=
  let text_lower := Str.lower text in
  let word_count := Z.max (Z.of_nat (Str.count_words text_lower)) 1 in
  let enthusiasm := level (keyword_hits enthusiasm_keywords text_lower) word_count 8 in
  let professional_level :=
    level (keyword_hits professional_keywords text_lower) word_count 5 in
  let uncertainty := level (keyword_hits uncertainty_keywords text_lower) word_count 8 in
  let confidence := level (keyword_hits confidence_keywords text_lower) word_count 8 in
  let score := (1 # 2) + (enthusiasm + confidence - uncertainty) * (3 # 10) in
  {| emotion_score := Qmax 0 (Qmin 1 score);
     enthusiasm_level := enthusiasm;
     voice_pace := 1 + (enthusiasm - (1 # 2)) * (4 # 10);
     tone_analysis :=
       {| professional := professional_level;
          excited := enthusiasm;
          confident := confidence;
          uncertain := uncertainty |} |}.

(** *** [find_matching_properties] *)

Definition people_patterns : list regex :=
  [ seqs [Grp (plus Digit); ws; word (lit "people")];
    seqs [word (lit "team"); ws; word (lit "of"); ws; Grp (plus Digit)];
    seqs [Grp (plus Digit); ws; word (lit "employees")];
    seqs [Grp (plus Digit); ws; word (lit "person"); ws; word (lit "team")] ].

(** [(?:sq\.?\s*ft\.?|square\s*foot)] *)
Definition per_sq_ft_unit : regex :=
  alts [sq_ft; seqs [word (lit "square"); ws; word (lit "foot")]].

Definition budget_patterns : list regex :=
  [ seqs [dollar; Grp (plus Digit); ws; per_opt; per_sq_ft_unit];
    seqs [word (lit "budget"); Lazy AnyChar; dollar; Grp (plus Digit)];
    seqs [word (lit "around"); ws; dollar; Grp (plus Digit)];
    seqs [word (lit "under"); ws; dollar; Grp (plus Digit)] ].

(** The [location_keywords] dictionary, in insertion order. *)
Definition location_keywords : list (str * str) :=
  map (fun kv => (lit (fst kv), lit (snd kv)))
    [("downtown", "Downtown"); ("midtown", "Midtown"); ("uptown", "Uptown");
     ("financial", "Financial"); ("tech", "Tech"); ("creative", "Creative");
     ("arts", "Arts")]%string.

(** A [for pattern in patterns: ... break] loop: [group(1)] of the
    first pattern that [re.search] finds in the text. *)
Fixpoint first_search (patterns : list regex) (text_lower : str) : option str :=
  match patterns with
  | [] => None
  | p :: rest =>
      match search p text_lower with
      | Some g => Some g
      | None => first_search rest text_lower
      end
  end.

(** Rows with [people*100 <= size <= people*200]. *)
Definition size_matches (properties_df : list property) (people_count : Z)
  : list property :=
  let min_size := inject_Z (people_count * 100) in
  let max_size := inject_Z (people_count * 200) in
  filter (fun p => Qle_bool min_size (size_sf p) && Qle_bool (size_sf p) max_size)
         properties_df.

(** Rows with [rent <= budget * 1.2]. *)
Definition budget_matches (properties_df : list property) (budget : Q)
  : list property :=
  filter (fun p => Qle_bool (rent_sf_year p) (budget * (6 # 5))) properties_df.

(** The rows appended by the loop over [location_keywords]. *)
Definition location_matches (properties_df : list property) (text_lower : str)
  : list property :=
  flat_map
    (fun kv =>
       if Str.contains (fst kv) text_lower
       then filter (address_contains (snd kv)) properties_df
       else [])
    location_keywords.

Definition id_eqb (a b : str) : bool :=
  if list_eq_dec ascii_dec a b then true else false.

(** The loop that keeps the first row of every [unique_id]; [seen_ids]
    is the set of identifiers met so far. *)
Fixpoint unique_from (seen_ids : list str) (matches : list property)
  : list property :=
  match matches with
  | [] => []
  | mt :: rest =>
      if existsb (id_eqb (unique_id mt)) seen_ids
      then unique_from seen_ids rest
      else mt :: unique_from (unique_id mt :: seen_ids) rest
  end.

(** The list [matches] before duplicates are removed.  [None] stands
    for an exception raised by [int] or [float]. *)
Definition all_matches (properties_df : list property) (message : str)
  : option (list property) :=
  let text_lower := Str.lower message in
  match
    match first_search people_patterns text_lower with
    | Some g => option_map (size_matches properties_df) (Num.int_of_str g)
    | None => Some []
    end
  with
  | None => None
  | Some by_size =>
      match
        match first_search budget_patterns text_lower with
        | Some g => option_map (budget_matches properties_df) (Num.float_of_str g)
        | None => Some []
        end
      with
      | None => None
      | Some by_budget =>
          Some (by_size ++ by_budget ++ location_matches properties_df text_lower)
      end
  end.

Definition find_matching_properties (properties_df : list property)
    (message : str) : option (list property) :=
  match all_matches properties_df message with
  | None => None
  | Some [] => Some (head3 properties_df)
  | Some matches => Some (head3 (unique_from [] matches))
  end.

End FinalWebApp.

(** ** [app/services/transcription_service.py] *)

Module TranscriptionService.

Definition enthusiasm_keywords : list str :=
  map lit ["excited"; "love"; "amazing"; "perfect"; "great"; "fantastic"]%string.
Definition professional_keywords : list str :=
  map lit ["need"; "require"; "business"; "professional"; "office"]%string.
Definition uncertainty_keywords : list str :=
  map lit ["maybe"; "perhaps"; "not sure"; "uncertain"; "hmm"]%string.

(** [_basic_emotion_analysis] *)
Definition _basic_emotion_analysis (transcript : str) : emotion :=
  let text_lower := Str.lower transcript in
  let enthusiasm_score := keyword_hits enthusiasm_keywords text_lower in
  let professional_score := keyword_hits professional_keywords text_lower in
  let uncertainty_score := keyword_hits uncertainty_keywords text_lower in
  let total_words := Z.of_nat (Str.count_words text_lower) in
  let '(enthusiasm, professional_level, uncertainty) :=
    if (0 <? total_words)%Z
    then (level enthusiasm_score total_words 10,
          level professional_score total_words 10,
          level uncertainty_score total_words 10)
    else (1 # 2, 1 # 2, 3 # 10) in
  {| emotion_score := (1 # 2) + (enthusiasm - uncertainty) * (1 # 2);
     enthusiasm_level := enthusiasm;
     voice_pace := 1;
     tone_analysis :=
       {| professional := professional_level;
          excited := enthusiasm;
          confident := 1 - uncertainty;
          uncertain := uncertainty |} |}.

End TranscriptionService.


(** ** [TranscriptionService.transcribe_audio] and the [/transcribe]
       endpoint of [app/api/endpoints/transcription.py] *)

Module TranscriptionApi.

(** The dictionary returned by a transcription; the entry
    [transcription_time], a clock reading, is left out. *)
Record transcription : Type := {
  transcript : str;
  confidence : option Q;
  provider : str;
  analysis : emotion
}.

(** [_get_mock_transcription] *)
Definition _get_mock_transcription : transcription :=
  {| transcript :=
       lit "I'm looking for office space for my growing business. We need something modern and professional.";
     confidence := Some (95 # 100);
     provider := lit "mock";
     analysis :=
       {| emotion_score := 7 # 10;
          enthusiasm_level := 6 # 10;
          voice_pace := 1;
          tone_analysis :=
            {| professional := 8 # 10;
               excited := 5 # 10;
               confident := 7 # 10;
               uncertain := 2 # 10 |} |} |}.

(** [transcribe_audio].  [openai_client] is [None] when no API key was
    given; otherwise it is the Whisper call, which answers with the text
    or raises ([None]). *)
Definition transcribe_audio (openai_client : option (list ascii -> option str))
    (audio_data : list ascii) : transcription :=
  match openai_client with
  | None => _get_mock_transcription
  | Some whisper =>
      match whisper audio_data with
      | Some text =>
          {| transcript := text;
             confidence := None;
             provider := lit "openai";
             analysis := TranscriptionService._basic_emotion_analysis text |}
      | None => _get_mock_transcription
      end
  end.

(** The body of the endpoint inside its [try]. *)
Definition transcribe_endpoint_body
    (openai_client : option (list ascii -> option str))
    (content_type : option str) (audio_data : list ascii)
  : result transcription :=
  let is_audio :=
    match content_type with
    | None => false
    | Some [] => false
    | Some ct => Str.starts_with (lit "audio/") ct
    end in
  if negb is_audio
  then Raise (HTTPException 400 (lit "File must be an audio file"))
  else
    match audio_data with
    | [] => Raise (HTTPException 400 (lit "Empty audio file"))
    | _ :: _ => Return (transcribe_audio openai_client audio_data)
    end.

(** The endpoint: [except Exception as e: raise HTTPException(500,
    detail=str(e))] wraps the body.  [str_of] is [str] on exceptions. *)
Definition transcribe_endpoint (str_of : exn -> str)
    (openai_client : option (list ascii -> option str))
    (content_type : option str) (audio_data : list ascii)
  : result transcription :=
  match transcribe_endpoint_body openai_client content_type audio_data with
  | Return r => Return r
  | Raise e => Raise (HTTPException 500 (str_of e))
  end.

End TranscriptionApi.

(** ** [base64.b64encode] *)

Module Base64.

Definition alphabet : str :=
  lit "ABCDEFGHIJKLMNOPQRSTUVWXYZabcdefghijklmnopqrstuvwxyz0123456789+/".

Definition pad : ascii := "="%char.

(** The character of a six-bit value. *)
Definition digit (n : nat) : ascii := nth n alphabet pad.

(** Three bytes give four characters; a last group of one or two bytes
    is padded with [=]. *)
Fixpoint b64encode (bytes : list ascii) : str :=
  match bytes with
  | [] => []
  | [a] =>
      let n0 := Str.code a in
      [digit (n0 / 4)%nat; digit ((n0 mod 4) * 16)%nat; pad; pad]
  | [a; b] =>
      let n0 := Str.code a in
      let n1 := Str.code b in
      [digit (n0 / 4)%nat; digit ((n0 mod 4) * 16 + n1 / 16)%nat;
       digit ((n1 mod 16) * 4)%nat; pad]
  | a :: b :: c :: rest =>
      let n0 := Str.code a in
      let n1 := Str.code b in
      let n2 := Str.code c in
      digit (n0 / 4)%nat :: digit ((n0 mod 4) * 16 + n1 / 16)%nat
        :: digit ((n1 mod 16) * 4 + n2 / 64)%nat :: digit (n2 mod 64)%nat
        :: b64encode rest
  end.

(** The six-bit value of a character of the alphabet. *)
Fixpoint index_from (i : nat) (l : str) (c : ascii) : option nat :=
  match l with
  | [] => None
  | x :: l' => if Str.eqb x c then Some i else index_from (S i) l' c
  end.

Definition index (c : ascii) : option nat := index_from 0%nat alphabet c.

(** The inverse used to state that the encoding loses nothing. *)
Fixpoint decode (fuel : nat) (s : str) : option (list ascii) :=
  match fuel with
  | O => match s with [] => Some [] | _ => None end
  | S fuel' =>
      match s with
      | [] => Some []
      | c0 :: c1 :: c2 :: c3 :: rest =>
          match index c0, index c1 with
          | Some s0, Some s1 =>
              let b0 := ascii_of_nat (s0 * 4 + s1 / 16)%nat in
              if Str.eqb c2 pad then
                match rest with
                | [] => if Str.eqb c3 pad then Some [b0] else None
                | _ :: _ => None
                end
              else
                match index c2 with
                | Some s2 =>
                    let b1 := ascii_of_nat ((s1 mod 16) * 16 + s2 / 4)%nat in
                    if Str.eqb c3 pad then
                      match rest with
                      | [] => Some [b0; b1]
                      | _ :: _ => None
                      end
                    else
                      match index c3 with
                      | Some s3 =>
                          let b2 := ascii_of_nat ((s2 mod 4) * 64 + s3)%nat in
                          option_map (fun tl => b0 :: b1 :: b2 :: tl)
                                     (decode fuel' rest)
                      | None => None
                      end
                | None => None
                end
          | _, _ => None
          end
      | _ => None
      end
  end.

Definition b64decode (s : str) : option (list ascii) := decode (length s) s.

End Base64.

(** ** The routes of [final_web_app.py] *)

Module WebApp.

Definition newline : str := [ascii_of_nat 10].

(** The UTF-8 bytes of the bullet and of the office-building sign used
    in the reply templates. *)
Definition bullet : str := map ascii_of_nat [226; 128; 162]%nat.
Definition office_building : str := map ascii_of_nat [240; 159; 143; 162]%nat.

(** A value of the request's JSON body: the field [emotion_data] is
    declared [Dict[str, Any]], so an entry can hold anything. *)
#[warnings="-register-all"]
Inductive value : Type :=
| VNone
| VBool (b : bool)
| VNum (q : Q)
| VStr (s : str)
| VList (items : list value)
| VDict (entries : list (str * value)).

(** A dictionary with text keys, as the list of its entries. *)
Definition dict : Type := list (str * value).

Definition key_eqb (a b : str) : bool :=
  if list_eq_dec ascii_dec a b then true else false.

(** [d.get(key)]: [None] for a missing key. *)
Fixpoint lookup (key : str) (d : dict) : option value :=
  match d with
  | [] => None
  | (k, v) :: d' => if key_eqb k key then Some v else lookup key d'
  end.

(** [d.get(key, default)] *)
Definition get (d : dict) (key : str) (default : value) : value :=
  match lookup key d with
  | Some v => v
  | None => default
  end.

(** [v > threshold] for a float [threshold]: numbers and booleans are
    compared; [None], a text, a list or a dictionary raise
    [TypeError]. *)
Definition gt (v : value) (threshold : Q) : result bool :=
  match v with
  | VNum q => Return (PropertyMatchingService.gt q threshold)
  | VBool b => Return (PropertyMatchingService.gt (if b then 1 else 0) threshold)
  | _ => Raise TypeError
  end.

(** [emotion_data and
     emotion_data.get('enthusiasm_level', 0) > threshold] *)
Definition enthusiasm_above (emotion_data : option dict) (threshold : Q)
  : result bool :=
  match emotion_data with
  | None => Return false
  | Some [] => Return false
  | Some d => gt (get d (lit "enthusiasm_level") (VNum 0)) threshold
  end.

(** [emotion_data and
     emotion_data.get('tone_analysis', {}).get('professional', 0)
       > threshold];
    a [tone_analysis] that is not a dictionary has no [get]:
    [AttributeError]. *)
Definition professional_above (emotion_data : option dict) (threshold : Q)
  : result bool :=
  match emotion_data with
  | None => Return false
  | Some [] => Return false
  | Some d =>
      match get d (lit "tone_analysis") (VDict []) with
      | VDict tone => gt (get tone (lit "professional") (VNum 0)) threshold
      | _ => Raise AttributeError
      end
  end.

(** The dictionary returned by [analyze_emotion_from_text], as a
    value. *)
Definition view_of (e : emotion) : dict :=
  [ (lit "emotion_score", VNum (emotion_score e));
    (lit "enthusiasm_level", VNum (enthusiasm_level e));
    (lit "voice_pace", VNum (voice_pace e));
    (lit "tone_analysis",
     VDict [ (lit "professional", VNum (professional (tone_analysis e)));
             (lit "excited", VNum (excited (tone_analysis e)));
             (lit "confident", VNum (confident (tone_analysis e)));
             (lit "uncertain", VNum (uncertain (tone_analysis e))) ]) ].

Definition help_text : str :=
  Str.join newline
    [ lit "I'd love to help you find the perfect office space! To give you the best recommendations, could you tell me:";
      [];
      bullet ++ lit " How many people will work in the space?";
      bullet ++ lit " What's your budget per square foot?";
      bullet ++ lit " Any preferred location (downtown, midtown, etc.)?";
      bullet ++ lit " What type of business are you in?";
      [];
      lit "The more details you provide, the better I can match you with ideal properties!" ].

Definition excited_opening : str :=
  lit "I'm excited to help you! I found some perfect properties that match your needs:".
Definition professional_opening : str :=
  lit "Excellent. I've identified several professional properties that meet your requirements:".
Definition plain_opening : str :=
  lit "Great! I found some excellent properties that would be perfect for you:".
Definition excited_closing : str :=
  lit "These spaces would be fantastic for your team! Would you like me to arrange virtual tours right away?".
Definition plain_closing : str :=
  lit "Would you like more details about any of these properties or help scheduling a tour?".

Section Replies.

(** Python's number formatting: [{:,}], [str] of a float, [{:,.2f}] and
    [str] of an integer. *)
Variables (format_thousands format_float format_money : Q -> str)
          (format_int : Z -> str).

(** The lines appended for one property. *)
Definition property_lines (prop : property) : list str :=
  [ office_building ++ lit " **" ++ property_address prop ++ lit "**";
    lit "   " ++ bullet ++ lit " " ++ format_thousands (size_sf prop)
      ++ lit " square feet on Floor " ++ format_int (floor prop)
      ++ lit ", Suite " ++ suite prop;
    lit "   " ++ bullet ++ lit " $" ++ format_float (rent_sf_year prop)
      ++ lit "/sq ft/year ($" ++ format_money (monthly_rent prop)
      ++ lit "/month)";
    lit "   " ++ bullet ++ lit " Annual rent: $" ++ format_money (annual_rent prop);
    lit "   " ++ bullet ++ lit " Contact: " ++ associate_1 prop
      ++ lit " (" ++ broker_email prop ++ lit ")";
    [] ].

(** The first line of a reply that lists properties. *)
Definition opening_line (emotion_data : option dict) : result str :=
  bind (enthusiasm_above emotion_data (6 # 10)) (fun enthusiastic =>
  if enthusiastic then Return excited_opening
  else
    bind (professional_above emotion_data (7 # 10)) (fun professional_tone =>
    Return (if professional_tone then professional_opening else plain_opening))).

(** Its last line. *)
Definition closing_line (emotion_data : option dict) : result str :=
  bind (enthusiasm_above emotion_data (7 # 10)) (fun enthusiastic =>
  Return (if enthusiastic then excited_closing else plain_closing)).

(** [generate_response_with_properties]; the message is not read.  The
    comparisons on [emotion_data] are made only when the property list
    is not empty. *)
Definition generate_response_with_properties (message : str)
    (properties : list property) (emotion_data : option dict) : result str :=
  match properties with
  | [] => Return help_text
  | _ :: _ =>
      bind (opening_line emotion_data) (fun opening =>
      let response_parts := [opening; []] ++ flat_map property_lines properties in
      bind (closing_line emotion_data) (fun closing =>
      Return (Str.join newline (response_parts ++ [closing]))))
  end.

(** The reply of [/api/v1/chat]; [processing_time] is left out. *)
Record chat_reply : Type := {
  response : str;
  tokens_used : Z;
  model : str;
  rag_sources_used : bool
}.

(** The body of [chat_with_llm] inside its [try].  [emotion_data] is the
    request's field; [request.emotion_data or
    analyze_emotion_from_text(...)] replaces a missing or empty
    dictionary by the analysis of the message. *)
Definition chat_with_llm_body (properties_df : list property)
    (message : str) (emotion_data : option dict) : result chat_reply :=
  match FinalWebApp.find_matching_properties properties_df message with
  | None => Raise ValueError
  | Some properties =>
      let emotion :=
        match emotion_data with
        | Some (entry :: d) => entry :: d
        | _ => view_of (FinalWebApp.analyze_emotion_from_text message)
        end in
      bind (generate_response_with_properties message properties (Some emotion))
        (fun response_text =>
      Return
        {| response := response_text;
           tokens_used := 150;
           model := lit "smart-property-matcher";
           rag_sources_used := false |})
  end.

(** [chat_with_llm]: any exception of the body becomes a 500 whose
    detail is [str(e)]; [str_of] is [str] on exceptions. *)
Definition chat_with_llm (str_of : exn -> str) (properties_df : list property)
    (message : str) (emotion_data : option dict) : result chat_reply :=
  match chat_with_llm_body properties_df message emotion_data with
  | Return reply => Return reply
  | Raise e => Raise (HTTPException 500 (str_of e))
  end.

End Replies.

(** An uploaded file: its bytes and the read position. *)
Record upload_file : Type := {
  file_content : list ascii;
  position : nat
}.

(** [await audio_file.read()]: the bytes from the position to the end;
    the position moves to the end. *)
Definition read (f : upload_file) : list ascii * upload_file :=
  (skipn (position f) (file_content f),
   {| file_content := file_content f; position := length (file_content f) |}).

Definition mock_transcripts : list str :=
  [ lit "I need office space for my 25 person tech startup. We're looking for something modern and collaborative downtown.";
    lit "We need professional office space for our law firm. Private offices and conference rooms are essential. Budget around $40 per square foot.";
    lit "Looking for creative workspace for 15 people in the arts district. We want something inspiring and unique.";
    lit "Need large corporate space for 50 employees in the financial district. Professional environment is very important." ].

(** The reply of [/api/v1/transcribe]; the clock reading is left out. *)
Record transcribe_reply : Type := {
  tr_transcript : str;
  tr_confidence : Q;
  tr_provider : str;
  tr_emotion_analysis : emotion
}.

(** [transcribe_audio]: the transcript is chosen by the size of the
    audio.  A subscript out of range would raise [IndexError]. *)
Definition transcribe_audio (str_of : exn -> str) (audio_file : upload_file)
  : result transcribe_reply * upload_file :=
  let (audio_data, audio_file') := read audio_file in
  match nth_error mock_transcripts
          (length audio_data mod length mock_transcripts)%nat with
  | Some transcript =>
      (Return {| tr_transcript := transcript;
                 tr_confidence := 95 # 100;
                 tr_provider := lit "smart_mock";
                 tr_emotion_analysis :=
                   FinalWebApp.analyze_emotion_from_text transcript |},
       audio_file')
  | None =>
      (Raise (HTTPException 500 (str_of IndexError)),
       audio_file')
  end.

(** The reply of [/api/v1/speak]; the clock reading is left out. *)
Record speech_reply : Type := {
  audio_data : str;
  sp_provider : str;
  voice_id : str;
  text_length : nat
}.

(** [text_to_speech], for a text of ASCII characters. *)
Definition text_to_speech (text : str) : speech_reply :=
  {| audio_data := Base64.b64encode (lit "mock_audio_" ++ firstn 20 text);
     sp_provider := lit "mock";
     voice_id := lit "mock-voice";
     text_length := length text |}.

(** The reply of [/api/v1/converse]; the clock readings are left out. *)
Record converse_reply : Type := {
  cv_transcript : str;
  cv_response : str;
  audio_response : option str;
  cv_emotion_analysis : emotion;
  session_id : str
}.

Section Pipeline.

Variables (format_thousands format_float format_money : Q -> str)
          (format_int : Z -> str).

(** [full_conversation_pipeline]: the upload is read, then handed to
    [transcribe_audio], which reads it again; an [HTTPException] of a
    step is caught and raised again as a 500. *)
Definition full_conversation_pipeline (str_of : exn -> str)
    (properties_df : list property) (audio_file : upload_file)
    (session : option str) (include_audio_response : bool)
  : result converse_reply :=
  let (_, audio_file1) := read audio_file in
  match fst (transcribe_audio str_of audio_file1) with
  | Raise e => Raise (HTTPException 500 (str_of e))
  | Return transcription_result =>
      let transcript := tr_transcript transcription_result in
      let emotion_analysis := tr_emotion_analysis transcription_result in
      match chat_with_llm format_thousands format_float format_money format_int
              str_of properties_df transcript (Some (view_of emotion_analysis)) with
      | Raise e => Raise (HTTPException 500 (str_of e))
      | Return chat_result =>
          Return
            {| cv_transcript := transcript;
               cv_response := response chat_result;
               audio_response :=
                 if include_audio_response
                 then Some (audio_data (text_to_speech (response chat_result)))
                 else None;
               cv_emotion_analysis := emotion_analysis;
               session_id :=
                 match session with
                 | Some (c :: s) => c :: s
                 | _ => lit "default_session"
                 end |}
      end
  end.

End Pipeline.

End WebApp.

(** ** Vocabulary of the statements *)

(** A bound is absent or not negative. *)
Definition bound_nonneg (x : option Q) : Prop :=
  match x with
  | Some q => 0 <= q
  | None => True
  end.

(** A bound is absent or strictly positive. *)
Definition bound_positive (x : option Q) : Prop :=
  match x with
  | Some q => 0 < q
  | None => True
  end.

(** The lower bound does not exceed the upper bound when both are set. *)
Definition bounds_ordered (lo hi : option Q) : Prop :=
  match lo, hi with
  | Some a, Some b => a <= b
  | _, _ => True
  end.

(** The conversation text scanned by [_extract_requirements]. *)
Definition conversation_text (conversation_history : list str) : str :=
  Str.lower (Str.join (lit " ") conversation_history).

(** Every match of the size scan, in the order the loops meet them: the
    pattern and the captured text. *)
Definition size_scan (text_lower : str) : list (pattern * str) :=
  flat_map (fun p => map (fun mt => (p, mt)) (findall (re p) text_lower))
           PropertyMatchingService.size_patterns.

(** [float] accepts the capture once its commas are removed. *)
Definition float_readable (capture : str) : Prop :=
  exists q, Num.float_of_str (Str.remove_commas capture) = Some q.

(** The capture is a non-empty run of digits. *)
Definition digit_run (capture : str) : Prop :=
  capture <> [] /\ forallb Str.is_digit capture = true.

Definition digit_or_comma (c : ascii) : bool :=
  Str.is_digit c || Str.eqb c ","%char.

(** The test a bound puts on a row: none when the bound is absent or
    zero. *)
Definition bound_test (bound : option Q) (keep : Q -> property -> bool)
    (p : property) : bool :=
  match bound with
  | Some b => if Num.truthy bound then keep b p else true
  | None => true
  end.

Definition location_test (locations : list str) (p : property) : bool :=
  match locations with
  | [] => true
  | _ :: _ => PropertyMatchingService.location_mask locations p
  end.

(** The conjunction of the tests of a requirement profile. *)
Definition passes (req : PropertyMatchingService.requirements) (p : property)
  : bool :=
  bound_test (PropertyMatchingService.min_size req)
             PropertyMatchingService.size_at_least p
  && bound_test (PropertyMatchingService.max_size req)
                PropertyMatchingService.size_at_most p
  && bound_test (PropertyMatchingService.max_rent_per_sf req)
                PropertyMatchingService.rent_at_most p
  && location_test (PropertyMatchingService.preferred_locations req) p.

(** [req2] is [req1] with further bounds: each numeric bound of [req1]
    is absent or kept, and its location list is empty or kept.  The
    culture keywords are free. *)
Definition adds_bounds (req1 req2 : PropertyMatchingService.requirements) : Prop :=
  (PropertyMatchingService.min_size req1 = None
   \/ PropertyMatchingService.min_size req1 = PropertyMatchingService.min_size req2)
  /\ (PropertyMatchingService.max_size req1 = None
      \/ PropertyMatchingService.max_size req1 = PropertyMatchingService.max_size req2)
  /\ (PropertyMatchingService.max_rent_per_sf req1 = None
      \/ PropertyMatchingService.max_rent_per_sf req1
         = PropertyMatchingService.max_rent_per_sf req2)
  /\ (PropertyMatchingService.preferred_locations req1 = []
      \/ PropertyMatchingService.preferred_locations req1
         = PropertyMatchingService.preferred_locations req2).

(** Rows in non-increasing order of [culture_score]. *)
Definition score_desc (a b : PropertyMatchingService.row) : Prop :=
  (PropertyMatchingService.score_of b <= PropertyMatchingService.score_of a)%Z.

(** What is known of [sort_values('culture_score', ascending=False)]:
    the rows come back rearranged, in non-increasing order of
    [culture_score].  The order of rows of equal score is left open. *)
Definition sorts_by_score_desc
    (sort_values : list PropertyMatchingService.row
                   -> list PropertyMatchingService.row) : Prop :=
  forall l, Permutation (sort_values l) l
            /\ StronglySorted score_desc (sort_values l).

(** The characters with a meaning of their own in a regular
    expression, and the terms made of other characters only. *)
Definition re_special (c : ascii) : bool :=
  existsb (Str.eqb c) (lit ".^$*+?{}[]\|()").

Definition plain_term (term : str) : Prop :=
  forallb (fun c => negb (re_special c)) term = true.

(** The people count [find_matching_properties] captures in the message,
    if any, has no more digits than [int] accepts. *)
Definition count_readable (message : str) : Prop :=
  forall g,
    FinalWebApp.first_search FinalWebApp.people_patterns (Str.lower message)
      = Some g ->
    (Z.of_nat (length g) <= Num.int_max_str_digits)%Z.

(** A value that can be compared with a number. *)
Definition comparable (v : WebApp.value) : Prop :=
  match v with
  | WebApp.VNum _ => True
  | WebApp.VBool _ => True
  | _ => False
  end.

(** The entries [generate_response_with_properties] reads in
    [emotion_data] are missing or numbers, and [tone_analysis] is
    missing or a dictionary. *)
Definition readable_emotion (emotion_data : option WebApp.dict) : Prop :=
  match emotion_data with
  | None => True
  | Some [] => True
  | Some d =>
      comparable (WebApp.get d (lit "enthusiasm_level") (WebApp.VNum 0))
      /\ match WebApp.get d (lit "tone_analysis") (WebApp.VDict []) with
         | WebApp.VDict tone =>
             comparable (WebApp.get tone (lit "professional") (WebApp.VNum 0))
         | _ => False
         end
  end.

(** [p] stands in [matches] before any other row with its [unique_id]. *)
Definition first_occurrence (p : property) (matches : list property) : Prop :=
  exists l1 l2,
    matches = l1 ++ p :: l2 /\ ~ In (unique_id p) (map unique_id l1).

(** The keyword begins with a character that is not a blank. *)
Definition starts_with_nonblank (keyword : str) : bool :=
  match keyword with
  | c :: _ => negb (Str.is_space c)
  | [] => false
  end.

(** Every word of the pattern holds a character satisfying [p]. *)
Fixpoint must_hit (p : ascii -> bool) (r : regex) : bool :=
  match r with
  | Chr c => p c
  | Seq r1 r2 => must_hit p r1 || must_hit p r2
  | Alt r1 r2 => must_hit p r1 && must_hit p r2
  | Grp r1 => must_hit p r1
  | _ => false
  end.

(** The first character, if any, is not in the class [p]. *)
Definition stops (p : ascii -> bool) (s : str) : Prop :=
  match s with
  | c :: _ => p c = false
  | [] => True
  end.

(** A number between 0 and 1. *)
Definition unit_interval (q : Q) : Prop := 0 <= q /\ q <= 1.

(** The address holds one of the location terms, whatever the case. *)
Definition address_has_one_of (locations : list str) (p : property) : Prop :=
  exists term, In term locations /\ address_contains term p = true.


(** * Properties *)

(** ** Numbers read from text are never negative *)

Module NumFacts.

Lemma digit_val_nonneg (c : ascii) :
  Str.is_digit c = true -> (0 <= Num.digit_val c)%Z.
Proof.
  unfold Str.is_digit, Num.digit_val. intros H.
  apply andb_true_iff in H. destruct H as [H _].
  apply Nat.leb_le in H. lia.
Qed.

Lemma fold_digits_nonneg (s : str) :
  forall acc, (0 <= acc)%Z -> forallb Str.is_digit s = true ->
  (0 <= fold_left (fun a c => 10 * a + Num.digit_val c)%Z s acc)%Z.
Proof.
  induction s as [|c s IH]; cbn [fold_left forallb]; intros acc Hacc Hd;
    [exact Hacc|].
  apply andb_true_iff in Hd. destruct Hd as [Hc Hs].
  apply IH; [|exact Hs].
  pose proof (digit_val_nonneg c Hc). lia.
Qed.

Lemma digit_run_val_nonneg (s : str) (n : Z) :
  Num.digit_run_val s = Some n -> (0 <= n)%Z.
Proof.
  unfold Num.digit_run_val. destruct s as [|c s]; [discriminate|].
  destruct (forallb Str.is_digit (c :: s)) eqn:Hd; [|discriminate].
  intros H. inversion H; subst. unfold Num.digits_val.
  apply fold_digits_nonneg; [lia|exact Hd].
Qed.

Lemma digit_run_val_digits (s : str) :
  s <> [] -> forallb Str.is_digit s = true ->
  Num.digit_run_val s = Some (Num.digits_val s).
Proof.
  intros Hne Hd. unfold Num.digit_run_val. destruct s as [|c s]; [congruence|].
  rewrite Hd. reflexivity.
Qed.

(** [int] reads a run of digits exactly when it is within the limit. *)
Lemma int_of_str_digits (s : str) :
  s <> [] -> forallb Str.is_digit s = true ->
  Num.int_of_str s
  = if (Z.of_nat (length s) <=? Num.int_max_str_digits)%Z
    then Some (Num.digits_val s) else None.
Proof.
  intros Hne Hd. unfold Num.int_of_str.
  rewrite (digit_run_val_digits s Hne Hd). reflexivity.
Qed.

Lemma int_of_str_inv (s : str) (n : Z) :
  Num.int_of_str s = Some n ->
  Num.digit_run_val s = Some n
  /\ (Z.of_nat (length s) <= Num.int_max_str_digits)%Z.
Proof.
  unfold Num.int_of_str. destruct (Num.digit_run_val s) as [v|]; [|discriminate].
  destruct (Z.of_nat (length s) <=? Num.int_max_str_digits)%Z eqn:E;
    [|discriminate].
  intros H. inversion H; subst. split; [reflexivity|].
  apply Z.leb_le. exact E.
Qed.

Lemma int_of_str_nonneg (s : str) (n : Z) :
  Num.int_of_str s = Some n -> (0 <= n)%Z.
Proof.
  intros H. apply int_of_str_inv in H.
  exact (digit_run_val_nonneg s n (proj1 H)).
Qed.

Lemma float_of_int_inv (n : Z) (f : Q) :
  Num.float_of_int n = Some f ->
  f = inject_Z n /\ (Z.abs n < Num.float_overflow)%Z.
Proof.
  unfold Num.float_of_int.
  destruct (Z.abs n <? Num.float_overflow)%Z eqn:E; [|discriminate].
  intros H. inversion H; subst. split; [reflexivity|]. apply Z.ltb_lt. exact E.
Qed.

Lemma inject_Z_nonneg (n : Z) : (0 <= n)%Z -> 0 <= inject_Z n.
Proof. intros H. unfold Qle. simpl. lia. Qed.

Lemma inject_Z_pos (n : Z) : (0 < n)%Z -> 0 < inject_Z n.
Proof. intros H. unfold Qlt. simpl. lia. Qed.

Lemma float_of_str_nonneg (s : str) (q : Q) :
  Num.float_of_str s = Some q -> 0 <= q.
Proof.
  unfold Num.float_of_str. destruct (Num.split_dot s) as [ip [fp|]].
  - destruct (Num.digit_run_val ip) as [n|] eqn:Hn; [|discriminate].
    destruct (Num.digit_run_val fp) as [f|] eqn:Hf; [|discriminate].
    intros H. inversion H; subst; clear H.
    apply digit_run_val_nonneg in Hn. apply digit_run_val_nonneg in Hf.
    assert (H10 : (0 < 10 ^ Z.of_nat (length fp))%Z) by (apply Z.pow_pos_nonneg; lia).
    assert (Hq1 : 0 <= inject_Z n) by (apply inject_Z_nonneg; exact Hn).
    assert (Hq2 : 0 <= inject_Z f) by (apply inject_Z_nonneg; exact Hf).
    assert (Hq3 : 0 < inject_Z (10 ^ Z.of_nat (length fp)))
      by (apply inject_Z_pos; exact H10).
    assert (Hq4 : 0 <= inject_Z f / inject_Z (10 ^ Z.of_nat (length fp))).
    { apply Qle_shift_div_l; [exact Hq3|]. rewrite Qmult_0_l. exact Hq2. }
    apply (Qle_trans _ (0 + 0)); [discriminate|].
    apply Qplus_le_compat; assumption.
  - destruct (Num.digit_run_val ip) as [n|] eqn:Hn; [|discriminate].
    intros H. inversion H; subst; clear H.
    apply digit_run_val_nonneg in Hn. apply inject_Z_nonneg. exact Hn.
Qed.

End NumFacts.

(** ** Size and budget extraction *)

Module ExtractFacts.

Import PropertyMatchingService.

Lemma list_min_spec (xs : list Z) :
  forall x, In (list_min x xs) (x :: xs)
            /\ forall y, In y (x :: xs) -> (list_min x xs <= y)%Z.
Proof.
  unfold list_min. induction xs as [|a xs IH]; intros x.
  - split; [left; reflexivity|]. intros y [<-|[]]. simpl. lia.
  - cbn [fold_left]. destruct (IH (Z.min x a)) as [Hin Hle]. split.
    + destruct Hin as [Hin|Hin]; [|right; right; exact Hin].
      rewrite <- Hin. destruct (Z.min_spec x a) as [[_ ->]|[_ ->]];
        [left|right; left]; reflexivity.
    + intros y Hy.
      assert (Hm : (fold_left Z.min xs (Z.min x a) <= Z.min x a)%Z)
        by (apply Hle; left; reflexivity).
      destruct Hy as [<-|[<-|Hy]]; [lia|lia|].
      apply Hle. right. exact Hy.
Qed.

Lemma list_max_spec (xs : list Z) :
  forall x, In (list_max x xs) (x :: xs)
            /\ forall y, In y (x :: xs) -> (y <= list_max x xs)%Z.
Proof.
  unfold list_max. induction xs as [|a xs IH]; intros x.
  - split; [left; reflexivity|]. intros y [<-|[]]. simpl. lia.
  - cbn [fold_left]. destruct (IH (Z.max x a)) as [Hin Hle]. split.
    + destruct Hin as [Hin|Hin]; [|right; right; exact Hin].
      rewrite <- Hin. destruct (Z.max_spec x a) as [[_ ->]|[_ ->]];
        [right; left|left]; reflexivity.
    + intros y Hy.
      assert (Hm : (Z.max x a <= fold_left Z.max xs (Z.max x a))%Z)
        by (apply Hle; left; reflexivity).
      destruct Hy as [<-|[<-|Hy]]; [lia|lia|].
      apply Hle. right. exact Hy.
Qed.

Lemma size_of_match_nonneg (p : pattern) (mt : str) :
  Forall (fun n => (0 <= n)%Z) (size_of_match p mt).
Proof.
  unfold size_of_match.
  destruct (Num.int_of_str (Str.remove_commas mt)) as [n|] eqn:Hn;
    [|constructor].
  apply NumFacts.int_of_str_nonneg in Hn.
  constructor; [|constructor]. destruct (is_people_pattern p); lia.
Qed.

Lemma Forall_flat_map {A B : Type} (P : B -> Prop) (f : A -> list B) (l : list A) :
  (forall a, Forall P (f a)) -> Forall P (flat_map f l).
Proof.
  intros H. induction l as [|a l IH]; simpl; [constructor|].
  apply Forall_app. split; [apply H|exact IH].
Qed.

(** Every collected size is a non-negative integer. *)
Lemma collect_sizes_nonneg (text_lower : str) :
  Forall (fun n => (0 <= n)%Z) (collect_sizes text_lower).
Proof.
  unfold collect_sizes. apply Forall_flat_map. intros p.
  unfold sizes_of_pattern. apply Forall_flat_map. intros mt.
  apply size_of_match_nonneg.
Qed.

Lemma detect_budget_nonneg (pats : list pattern) (text_lower : str) (b : Q) :
  detect_budget pats text_lower = Some b -> 0 <= b.
Proof.
  induction pats as [|p pats IH]; cbn [detect_budget]; [discriminate|].
  destruct (findall (re p) text_lower) as [|m0 ms]; [exact IH|].
  destruct (Num.float_of_str (Str.remove_commas m0)) as [q|] eqn:Hq; [|exact IH].
  apply NumFacts.float_of_str_nonneg in Hq.
  intros H. inversion H as [Hb]; clear H Hb.
  destruct (Str.contains _ (source p)); [|exact Hq].
  apply Qle_shift_div_l; [reflexivity|]. rewrite Qmult_0_l.
  apply Qmult_le_0_compat; [exact Hq|discriminate].
Qed.

(** The outcome of the step that sets the size bounds. *)
Lemma size_bounds_cases (sizes : list Z) :
  match sizes with
  | [] => size_bounds sizes = Return (None, None)
  | [x] =>
      ((Z.abs x < Num.float_overflow)%Z
       /\ size_bounds sizes
          = Return (Some (inject_Z x), Some (inject_Z x * (3 # 2))))
      \/ ((Num.float_overflow <= Z.abs x)%Z
          /\ size_bounds sizes = Raise OverflowError)
  | x :: xs =>
      size_bounds sizes
      = Return (Some (inject_Z (list_min x xs)), Some (inject_Z (list_max x xs)))
  end.
Proof.
  destruct sizes as [|x [|y ys]]; [reflexivity| |reflexivity].
  unfold size_bounds. cbn [length Nat.ltb Nat.leb list_min fold_left].
  unfold Num.float_of_int.
  destruct (Z.abs x <? Num.float_overflow)%Z eqn:E.
  - left. split; [apply Z.ltb_lt; exact E|reflexivity].
  - right. split; [apply Z.ltb_ge; exact E|reflexivity].
Qed.

(** The bounds computed from a list of non-negative sizes. *)
Lemma size_bounds_ordered (sizes : list Z) (a b : Q) :
  Forall (fun n => (0 <= n)%Z) sizes ->
  size_bounds sizes = Return (Some a, Some b) -> 0 <= a /\ a <= b.
Proof.
  intros Hnn. unfold size_bounds. destruct sizes as [|x xs]; [discriminate|].
  cbv zeta.
  destruct (list_min_spec xs x) as [Hin Hle].
  destruct (list_max_spec xs x) as [Hin' Hle'].
  assert (H0 : (0 <= list_min x xs)%Z).
  { rewrite Forall_forall in Hnn. apply Hnn. exact Hin. }
  pose proof (NumFacts.inject_Z_nonneg _ H0) as Hq.
  destruct (1 <? _)%nat.
  - intros H. inversion H; subst; clear H. split; [exact Hq|].
    rewrite <- Zle_Qle. apply Hle'. exact Hin.
  - destruct (Num.float_of_int (list_min x xs)) as [f|] eqn:Ef; [|discriminate].
    apply NumFacts.float_of_int_inv in Ef. destruct Ef as [-> _].
    intros H. inversion H; subst; clear H. split; [exact Hq|lra].
Qed.

Lemma size_bounds_shape (sizes : list Z) (bounds : option Q * option Q) :
  size_bounds sizes = Return bounds ->
  (bounds = (None, None) /\ sizes = [])
  \/ exists a b, bounds = (Some a, Some b).
Proof.
  unfold size_bounds. destruct sizes as [|x xs].
  - intros H. inversion H. left. split; reflexivity.
  - cbv zeta. destruct (1 <? _)%nat.
    + intros H. inversion H. right. eauto.
    + destruct (Num.float_of_int (list_min x xs)); [|discriminate].
      intros H. inversion H. right. eauto.
Qed.

(** What [_extract_requirements] returns, when it returns: the bounds
    of the size step and the other fields. *)
Lemma extract_fields (conversation_history : list str) (r : requirements) :
  _extract_requirements conversation_history = Return r ->
  let text := conversation_text conversation_history in
  size_bounds (collect_sizes text) = Return (min_size r, max_size r)
  /\ max_rent_per_sf r = detect_budget budget_patterns text
  /\ preferred_locations r = keywords_in location_keywords text
  /\ culture_keywords r = keywords_in culture_vocabulary text.
Proof.
  unfold _extract_requirements, conversation_text. cbv zeta.
  destruct (size_bounds _) as [[mn mx]|e]; cbn [bind]; [|discriminate].
  intros H. inversion H; subst; clear H. repeat split; reflexivity.
Qed.

(** [_extract_requirements] returns exactly when the size step does. *)
Lemma extract_outcome (conversation_history : list str) :
  let text := conversation_text conversation_history in
  match size_bounds (collect_sizes text) with
  | Return bounds =>
      _extract_requirements conversation_history
      = Return {| min_size := fst bounds;
                  max_size := snd bounds;
                  max_rent_per_sf := detect_budget budget_patterns text;
                  preferred_locations := keywords_in location_keywords text;
                  culture_keywords := keywords_in culture_vocabulary text |}
  | Raise e => _extract_requirements conversation_history = Raise e
  end.
Proof.
  unfold _extract_requirements, conversation_text. cbv zeta.
  destruct (size_bounds _) as [bounds|e]; reflexivity.
Qed.

Lemma requirements_for_inv (conversation_history : list str)
    (e : option emotion_data) (r : requirements) :
  requirements_for conversation_history e = Return r ->
  exists r0,
    _extract_requirements conversation_history = Return r0
    /\ r = match e with
           | Some ed => _apply_emotion_filters r0 ed
           | None => r0
           end.
Proof.
  unfold requirements_for.
  destruct (_extract_requirements conversation_history) as [r0|x];
    cbn [bind]; [|discriminate].
  intros H. inversion H; subst. exists r0. split; reflexivity.
Qed.

End ExtractFacts.

(** ** Emotion adjustment *)

Module EmotionFacts.

Import PropertyMatchingService.

Lemma scale_if_truthy_nonneg (x : option Q) (f : Q) :
  0 <= f -> bound_nonneg x -> bound_nonneg (scale_if_truthy x f).
Proof.
  intros Hf Hx. unfold scale_if_truthy. destruct x as [v|]; [|exact I].
  destruct (Num.truthy (Some v)); [|exact Hx].
  simpl in *. apply Qmult_le_0_compat; assumption.
Qed.

Lemma scale_if_truthy_grows (lo x : option Q) (f : Q) :
  1 <= f -> bound_nonneg x -> bounds_ordered lo x ->
  bounds_ordered lo (scale_if_truthy x f).
Proof.
  intros Hf Hx Ho. unfold scale_if_truthy. destruct x as [v|]; [|exact Ho].
  destruct (Num.truthy (Some v)); [|exact Ho].
  destruct lo as [a|]; [|exact I]. simpl in *. nra.
Qed.

Lemma apply_emotion_filters_bounds (r : requirements) (e : emotion_data) :
  min_size (_apply_emotion_filters r e) = min_size r
  /\ (max_size (_apply_emotion_filters r e) = max_size r
      \/ max_size (_apply_emotion_filters r e) = scale_if_truthy (max_size r) (11 # 10))
  /\ (max_rent_per_sf (_apply_emotion_filters r e) = max_rent_per_sf r
      \/ max_rent_per_sf (_apply_emotion_filters r e)
         = scale_if_truthy (max_rent_per_sf r) (6 # 5)).
Proof.
  unfold _apply_emotion_filters.
  destruct (gt (get (ed_enthusiasm_level e) (1 # 2)) (7 # 10)); simpl; auto.
Qed.

End EmotionFacts.

(** C4 (as amended).  Every requirement profile produced by extraction,
    with or without the emotion adjustment, has each numeric bound
    ([min_size], [max_size], [max_rent_per_sf]) either absent or not
    negative, and never has [min_size] above [max_size].  When no
    profile is produced the exception is [OverflowError]. *)
Theorem extracted_bounds_nonneg_and_ordered :
  forall (conversation_history : list str)
         (e : option PropertyMatchingService.emotion_data),
    match PropertyMatchingService.requirements_for conversation_history e with
    | Return r =>
        bound_nonneg (PropertyMatchingService.min_size r)
        /\ bound_nonneg (PropertyMatchingService.max_size r)
        /\ bound_nonneg (PropertyMatchingService.max_rent_per_sf r)
        /\ bounds_ordered (PropertyMatchingService.min_size r)
                          (PropertyMatchingService.max_size r)
    | Raise x => x = OverflowError
    end.
Proof.
  intros history e.
  unfold PropertyMatchingService.requirements_for.
  pose proof (ExtractFacts.extract_outcome history) as Hout. cbv zeta in Hout.
  set (text := conversation_text history) in *.
  pose proof (ExtractFacts.collect_sizes_nonneg text) as Hnn.
  destruct (PropertyMatchingService.size_bounds
              (PropertyMatchingService.collect_sizes text))
    as [bounds|x] eqn:Hs; rewrite Hout; cbn [bind].
  - assert (Hrent : bound_nonneg
              (PropertyMatchingService.detect_budget
                 PropertyMatchingService.budget_patterns text)).
    { destruct (PropertyMatchingService.detect_budget _ text) as [q|] eqn:Hb;
        [|exact I].
      exact (ExtractFacts.detect_budget_nonneg _ _ _ Hb). }
    assert (Hbase : bound_nonneg (fst bounds) /\ bound_nonneg (snd bounds)
                    /\ bounds_ordered (fst bounds) (snd bounds)).
    { destruct (ExtractFacts.size_bounds_shape _ _ Hs) as [[-> _]|[a [b ->]]];
        cbn [fst snd]; [repeat split; exact I|].
      destruct (ExtractFacts.size_bounds_ordered _ a b Hnn Hs) as [Ha Hab].
      repeat split; [exact Ha|exact (Qle_trans _ _ _ Ha Hab)|exact Hab]. }
    destruct Hbase as (Hmin & Hmax & Hord).
    destruct e as [ed|];
      [|cbn [PropertyMatchingService.min_size PropertyMatchingService.max_size
             PropertyMatchingService.max_rent_per_sf]; auto].
    match goal with
    | |- context [PropertyMatchingService._apply_emotion_filters ?r0 ed] =>
        set (r := r0)
    end.
    destruct (EmotionFacts.apply_emotion_filters_bounds r ed)
      as (Emin & Emax & Erent).
    rewrite Emin. subst r.
    cbn [PropertyMatchingService.min_size PropertyMatchingService.max_size
         PropertyMatchingService.max_rent_per_sf] in *.
    repeat split.
    + exact Hmin.
    + destruct Emax as [->| ->]; [exact Hmax|].
      apply EmotionFacts.scale_if_truthy_nonneg; [discriminate|exact Hmax].
    + destruct Erent as [->| ->]; [exact Hrent|].
      apply EmotionFacts.scale_if_truthy_nonneg; [discriminate|exact Hrent].
    + destruct Emax as [->| ->]; [exact Hord|].
      apply EmotionFacts.scale_if_truthy_grows; [discriminate|exact Hmax|exact Hord].
  - unfold PropertyMatchingService.size_bounds in Hs.
    destruct (PropertyMatchingService.collect_sizes text) as [|y ys];
      [discriminate|].
    cbv zeta in Hs. destruct (1 <? _)%nat; [discriminate|].
    destruct (Num.float_of_int _); [discriminate|].
    inversion Hs. reflexivity.
Qed.

(** The spec's invariant fails at a zero count: the text [0 people] sets
    [min_size] to 0, which is neither absent nor strictly positive. *)
Lemma zero_people_sets_a_zero_bound :
  exists r,
    PropertyMatchingService._extract_requirements [lit "0 people"] = Return r
    /\ PropertyMatchingService.min_size r = Some 0
    /\ ~ bound_positive (PropertyMatchingService.min_size r).
Proof.
  eexists. split; [vm_compute; reflexivity|].
  split; [reflexivity|].
  intros H. vm_compute in H. discriminate.
Qed.




(** ** People counts *)

Module ScanFacts.

Import PropertyMatchingService.

Lemma flat_map_pairs {A B C : Type} (f : A -> list B) (g : A -> B -> list C)
    (l : list A) :
  flat_map (fun a => flat_map (g a) (f a)) l
  = flat_map (fun ab => g (fst ab) (snd ab))
      (flat_map (fun a => map (fun b => (a, b)) (f a)) l).
Proof.
  induction l as [|a l IH]; [reflexivity|].
  cbn [flat_map]. rewrite flat_map_app, <- IH. f_equal.
  induction (f a) as [|b bs IHb]; [reflexivity|].
  cbn [map flat_map fst snd]. rewrite IHb. reflexivity.
Qed.

(** The size list is the image of the scan's matches. *)
Lemma collect_sizes_of_scan (text_lower : str) :
  collect_sizes text_lower
  = flat_map (fun pm => size_of_match (fst pm) (snd pm)) (size_scan text_lower).
Proof.
  unfold collect_sizes, size_scan, sizes_of_pattern.
  apply (flat_map_pairs (fun p => findall (re p) text_lower) size_of_match).
Qed.

(** One match in the whole scan, from a people-count pattern: the
    three outcomes of extraction. *)
Lemma single_match_outcome (conversation_history : list str) (p : pattern)
    (capture : str) :
  size_scan (conversation_text conversation_history) = [(p, capture)] ->
  is_people_pattern p = true ->
  match Num.int_of_str (Str.remove_commas capture) with
  | Some n =>
      if (n * 125 <? Num.float_overflow)%Z
      then exists r,
             _extract_requirements conversation_history = Return r
             /\ min_size r = Some (inject_Z (n * 125))
             /\ max_size r = Some (inject_Z (n * 125) * (3 # 2))
      else _extract_requirements conversation_history = Raise OverflowError
  | None =>
      exists r,
        _extract_requirements conversation_history = Return r
        /\ min_size r = None /\ max_size r = None
  end.
Proof.
  intros Hscan Hpeople.
  pose proof (ExtractFacts.extract_outcome conversation_history) as Hout.
  cbv zeta in Hout.
  rewrite collect_sizes_of_scan, Hscan in Hout.
  cbn [flat_map fst snd app] in Hout.
  unfold size_of_match in Hout. rewrite Hpeople in Hout.
  destruct (Num.int_of_str (Str.remove_commas capture)) as [n|] eqn:Hint;
    cbn [app] in Hout.
  - apply NumFacts.int_of_str_nonneg in Hint.
    destruct (ExtractFacts.size_bounds_cases [(n * 125)%Z])
      as [[Hlt Hb]|[Hge Hb]]; rewrite Hb in Hout;
      rewrite Z.abs_eq in * by lia.
    + apply Z.ltb_lt in Hlt. rewrite Hlt.
      eexists. split; [exact Hout|]. split; reflexivity.
    + apply Z.ltb_ge in Hge. rewrite Hge. exact Hout.
  - cbn [size_bounds] in Hout. eexists. split; [exact Hout|].
    split; reflexivity.
Qed.

End ScanFacts.

(** ** What the matcher captures *)

Module ReFacts.

Section Soundness.

Variable P : str -> Prop.


Lemma one_inv (p : ascii -> bool) (s : str) (cap : option str) (k : cont)
    (x : outcome) :
  one p s cap k = Some x ->
  exists c s', s = c :: s' /\ p c = true /\ k s' cap = Some x.
Proof.
  unfold one. destruct s as [|c s']; [discriminate|].
  destruct (p c) eqn:Hp; [|discriminate]. intros H. eauto.
Qed.

Lemma or_else_inv (a b : option outcome) (x : outcome) :
  or_else a b = Some x -> a = Some x \/ b = Some x.
Proof. destruct a; simpl; intros H; [left|right]; exact H. Qed.

Lemma sound_one (r : regex) (p : ascii -> bool) :
  sets_group r = false ->
  (forall c, p c = true -> lang r [c]) ->
  sound_for P r (one p).
Proof.
  intros Hg Hl s cap k x H Hcap.
  destruct (one_inv _ _ _ _ _ H) as (c & s' & -> & Hp & Hk).
  exists [c], s', cap. repeat split; auto.
  intros [Hs|Hn]; [congruence|exact Hn].
Qed.

Lemma star_loop_sound (r1 : regex)
    (body : str -> option str -> cont -> option outcome) :
  sound_for P r1 body ->
  forall n s cap k x,
    star_loop body k n s cap = Some x -> capture_in P cap ->
    exists w s' cap',
      s = w ++ s' /\ lang (Star r1) w /\ capture_in P cap'
      /\ (cap <> None -> cap' <> None)
      /\ k s' cap' = Some x.
Proof.
  intros Hbody. induction n as [|n IH]; intros s cap k x H Hcap.
  - exists [], s, cap. repeat split; auto. apply L_star_nil.
  - cbn [star_loop] in H. destruct (or_else_inv _ _ _ H) as [H1|H1].
    + destruct (Hbody _ _ _ _ H1 Hcap) as (w1 & s1 & cap1 & -> & Hl1 & Hc1 & Hn1 & Hk1).
      destruct (length s1 <? length (w1 ++ s1))%nat; [|discriminate].
      destruct (IH _ _ _ _ Hk1 Hc1) as (w2 & s2 & cap2 & -> & Hl2 & Hc2 & Hn2 & Hk2).
      exists (w1 ++ w2), s2, cap2. rewrite app_assoc.
      repeat split; auto. apply L_star_cons; assumption.
    + exists [], s, cap. repeat split; auto. apply L_star_nil.
Qed.

Lemma lazy_loop_sound (r1 : regex)
    (body : str -> option str -> cont -> option outcome) :
  sound_for P r1 body ->
  forall n s cap k x,
    lazy_loop body k n s cap = Some x -> capture_in P cap ->
    exists w s' cap',
      s = w ++ s' /\ lang (Lazy r1) w /\ capture_in P cap'
      /\ (cap <> None -> cap' <> None)
      /\ k s' cap' = Some x.
Proof.
  intros Hbody. induction n as [|n IH]; intros s cap k x H Hcap.
  - exists [], s, cap. repeat split; auto. apply L_lazy_nil.
  - cbn [lazy_loop] in H. destruct (or_else_inv _ _ _ H) as [H1|H1].
    + exists [], s, cap. repeat split; auto. apply L_lazy_nil.
    + destruct (Hbody _ _ _ _ H1 Hcap) as (w1 & s1 & cap1 & -> & Hl1 & Hc1 & Hn1 & Hk1).
      destruct (length s1 <? length (w1 ++ s1))%nat; [|discriminate].
      destruct (IH _ _ _ _ Hk1 Hc1) as (w2 & s2 & cap2 & -> & Hl2 & Hc2 & Hn2 & Hk2).
      exists (w1 ++ w2), s2, cap2. rewrite app_assoc.
      repeat split; auto. apply L_lazy_cons; assumption.
Qed.

Lemma firstn_consumed (w s' : str) :
  firstn (length (w ++ s') - length s') (w ++ s') = w.
Proof.
  rewrite length_app, Nat.add_sub, firstn_app, Nat.sub_diag, firstn_all.
  cbn [firstn]. apply app_nil_r.
Qed.

(** Soundness of the matcher with respect to the language, with the
    invariant on captures. *)
Lemma m_sound (r : regex) : captures_in P r -> sound_for P r (m r).
Proof.
  induction r as [|c| | | |r1 IH1 r2 IH2|r1 IH1 r2 IH2|r1 IH1|r1 IH1|r1 IH1|r1 IH1];
    intros Hcaps.
  - intros s cap k x H Hcap. exists [], s, cap. repeat split; auto.
    + apply L_eps.
    + intros [Hs|Hn]; [discriminate|exact Hn].
  - apply sound_one; [reflexivity|]. intros a Ha.
    apply Ascii.eqb_eq in Ha. subst a. apply L_chr.
  - apply sound_one; [reflexivity|]. intros a Ha. apply L_digit; exact Ha.
  - apply sound_one; [reflexivity|]. intros a Ha. apply L_space; exact Ha.
  - apply sound_one; [reflexivity|]. intros a Ha. apply L_any; exact Ha.
  - destruct Hcaps as [Hc1 Hc2]. intros s cap k x H Hcap. cbn [m] in H.
    destruct (IH1 Hc1 _ _ _ _ H Hcap) as (w1 & s1 & cap1 & -> & Hl1 & Hk1 & Hn1 & H1).
    destruct (IH2 Hc2 _ _ _ _ H1 Hk1) as (w2 & s2 & cap2 & -> & Hl2 & Hk2 & Hn2 & H2).
    exists (w1 ++ w2), s2, cap2. rewrite app_assoc. repeat split; auto.
    + apply L_seq; assumption.
    + cbn [sets_group]. intros [Hs|Hn].
      * apply orb_true_iff in Hs. destruct Hs as [Hs|Hs]; auto.
      * auto.
  - destruct Hcaps as [Hc1 Hc2]. intros s cap k x H Hcap. cbn [m] in H.
    destruct (or_else_inv _ _ _ H) as [H1|H1].
    + destruct (IH1 Hc1 _ _ _ _ H1 Hcap) as (w & s' & cap' & -> & Hl & Hk & Hn & H').
      exists w, s', cap'. repeat split; auto.
      * apply L_alt_l; exact Hl.
      * cbn [sets_group]. intros [Hs|Hn'];
          [apply andb_true_iff in Hs; destruct Hs|]; auto.
    + destruct (IH2 Hc2 _ _ _ _ H1 Hcap) as (w & s' & cap' & -> & Hl & Hk & Hn & H').
      exists w, s', cap'. repeat split; auto.
      * apply L_alt_r; exact Hl.
      * cbn [sets_group]. intros [Hs|Hn'];
          [apply andb_true_iff in Hs; destruct Hs|]; auto.
  - intros s cap k x H Hcap. cbn [m] in H.
    destruct (or_else_inv _ _ _ H) as [H1|H1].
    + destruct (IH1 Hcaps _ _ _ _ H1 Hcap) as (w & s' & cap' & -> & Hl & Hk & Hn & H').
      exists w, s', cap'. repeat split; auto.
      * apply L_opt_some; exact Hl.
      * cbn [sets_group]. intros [Hs|Hn']; [discriminate|auto].
    + exists [], s, cap. repeat split; auto.
      * apply L_opt_none.
      * intros [Hs|Hn]; [discriminate|exact Hn].
  - intros s cap k x H Hcap. cbn [m] in H.
    destruct (star_loop_sound r1 (m r1) (IH1 Hcaps) _ _ _ _ _ H Hcap)
      as (w & s' & cap' & -> & Hl & Hk & Hn & H').
    exists w, s', cap'. repeat split; auto.
    intros [Hs|Hn']; [discriminate|auto].
  - intros s cap k x H Hcap. cbn [m] in H.
    destruct (lazy_loop_sound r1 (m r1) (IH1 Hcaps) _ _ _ _ _ H Hcap)
      as (w & s' & cap' & -> & Hl & Hk & Hn & H').
    exists w, s', cap'. repeat split; auto.
    intros [Hs|Hn']; [discriminate|auto].
  - destruct Hcaps as [HP Hc1]. intros s cap k x H Hcap. cbn [m] in H.
    destruct (IH1 Hc1 _ _ _ _ H Hcap) as (w & s' & cap' & -> & Hl & Hk & Hn & H').
    rewrite firstn_consumed in H'.
    exists w, s', (Some w). repeat split; auto.
    + apply L_grp; exact Hl.
    + intros c Hc. inversion Hc; subst. apply HP; exact Hl.
    + intros _. discriminate.
Qed.

(** A successful anchored match of a pattern that always goes through
    its group leaves a capture in [P]. *)
Lemma match_here_capture (r : regex) (s : str) (cap : option str) (rest : str) :
  captures_in P r -> sets_group r = true ->
  match_here r s = Some (cap, rest) -> P (group cap).
Proof.
  intros Hc Hs H. unfold match_here in H.
  assert (Hnone : capture_in P None) by (intros c Hx; discriminate).
  destruct (m_sound r Hc _ _ _ _ H Hnone) as (w & s' & cap' & _ & _ & Hk & Hn & H').
  inversion H'; subst. destruct cap as [c|].
  - apply Hk. reflexivity.
  - exfalso. apply Hn; auto.
Qed.

Lemma search_capture (r : regex) (s : str) (g : str) :
  captures_in P r -> sets_group r = true ->
  search r s = Some g -> P g.
Proof.
  intros Hc Hs. induction s as [|a s IH]; cbn [search].
  - destruct (match_here r []) as [[cap rest]|] eqn:Hm; [|discriminate].
    intros H. inversion H; subst. eapply match_here_capture; eauto.
  - destruct (match_here r (a :: s)) as [[cap rest]|] eqn:Hm; [|exact IH].
    intros H. inversion H; subst. eapply match_here_capture; eauto.
Qed.

Lemma findall_from_capture (r : regex) :
  captures_in P r -> sets_group r = true ->
  forall fuel s, Forall P (findall_from fuel r s).
Proof.
  intros Hc Hs. induction fuel as [|fuel IH]; intros s; cbn [findall_from];
    [constructor|].
  destruct (match_here r s) as [[cap rest]|] eqn:Hm.
  - pose proof (match_here_capture r s cap rest Hc Hs Hm) as HP.
    destruct (length rest <? length s)%nat.
    + constructor; [exact HP|apply IH].
    + constructor; [exact HP|]. destruct s; [constructor|apply IH].
  - destruct s; [constructor|apply IH].
Qed.

Lemma findall_capture (r : regex) (s : str) :
  captures_in P r -> sets_group r = true -> Forall P (findall r s).
Proof. intros Hc Hs. apply findall_from_capture; assumption. Qed.

End Soundness.

End ReFacts.

(** ** The captured numbers are always readable *)

Module CaptureFacts.

Lemma lang_star_forallb (r : regex) (Q : ascii -> bool) :
  (forall w, lang r w -> forallb Q w = true) ->
  forall w, lang (Star r) w -> forallb Q w = true.
Proof.
  intros Hr w H. remember (Star r) as sr eqn:E.
  induction H; try discriminate; [reflexivity|].
  inversion E; subst. rewrite forallb_app, (Hr _ H), IHlang2; reflexivity.
Qed.

Lemma lang_digit (w : str) :
  lang Digit w -> exists c, w = [c] /\ Str.is_digit c = true.
Proof. intros H. inversion H; subst. eauto. Qed.

Lemma lang_chr (c : ascii) (w : str) : lang (Chr c) w -> w = [c].
Proof. intros H. inversion H; subst. reflexivity. Qed.

Lemma lang_seq (r1 r2 : regex) (w : str) :
  lang (Seq r1 r2) w -> exists w1 w2, w = w1 ++ w2 /\ lang r1 w1 /\ lang r2 w2.
Proof. intros H. inversion H; subst. eauto. Qed.

Lemma lang_opt (r : regex) (w : str) : lang (Opt r) w -> w = [] \/ lang r w.
Proof. intros H. inversion H; subst; auto. Qed.

(** [\d+] *)
Lemma lang_plus_digit (w : str) : lang (plus Digit) w -> digit_run w.
Proof.
  intros H. apply lang_seq in H. destruct H as (w1 & w2 & -> & H1 & H2).
  apply lang_digit in H1. destruct H1 as (c & -> & Hc).
  split; [discriminate|]. cbn [app forallb]. rewrite Hc.
  apply (lang_star_forallb Digit Str.is_digit); [|exact H2].
  intros w Hw. apply lang_digit in Hw. destruct Hw as (d & -> & Hd).
  cbn. rewrite Hd. reflexivity.
Qed.

Lemma is_digit_digit_or_comma (c : ascii) :
  Str.is_digit c = true -> digit_or_comma c = true.
Proof. intros H. unfold digit_or_comma. rewrite H. reflexivity. Qed.

(** [\d{1,3}(?:,\d{3})*] *)
Lemma lang_grouped_number (w : str) :
  lang grouped_number w ->
  exists d w', w = d :: w' /\ Str.is_digit d = true
               /\ forallb digit_or_comma w' = true.
Proof.
  intros H. apply lang_seq in H. destruct H as (w1 & w2 & -> & H1 & H2).
  apply lang_seq in H1. destruct H1 as (a & b & -> & Ha & Hb).
  apply lang_digit in Ha. destruct Ha as (d & -> & Hd).
  exists d, (b ++ w2). split; [reflexivity|]. split; [exact Hd|].
  rewrite forallb_app. apply andb_true_iff. split.
  - apply lang_opt in Hb. destruct Hb as [->|Hb]; [reflexivity|].
    apply lang_seq in Hb. destruct Hb as (b1 & b2 & -> & Hb1 & Hb2).
    apply lang_digit in Hb1. destruct Hb1 as (d1 & -> & Hd1).
    cbn [app forallb]. rewrite (is_digit_digit_or_comma _ Hd1).
    apply lang_opt in Hb2. destruct Hb2 as [->|Hb2]; [reflexivity|].
    apply lang_digit in Hb2. destruct Hb2 as (d2 & -> & Hd2).
    cbn [forallb]. rewrite (is_digit_digit_or_comma _ Hd2). reflexivity.
  - apply (lang_star_forallb (Seq (Chr ","%char) (rep_3 Digit)) digit_or_comma);
      [|exact H2].
    intros u Hu. apply lang_seq in Hu. destruct Hu as (u1 & u2 & -> & Hu1 & Hu2).
    apply lang_chr in Hu1. subst u1.
    apply lang_seq in Hu2. destruct Hu2 as (x1 & x23 & -> & Hx1 & Hx23).
    apply lang_seq in Hx23. destruct Hx23 as (x2 & x3 & -> & Hx2 & Hx3).
    apply lang_digit in Hx1. destruct Hx1 as (d1 & -> & Hd1).
    apply lang_digit in Hx2. destruct Hx2 as (d2 & -> & Hd2).
    apply lang_digit in Hx3. destruct Hx3 as (d3 & -> & Hd3).
    cbn [app forallb].
    rewrite (is_digit_digit_or_comma _ Hd1), (is_digit_digit_or_comma _ Hd2),
      (is_digit_digit_or_comma _ Hd3).
    reflexivity.
Qed.

Lemma digit_not_comma (c : ascii) :
  Str.is_digit c = true -> Str.eqb c ","%char = false.
Proof.
  intros H. destruct (Str.eqb c ","%char) eqn:E; [|reflexivity].
  apply Ascii.eqb_eq in E. subst c. discriminate.
Qed.

Lemma digit_not_dot (c : ascii) :
  Str.is_digit c = true -> Str.eqb c "."%char = false.
Proof.
  intros H. destruct (Str.eqb c "."%char) eqn:E; [|reflexivity].
  apply Ascii.eqb_eq in E. subst c. discriminate.
Qed.

Lemma remove_commas_digits (w : str) :
  forallb Str.is_digit w = true -> Str.remove_commas w = w.
Proof.
  unfold Str.remove_commas. induction w as [|c w IH]; [reflexivity|].
  cbn [forallb filter]. intros H. apply andb_true_iff in H. destruct H as [Hc Hw].
  rewrite (digit_not_comma _ Hc). cbn [negb]. rewrite (IH Hw). reflexivity.
Qed.

Lemma remove_commas_leaves_digits (w : str) :
  forallb digit_or_comma w = true ->
  forallb Str.is_digit (Str.remove_commas w) = true.
Proof.
  unfold Str.remove_commas. induction w as [|c w IH]; [reflexivity|].
  cbn [forallb filter]. intros H. apply andb_true_iff in H. destruct H as [Hc Hw].
  destruct (Str.eqb c ","%char) eqn:E; cbn [negb]; [exact (IH Hw)|].
  cbn [forallb]. rewrite (IH Hw). unfold digit_or_comma in Hc. rewrite E in Hc.
  rewrite orb_false_r in Hc. rewrite Hc. reflexivity.
Qed.

Lemma split_dot_digits (w : str) :
  forallb Str.is_digit w = true -> Num.split_dot w = (w, None).
Proof.
  induction w as [|c w IH]; [reflexivity|].
  cbn [forallb Num.split_dot]. intros H. apply andb_true_iff in H.
  destruct H as [Hc Hw]. rewrite (digit_not_dot _ Hc), (IH Hw). reflexivity.
Qed.

Lemma split_dot_app (ds fs : str) :
  forallb Str.is_digit ds = true ->
  Num.split_dot (ds ++ "."%char :: fs) = (ds, Some fs).
Proof.
  induction ds as [|c ds IH]; [reflexivity|].
  cbn [forallb Num.split_dot app]. intros H. apply andb_true_iff in H.
  destruct H as [Hc Hw]. rewrite (digit_not_dot _ Hc), (IH Hw). reflexivity.
Qed.

Lemma digit_run_val_some (w : str) :
  digit_run w -> Num.digit_run_val w = Some (Num.digits_val w).
Proof. intros [Hne Hd]. apply NumFacts.digit_run_val_digits; assumption. Qed.

(** [int] reads a run of digits when it is within the limit and raises
    otherwise. *)
Lemma digit_run_int (w : str) :
  digit_run w ->
  Num.int_of_str w
  = if (Z.of_nat (length w) <=? Num.int_max_str_digits)%Z
    then Some (Num.digits_val w) else None.
Proof. intros [Hne Hd]. apply NumFacts.int_of_str_digits; assumption. Qed.

(** [float] reads every run of digits. *)
Lemma digit_run_float (w : str) :
  digit_run w -> Num.float_of_str w = Some (inject_Z (Num.digits_val w)).
Proof.
  intros Hw. pose proof (digit_run_val_some w Hw) as Hn. destruct Hw as [_ Hd].
  unfold Num.float_of_str. rewrite (split_dot_digits _ Hd), Hn. reflexivity.
Qed.

Lemma grouped_digit_run (w : str) :
  lang grouped_number w -> digit_run (Str.remove_commas w).
Proof.
  intros H. destruct (lang_grouped_number w H) as (d & w' & -> & Hd & Hw').
  unfold Str.remove_commas. cbn [filter]. rewrite (digit_not_comma _ Hd).
  cbn [negb]. split; [discriminate|]. cbn [forallb]. rewrite Hd.
  apply remove_commas_leaves_digits. exact Hw'.
Qed.

Lemma grouped_float_readable (w : str) : lang grouped_number w -> float_readable w.
Proof.
  intros H. unfold float_readable. eexists.
  apply digit_run_float. apply grouped_digit_run. exact H.
Qed.

(** [\d+(?:\.\d{2})?] *)
Lemma decimal_float_readable (w : str) : lang decimal_number w -> float_readable w.
Proof.
  intros H. apply lang_seq in H. destruct H as (ds & fr & -> & Hds & Hfr).
  apply lang_plus_digit in Hds. apply lang_opt in Hfr.
  destruct Hfr as [->|Hfr].
  - rewrite app_nil_r. unfold float_readable.
    rewrite (remove_commas_digits ds (proj2 Hds)). eexists.
    apply digit_run_float; exact Hds.
  - apply lang_seq in Hfr. destruct Hfr as (dot & fs & -> & Hdot & Hfs).
    apply lang_chr in Hdot. subst dot.
    apply lang_seq in Hfs. destruct Hfs as (f1 & f2 & -> & Hf1 & Hf2).
    apply lang_digit in Hf1. destruct Hf1 as (d1 & -> & Hd1).
    apply lang_digit in Hf2. destruct Hf2 as (d2 & -> & Hd2).
    cbn [app]. unfold float_readable.
    assert (Hrm : Str.remove_commas (ds ++ "."%char :: [d1; d2])
                  = ds ++ "."%char :: [d1; d2]).
    { unfold Str.remove_commas. rewrite filter_app. cbn [filter].
      fold (Str.remove_commas ds). rewrite (remove_commas_digits ds (proj2 Hds)).
      rewrite (digit_not_comma _ Hd1), (digit_not_comma _ Hd2). reflexivity. }
    rewrite Hrm. unfold Num.float_of_str.
    rewrite (split_dot_app ds [d1; d2] (proj2 Hds)).
    rewrite (digit_run_val_some ds Hds).
    assert (Hfs : digit_run [d1; d2]).
    { split; [discriminate|]. cbn [forallb]. rewrite Hd1, Hd2. reflexivity. }
    rewrite (digit_run_val_some _ Hfs). eauto.
Qed.

End CaptureFacts.

(** ** Budget detection *)

Module BudgetFacts.

Import PropertyMatchingService.

Lemma budget_captures_readable (p : pattern) (text_lower : str) :
  In p budget_patterns ->
  Forall float_readable (findall (re p) text_lower).
Proof.
  intros Hin. apply ReFacts.findall_capture.
  - destruct Hin as [<-|[<-|[<-|[]]]]; cbn; repeat split;
      auto using CaptureFacts.decimal_float_readable,
                 CaptureFacts.grouped_float_readable.
  - destruct Hin as [<-|[<-|[<-|[]]]]; reflexivity.
Qed.

Lemma first_capture_readable (p : pattern) (text_lower : str) (c : str)
    (rest : list str) :
  In p budget_patterns ->
  findall (re p) text_lower = c :: rest ->
  exists b, Num.float_of_str (Str.remove_commas c) = Some b.
Proof.
  intros Hin Hf. pose proof (budget_captures_readable p text_lower Hin) as H.
  rewrite Hf in H. inversion H; subst. assumption.
Qed.

End BudgetFacts.

(** C5.  Budget detection tries the three pattern families in a fixed
    order: the per-square-foot amount, then the monthly amount
    (converted as [monthly * 12 / 2000]), then the generic budget
    mention.  The first family with a match decides: the figure kept is
    read from that family's first match, and every other mention is
    ignored.  Without any match no budget is set.  This holds of every
    profile extraction returns. *)
Theorem budget_detection_priority :
  forall (conversation_history : list str)
         (r : PropertyMatchingService.requirements),
    PropertyMatchingService._extract_requirements conversation_history
      = Return r ->
    let text := conversation_text conversation_history in
    let budget := PropertyMatchingService.max_rent_per_sf r in
    let per_sq_ft := findall (re PropertyMatchingService.per_sq_ft_budget) text in
    let monthly := findall (re PropertyMatchingService.monthly_budget) text in
    let generic := findall (re PropertyMatchingService.generic_budget) text in
    (forall c rest, per_sq_ft = c :: rest ->
       exists b, Num.float_of_str (Str.remove_commas c) = Some b
                 /\ budget = Some b)
    /\ (per_sq_ft = [] -> forall c rest, monthly = c :: rest ->
          exists b, Num.float_of_str (Str.remove_commas c) = Some b
                    /\ budget = Some (b * 12 / 2000))
    /\ (per_sq_ft = [] -> monthly = [] -> forall c rest, generic = c :: rest ->
          exists b, Num.float_of_str (Str.remove_commas c) = Some b
                    /\ budget = Some b)
    /\ (per_sq_ft = [] -> monthly = [] -> generic = [] -> budget = None).
Proof.
  intros history r Hr text budget per_sq_ft monthly generic.
  destruct (ExtractFacts.extract_fields history r Hr) as (_ & Erent & _).
  cbv zeta in Erent. fold text in Erent. fold budget in Erent.
  unfold PropertyMatchingService.budget_patterns in Erent.
  cbn [PropertyMatchingService.detect_budget] in Erent.
  fold per_sq_ft monthly generic in Erent.
  repeat split.
  - intros c rest Hc.
    destruct (BudgetFacts.first_capture_readable
                PropertyMatchingService.per_sq_ft_budget text c rest) as [b Hb];
      [left; reflexivity|exact Hc|].
    exists b. split; [exact Hb|]. rewrite Erent, Hc, Hb. reflexivity.
  - intros H1 c rest Hc.
    destruct (BudgetFacts.first_capture_readable
                PropertyMatchingService.monthly_budget text c rest) as [b Hb];
      [right; left; reflexivity|exact Hc|].
    exists b. split; [exact Hb|]. rewrite Erent, H1, Hc, Hb. reflexivity.
  - intros H1 H2 c rest Hc.
    destruct (BudgetFacts.first_capture_readable
                PropertyMatchingService.generic_budget text c rest) as [b Hb];
      [right; right; left; reflexivity|exact Hc|].
    exists b. split; [exact Hb|]. rewrite Erent, H1, H2, Hc, Hb. reflexivity.
  - intros H1 H2 H3. rewrite Erent, H1, H2, H3. reflexivity.
Qed.

Lemma budget_detection_priority_witness :
  (findall (re PropertyMatchingService.per_sq_ft_budget)
     (conversation_text [lit "Our budget is $4,000 per month, or $30 per sq ft"])
   = [lit "30"]
   /\ exists r b,
        PropertyMatchingService._extract_requirements
          [lit "Our budget is $4,000 per month, or $30 per sq ft"] = Return r
        /\ Num.float_of_str (Str.remove_commas (lit "30")) = Some b
        /\ PropertyMatchingService.max_rent_per_sf r = Some b)
  /\ (findall (re PropertyMatchingService.monthly_budget)
        (conversation_text [lit "Budget $9,000, we pay $4,000 per month"])
      = [lit "4,000"]
      /\ exists r b,
           PropertyMatchingService._extract_requirements
             [lit "Budget $9,000, we pay $4,000 per month"] = Return r
           /\ Num.float_of_str (Str.remove_commas (lit "4,000")) = Some b
           /\ PropertyMatchingService.max_rent_per_sf r = Some (b * 12 / 2000)).
Proof.
  split.
  - split; [vm_compute; reflexivity|].
    destruct (PropertyMatchingService._extract_requirements
                [lit "Our budget is $4,000 per month, or $30 per sq ft"])
      as [r|e] eqn:E; [|vm_compute in E; discriminate].
    destruct (proj1 (budget_detection_priority _ r E) (lit "30") [])
      as (b & Hb & Hr); [vm_compute; reflexivity|].
    exists r, b. split; [reflexivity|]. split; assumption.
  - split; [vm_compute; reflexivity|].
    destruct (PropertyMatchingService._extract_requirements
                [lit "Budget $9,000, we pay $4,000 per month"])
      as [r|e] eqn:E; [|vm_compute in E; discriminate].
    destruct (proj1 (proj2 (budget_detection_priority _ r E))
                eq_refl (lit "4,000") [])
      as (b & Hb & Hr); [vm_compute; reflexivity|].
    exists r, b. split; [reflexivity|]. split; assumption.
Defined.

(** ** The matcher's filters *)

Module MatchFacts.

Import PropertyMatchingService.

Lemma filter_and {A : Type} (f g : A -> bool) (l : list A) :
  filter g (filter f l) = filter (fun x => f x && g x) l.
Proof.
  induction l as [|a l IH]; [reflexivity|]. cbn [filter].
  destruct (f a); cbn [filter andb]; rewrite IH; reflexivity.
Qed.

Lemma filter_if_truthy_test (bound : option Q) (keep : Q -> property -> bool)
    (df : list property) :
  filter_if_truthy bound keep df = filter (bound_test bound keep) df.
Proof.
  assert (Htrue : filter (fun _ : property => true) df = df).
  { induction df as [|a df IH]; [reflexivity|]. cbn [filter]. rewrite IH.
    reflexivity. }
  unfold filter_if_truthy, bound_test. destruct bound as [b|].
  - destruct (Num.truthy (Some b)); [reflexivity|]. symmetry. exact Htrue.
  - symmetry. exact Htrue.
Qed.

Lemma filter_locations_test (locations : list str) (df : list property) :
  filter_locations locations df = filter (location_test locations) df.
Proof.
  unfold filter_locations, location_test. destruct locations; [|reflexivity].
  induction df as [|a df IH]; [reflexivity|]. cbn [filter]. rewrite <- IH.
  reflexivity.
Qed.

(** The filters amount to one pass keeping the rows that pass every
    test; in particular the survivors keep the order of the table. *)
Lemma filtered_passes (req : requirements) (df : list property) :
  filtered req df = filter (passes req) df.
Proof.
  unfold filtered. cbv zeta.
  rewrite filter_locations_test, !filter_if_truthy_test, !filter_and.
  apply filter_ext. intros p. unfold passes. rewrite !andb_assoc. reflexivity.
Qed.

Lemma In_head3 {A : Type} (x : A) (l : list A) : In x (head3 l) -> In x l.
Proof.
  unfold head3. intros H. rewrite <- (firstn_skipn 3 l).
  apply in_or_app. left. exact H.
Qed.

Lemma truthy_nonzero (b : Q) : ~ b == 0 -> Num.truthy (Some b) = true.
Proof.
  intros H. unfold Num.truthy. destruct (Qeq_bool b 0) eqn:E; [|reflexivity].
  apply Qeq_bool_iff in E. contradiction.
Qed.

Lemma bound_test_weaken (b1 b2 : option Q) (keep : Q -> property -> bool)
    (p : property) :
  b1 = None \/ b1 = b2 ->
  bound_test b2 keep p = true -> bound_test b1 keep p = true.
Proof. intros [->| ->] H; [reflexivity|exact H]. Qed.

Lemma location_test_weaken (l1 l2 : list str) (p : property) :
  l1 = [] \/ l1 = l2 ->
  location_test l2 p = true -> location_test l1 p = true.
Proof. intros [->| ->] H; [reflexivity|exact H]. Qed.

Lemma passes_weaken (req1 req2 : requirements) (p : property) :
  adds_bounds req1 req2 -> passes req2 p = true -> passes req1 p = true.
Proof.
  intros (Hmin & Hmax & Hrent & Hloc). unfold passes. intros H.
  apply andb_true_iff in H. destruct H as [H Hl].
  apply andb_true_iff in H. destruct H as [H Hr].
  apply andb_true_iff in H. destruct H as [Hn Hx].
  rewrite (bound_test_weaken _ _ _ _ Hmin Hn), (bound_test_weaken _ _ _ _ Hmax Hx),
    (bound_test_weaken _ _ _ _ Hrent Hr), (location_test_weaken _ _ _ Hloc Hl).
  reflexivity.
Qed.

Lemma filter_length_le {A : Type} (f g : A -> bool) (l : list A) :
  (forall x, g x = true -> f x = true) ->
  (length (filter g l) <= length (filter f l))%nat.
Proof.
  intros Hfg. induction l as [|a l IH]; [apply Nat.le_refl|]. cbn [filter].
  destruct (g a) eqn:Hg.
  - rewrite (Hfg a Hg). cbn [length]. lia.
  - destruct (f a); cbn [length]; lia.
Qed.

End MatchFacts.

(** ** Ranking *)

Module RankFacts.

Import PropertyMatchingService.

Lemma insert_before_equals_perm (x : row) (l : list row) :
  Permutation (Sorts.insert_before_equals x l) (x :: l).
Proof.
  induction l as [|y l IH]; cbn [Sorts.insert_before_equals];
    [apply Permutation_refl|].
  destruct (score_of x <? score_of y)%Z; [|apply Permutation_refl].
  apply perm_trans with (y :: x :: l); [|apply perm_swap].
  apply perm_skip. exact IH.
Qed.

Lemma insert_after_equals_perm (x : row) (l : list row) :
  Permutation (Sorts.insert_after_equals x l) (x :: l).
Proof.
  induction l as [|y l IH]; cbn [Sorts.insert_after_equals];
    [apply Permutation_refl|].
  destruct (score_of x <=? score_of y)%Z; [|apply Permutation_refl].
  apply perm_trans with (y :: x :: l); [|apply perm_swap].
  apply perm_skip. exact IH.
Qed.

Lemma insert_before_equals_sorted (x : row) (l : list row) :
  StronglySorted score_desc l ->
  StronglySorted score_desc (Sorts.insert_before_equals x l).
Proof.
  induction l as [|y l IH]; cbn [Sorts.insert_before_equals]; intros Hs.
  - constructor; constructor.
  - destruct (score_of x <? score_of y)%Z eqn:E.
    + apply Z.ltb_lt in E. inversion Hs as [|? ? Hs' Hall]; subst.
      constructor; [apply IH; exact Hs'|].
      apply (Permutation_Forall (Permutation_sym (insert_before_equals_perm x l))).
      constructor; [unfold score_desc; lia|exact Hall].
    + apply Z.ltb_ge in E. constructor; [exact Hs|].
      inversion Hs as [|? ? Hs' Hall]; subst.
      constructor; [exact E|].
      eapply Forall_impl; [|exact Hall].
      intros a Ha. unfold score_desc in *. lia.
Qed.

Lemma insert_after_equals_sorted (x : row) (l : list row) :
  StronglySorted score_desc l ->
  StronglySorted score_desc (Sorts.insert_after_equals x l).
Proof.
  induction l as [|y l IH]; cbn [Sorts.insert_after_equals]; intros Hs.
  - constructor; constructor.
  - destruct (score_of x <=? score_of y)%Z eqn:E.
    + apply Z.leb_le in E. inversion Hs as [|? ? Hs' Hall]; subst.
      constructor; [apply IH; exact Hs'|].
      apply (Permutation_Forall (Permutation_sym (insert_after_equals_perm x l))).
      constructor; [unfold score_desc; lia|exact Hall].
    + apply Z.leb_gt in E. constructor; [exact Hs|].
      inversion Hs as [|? ? Hs' Hall]; subst.
      constructor; [unfold score_desc; lia|].
      eapply Forall_impl; [|exact Hall].
      intros a Ha. unfold score_desc in *. lia.
Qed.

(** Both routines do what is known of [sort_values]. *)
Lemma sort_keeping_ties_sorts : sorts_by_score_desc Sorts.sort_keeping_ties.
Proof.
  intros l. induction l as [|x l [IHp IHs]]; cbn [Sorts.sort_keeping_ties].
  - split; [apply perm_nil|constructor].
  - split.
    + apply perm_trans with (x :: Sorts.sort_keeping_ties l);
        [apply insert_before_equals_perm|apply perm_skip; exact IHp].
    + apply insert_before_equals_sorted. exact IHs.
Qed.

Lemma sort_reversing_ties_sorts : sorts_by_score_desc Sorts.sort_reversing_ties.
Proof.
  intros l. induction l as [|x l [IHp IHs]]; cbn [Sorts.sort_reversing_ties].
  - split; [apply perm_nil|constructor].
  - split.
    + apply perm_trans with (x :: Sorts.sort_reversing_ties l);
        [apply insert_after_equals_perm|apply perm_skip; exact IHp].
    + apply insert_after_equals_sorted. exact IHs.
Qed.

Lemma with_scores_rec (keywords : list str) (df : list property) :
  map rec (with_scores keywords df) = df.
Proof.
  unfold with_scores. rewrite map_map. cbn [rec]. apply map_id.
Qed.

Lemma with_scores_unscored_sorted (df : list property) :
  StronglySorted score_desc (with_scores [] df).
Proof.
  induction df as [|p df IH]; cbn; [constructor|].
  constructor; [exact IH|].
  apply Forall_forall. intros r Hr. unfold with_scores in Hr.
  apply in_map_iff in Hr. destruct Hr as (q & <- & _).
  unfold score_desc. cbn. lia.
Qed.

Section Ranking.

Variable sort_values : list row -> list row.
Hypothesis sort_values_sorts : sorts_by_score_desc sort_values.

(** The ranking step rearranges the scored survivors in non-increasing
    order of score. *)
Lemma ranked_spec (keywords : list str) (df : list property) :
  Permutation (ranked sort_values keywords df) (with_scores keywords df)
  /\ StronglySorted score_desc (ranked sort_values keywords df).
Proof.
  unfold ranked. destruct keywords as [|kw kws].
  - split; [apply Permutation_refl|]. apply with_scores_unscored_sorted.
  - apply sort_values_sorts.
Qed.

Lemma ranked_nil (keywords : list str) : ranked sort_values keywords [] = [].
Proof.
  destruct (ranked_spec keywords []) as [Hp _].
  apply Permutation_sym in Hp. cbn in Hp. apply Permutation_nil in Hp.
  exact Hp.
Qed.

Lemma find_matching_head3 (req : requirements) (df : list property) :
  _find_matching_properties sort_values (Some df) req
  = head3 (ranked sort_values (culture_keywords req) (filtered req df)).
Proof.
  unfold _find_matching_properties. destruct df as [|p df]; [|reflexivity].
  assert (Hf : filtered req [] = []).
  { unfold filtered, filter_if_truthy, filter_locations. cbn.
    destruct (min_size req) as [a|]; [destruct (Num.truthy (Some a))|];
      (destruct (max_size req) as [b|]; [destruct (Num.truthy (Some b))|]);
      (destruct (max_rent_per_sf req) as [c|]; [destruct (Num.truthy (Some c))|]);
      destruct (preferred_locations req); reflexivity. }
  rewrite Hf, ranked_nil. reflexivity.
Qed.

(** Every row returned by the matcher is a survivor of the filters. *)
Lemma output_row_passes (req : requirements) (df : list property) (r : row) :
  In r (_find_matching_properties sort_values (Some df) req) ->
  In (rec r) df /\ passes req (rec r) = true.
Proof.
  rewrite find_matching_head3. intros H. apply MatchFacts.In_head3 in H.
  destruct (ranked_spec (culture_keywords req) (filtered req df)) as (Hp & _).
  apply (Permutation_in _ Hp) in H.
  apply (in_map rec) in H. rewrite with_scores_rec in H.
  rewrite MatchFacts.filtered_passes in H. apply filter_In in H. exact H.
Qed.

End Ranking.

End RankFacts.

(** ** Duplicate removal in [find_matching_properties] *)

Module DedupFacts.

Import FinalWebApp.

Lemma id_eqb_eq (a b : str) : id_eqb a b = true <-> a = b.
Proof.
  unfold id_eqb. destruct (list_eq_dec ascii_dec a b); split; intros H;
    congruence.
Qed.

Lemma seen_iff (x : str) (seen_ids : list str) :
  existsb (id_eqb x) seen_ids = true <-> In x seen_ids.
Proof.
  rewrite existsb_exists. split.
  - intros (y & Hy & E). apply id_eqb_eq in E. subst y. exact Hy.
  - intros H. exists x. split; [exact H|]. apply id_eqb_eq. reflexivity.
Qed.

Lemma seen_false (x : str) (seen_ids : list str) :
  existsb (id_eqb x) seen_ids = false -> ~ In x seen_ids.
Proof.
  intros H Hin. apply seen_iff in Hin. congruence.
Qed.

(** The rows kept come from [matches] and their identifiers were not
    seen before. *)
Lemma unique_from_fresh (matches : list property) :
  forall seen_ids p,
    In p (unique_from seen_ids matches) ->
    In p matches /\ ~ In (unique_id p) seen_ids.
Proof.
  induction matches as [|mt rest IH]; intros seen p; cbn [unique_from];
    [intros []|].
  destruct (existsb (id_eqb (unique_id mt)) seen) eqn:E.
  - intros H. destruct (IH _ _ H) as [Hin Hns]. split; [right|]; assumption.
  - intros [<-|H].
    + split; [left; reflexivity|apply seen_false; exact E].
    + destruct (IH _ _ H) as [Hin Hns]. split; [right; exact Hin|].
      intros Hs. apply Hns. right. exact Hs.
Qed.

Lemma unique_from_NoDup (matches : list property) :
  forall seen_ids, NoDup (map unique_id (unique_from seen_ids matches)).
Proof.
  induction matches as [|mt rest IH]; intros seen; cbn [unique_from];
    [constructor|].
  destruct (existsb (id_eqb (unique_id mt)) seen); [apply IH|].
  cbn [map]. constructor; [|apply IH].
  intros Hin. apply in_map_iff in Hin. destruct Hin as (q & Eq & Hq).
  destruct (unique_from_fresh _ _ _ Hq) as [_ Hns]. apply Hns.
  left. symmetry. exact Eq.
Qed.

(** Every row kept is the first of its identifier. *)
Lemma unique_from_first (matches : list property) :
  forall seen_ids p,
    In p (unique_from seen_ids matches) -> first_occurrence p matches.
Proof.
  induction matches as [|mt rest IH]; intros seen p; cbn [unique_from];
    [intros []|].
  destruct (existsb (id_eqb (unique_id mt)) seen) eqn:E.
  - intros H. destruct (unique_from_fresh _ _ _ H) as [_ Hns].
    destruct (IH _ _ H) as (l1 & l2 & -> & Hl1).
    exists (mt :: l1), l2. split; [reflexivity|]. cbn [map].
    intros [Eq|Hin]; [|exact (Hl1 Hin)].
    apply Hns. rewrite <- Eq. apply seen_iff. exact E.
  - intros [<-|H].
    + exists [], rest. split; [reflexivity|]. intros [].
    + destruct (unique_from_fresh _ _ _ H) as [_ Hns].
      destruct (IH _ _ H) as (l1 & l2 & -> & Hl1).
      exists (mt :: l1), l2. split; [reflexivity|]. cbn [map].
      intros [Eq|Hin]; [|exact (Hl1 Hin)].
      apply Hns. left. exact Eq.
Qed.

(** No identifier is lost. *)
Lemma unique_from_complete (matches : list property) :
  forall seen_ids p,
    In p matches ->
    In (unique_id p) seen_ids
    \/ In (unique_id p) (map unique_id (unique_from seen_ids matches)).
Proof.
  induction matches as [|mt rest IH]; intros seen p; [intros []|].
  cbn [unique_from].
  destruct (existsb (id_eqb (unique_id mt)) seen) eqn:E.
  - intros [<-|H]; [left; apply seen_iff; exact E|]. apply IH. exact H.
  - cbn [map]. intros [<-|H]; [right; left; reflexivity|].
    destruct (IH (unique_id mt :: seen) p H) as [[Eq|Hs]|Hr].
    + right. left. exact Eq.
    + left. exact Hs.
    + right. right. exact Hr.
Qed.

Lemma NoDup_head3 {A : Type} (l : list A) : NoDup l -> NoDup (head3 l).
Proof.
  unfold head3. intros H. rewrite <- (firstn_skipn 3 l) in H.
  exact (NoDup_app_remove_r _ _ H).
Qed.

Lemma map_head3 {A B : Type} (f : A -> B) (l : list A) :
  map f (head3 l) = head3 (map f l).
Proof. unfold head3. symmetry. apply firstn_map. Qed.

Lemma first_search_capture (P : str -> Prop) (patterns : list regex)
    (text_lower g : str) :
  Forall (fun r => captures_in P r /\ sets_group r = true) patterns ->
  first_search patterns text_lower = Some g -> P g.
Proof.
  induction patterns as [|r rs IH]; cbn [first_search]; [discriminate|].
  intros Hall. inversion Hall as [|? ? [Hc Hs] Hrest]; subst.
  destruct (search r text_lower) as [g'|] eqn:E.
  - intros H. inversion H; subst. exact (ReFacts.search_capture P r _ _ Hc Hs E).
  - apply IH. exact Hrest.
Qed.

Ltac captures_tac :=
  repeat match goal with
         | |- _ /\ _ => split
         | |- True => exact I
         | |- forall w, lang _ w -> digit_run w =>
             exact CaptureFacts.lang_plus_digit
         end.

Lemma people_patterns_capture_digits :
  Forall (fun r => captures_in digit_run r /\ sets_group r = true) people_patterns.
Proof.
  repeat (apply Forall_cons; [split; [cbn; captures_tac|reflexivity]|]).
  apply Forall_nil.
Qed.

Lemma budget_patterns_capture_digits :
  Forall (fun r => captures_in digit_run r /\ sets_group r = true) budget_patterns.
Proof.
  repeat (apply Forall_cons; [split; [cbn; captures_tac|reflexivity]|]).
  apply Forall_nil.
Qed.

End DedupFacts.

(** ** The output of [find_matching_properties] *)

Module MonolithFacts.

Import FinalWebApp.

Lemma location_matches_in (properties_df : list property) (text_lower : str)
    (p : property) :
  In p (location_matches properties_df text_lower) -> In p properties_df.
Proof.
  unfold location_matches. intros H. apply in_flat_map in H.
  destruct H as (kv & _ & H).
  destruct (Str.contains (fst kv) text_lower); [|destruct H].
  apply filter_In in H. exact (proj1 H).
Qed.

Lemma all_matches_in (properties_df : list property) (message : str)
    (matches : list property) (p : property) :
  all_matches properties_df message = Some matches ->
  In p matches -> In p properties_df.
Proof.
  unfold all_matches. cbv zeta.
  set (by_size :=
         match first_search people_patterns (Str.lower message) with
         | Some g => option_map (size_matches properties_df) (Num.int_of_str g)
         | None => Some []
         end).
  set (by_budget :=
         match first_search budget_patterns (Str.lower message) with
         | Some g => option_map (budget_matches properties_df) (Num.float_of_str g)
         | None => Some []
         end).
  assert (Hs : forall l, by_size = Some l -> forall q, In q l -> In q properties_df).
  { subst by_size. intros l.
    destruct (first_search people_patterns (Str.lower message)) as [g|].
    - destruct (Num.int_of_str g) as [n|]; cbn [option_map]; [|discriminate].
      intros H q Hq. injection H as <-. unfold size_matches in Hq.
      apply filter_In in Hq. exact (proj1 Hq).
    - intros H q Hq. injection H as <-. destruct Hq. }
  assert (Hb : forall l, by_budget = Some l -> forall q, In q l -> In q properties_df).
  { subst by_budget. intros l.
    destruct (first_search budget_patterns (Str.lower message)) as [g|].
    - destruct (Num.float_of_str g) as [b|]; cbn [option_map]; [|discriminate].
      intros H q Hq. injection H as <-. unfold budget_matches in Hq.
      apply filter_In in Hq. exact (proj1 Hq).
    - intros H q Hq. injection H as <-. destruct Hq. }
  destruct by_size as [l1|]; [|discriminate].
  destruct by_budget as [l2|]; [|discriminate].
  intros H Hp. injection H as <-.
  apply in_app_or in Hp. destruct Hp as [Hp|Hp]; [exact (Hs l1 eq_refl p Hp)|].
  apply in_app_or in Hp. destruct Hp as [Hp|Hp]; [exact (Hb l2 eq_refl p Hp)|].
  exact (location_matches_in _ _ _ Hp).
Qed.

Lemma unique_from_nonempty (matches : list property) :
  matches <> [] -> unique_from [] matches <> [].
Proof.
  destruct matches as [|mt rest]; [congruence|]. intros _. cbn. discriminate.
Qed.

Lemma head3_nonempty {A : Type} (l : list A) : l <> [] -> head3 l <> [].
Proof. destruct l; [congruence|]. intros _. cbn. discriminate. Qed.



(** The budget read from a message: [float] never raises on it. *)
Lemma budget_capture_float (text_lower g : str) :
  first_search budget_patterns text_lower = Some g ->
  Num.float_of_str g = Some (inject_Z (Num.digits_val g)).
Proof.
  intros Hg. apply CaptureFacts.digit_run_float.
  exact (DedupFacts.first_search_capture digit_run _ _ _
           DedupFacts.budget_patterns_capture_digits Hg).
Qed.

(** The people count read from a message: [int] raises exactly when it
    has more digits than the limit. *)
Lemma people_capture_int (text_lower g : str) :
  first_search people_patterns text_lower = Some g ->
  Num.int_of_str g
  = if (Z.of_nat (length g) <=? Num.int_max_str_digits)%Z
    then Some (Num.digits_val g) else None.
Proof.
  intros Hg. apply CaptureFacts.digit_run_int.
  exact (DedupFacts.first_search_capture digit_run _ _ _
           DedupFacts.people_patterns_capture_digits Hg).
Qed.

(** The list of matches: what each criterion contributes, and when the
    function raises instead. *)
Lemma all_matches_outcome (properties_df : list property) (message : str) :
  let text_lower := Str.lower message in
  exists by_budget,
    match first_search budget_patterns text_lower with
    | Some g =>
        exists b, Num.float_of_str g = Some b
                  /\ by_budget = budget_matches properties_df b
    | None => by_budget = []
    end
    /\ match first_search people_patterns text_lower with
       | Some g =>
           match Num.int_of_str g with
           | Some n =>
               all_matches properties_df message
               = Some (size_matches properties_df n ++ by_budget
                       ++ location_matches properties_df text_lower)
           | None => all_matches properties_df message = None
           end
       | None =>
           all_matches properties_df message
           = Some ([] ++ by_budget ++ location_matches properties_df text_lower)
       end.
Proof.
  intros text_lower. unfold all_matches. fold text_lower. cbv zeta.
  destruct (first_search budget_patterns text_lower) as [gb|] eqn:Eb.
  - rewrite (budget_capture_float _ _ Eb). cbn [option_map].
    exists (budget_matches properties_df (inject_Z (Num.digits_val gb))).
    split; [eexists; split; reflexivity|].
    destruct (first_search people_patterns text_lower) as [g|]; [|reflexivity].
    destruct (Num.int_of_str g); reflexivity.
  - exists []. split; [reflexivity|].
    destruct (first_search people_patterns text_lower) as [g|]; [|reflexivity].
    destruct (Num.int_of_str g); reflexivity.
Qed.

Lemma all_matches_returns (properties_df : list property) (message : str) :
  count_readable message ->
  exists matches, all_matches properties_df message = Some matches.
Proof.
  intros Hc. destruct (all_matches_outcome properties_df message)
    as (by_budget & _ & H). cbv zeta in H. unfold count_readable in Hc.
  destruct (first_search people_patterns (Str.lower message)) as [g|] eqn:Eg;
    [|eauto].
  rewrite (people_capture_int _ _ Eg) in H.
  pose proof (Hc g eq_refl) as Hlen. apply Z.leb_le in Hlen.
  rewrite Hlen in H. eauto.
Qed.

Lemma all_matches_raises (properties_df : list property) (message : str) :
  ~ count_readable message -> all_matches properties_df message = None.
Proof.
  intros Hc. destruct (all_matches_outcome properties_df message)
    as (by_budget & _ & H). cbv zeta in H. unfold count_readable in Hc.
  destruct (first_search people_patterns (Str.lower message)) as [g|] eqn:Eg.
  - rewrite (people_capture_int _ _ Eg) in H.
    destruct (Z.of_nat (length g) <=? Num.int_max_str_digits)%Z eqn:E;
      [|exact H].
    exfalso. apply Hc. intros g' Hg'. inversion Hg'; subst.
    apply Z.leb_le. exact E.
  - exfalso. apply Hc. intros g' Hg'. discriminate.
Qed.

(** What [find_matching_properties] returns, when it returns. *)
Lemma find_matching_facts (properties_df : list property) (message : str)
    (properties : list property) :
  find_matching_properties properties_df message = Some properties ->
  (length properties <= 3)%nat
  /\ (forall p, In p properties -> In p properties_df)
  /\ (properties_df <> [] -> properties <> []).
Proof.
  unfold find_matching_properties.
  destruct (all_matches properties_df message) as [matches|] eqn:Hm;
    [|discriminate].
  destruct matches as [|mt rest]; intros H; injection H as <-.
  - split; [unfold head3; apply firstn_le_length|]. split.
    + intros p Hp. exact (MatchFacts.In_head3 p properties_df Hp).
    + apply head3_nonempty.
  - split; [unfold head3; apply firstn_le_length|]. split.
    + intros p Hp.
      apply (MatchFacts.In_head3 p (unique_from [] (mt :: rest))) in Hp.
      destruct (DedupFacts.unique_from_fresh (mt :: rest) [] p Hp) as [Hin _].
      exact (all_matches_in properties_df message _ p Hm Hin).
    + intros _. apply (head3_nonempty (unique_from [] (mt :: rest))).
      apply unique_from_nonempty. discriminate.
Qed.

Lemma find_matching_returns (properties_df : list property) (message : str) :
  count_readable message ->
  exists properties,
    find_matching_properties properties_df message = Some properties.
Proof.
  intros Hc. destruct (all_matches_returns properties_df message Hc)
    as [matches Hm].
  unfold find_matching_properties. rewrite Hm. destruct matches; eauto.
Qed.

Lemma find_matching_raises (properties_df : list property) (message : str) :
  ~ count_readable message ->
  find_matching_properties properties_df message = None.
Proof.
  intros Hc. unfold find_matching_properties.
  rewrite (all_matches_raises properties_df message Hc). reflexivity.
Qed.

End MonolithFacts.




(** ** Order of the output *)

Module OrderFacts.

(** A list of numbers has one arrangement in non-increasing order. *)
Lemma descending_unique (l1 : list Z) :
  forall l2,
    StronglySorted (fun a b => (b <= a)%Z) l1 ->
    StronglySorted (fun a b => (b <= a)%Z) l2 ->
    Permutation l1 l2 -> l1 = l2.
Proof.
  induction l1 as [|a l1 IH]; intros [|b l2] S1 S2 Hp.
  - reflexivity.
  - apply Permutation_nil in Hp. discriminate.
  - apply Permutation_sym, Permutation_nil in Hp. discriminate.
  - inversion S1 as [|? ? S1' A1]; inversion S2 as [|? ? S2' A2]; subst.
    rewrite Forall_forall in A1, A2.
    assert (Hab : a = b).
    { assert (Ha : In a (b :: l2))
        by (apply (Permutation_in _ Hp); left; reflexivity).
      assert (Hb : In b (a :: l1))
        by (apply (Permutation_in _ (Permutation_sym Hp)); left; reflexivity).
      destruct Ha as [Ha|Ha]; [congruence|].
      destruct Hb as [Hb|Hb]; [congruence|].
      pose proof (A2 a Ha). pose proof (A1 b Hb). lia. }
    subst b. f_equal. apply IH; [exact S1'|exact S2'|].
    exact (Permutation_cons_inv Hp).
Qed.

Lemma map_sorted (l : list PropertyMatchingService.row) :
  StronglySorted score_desc l ->
  StronglySorted (fun a b => (b <= a)%Z)
    (map PropertyMatchingService.score_of l).
Proof.
  induction 1 as [|a l Hs IH Hall]; cbn [map]; constructor; [exact IH|].
  rewrite Forall_forall in *. intros v Hv. apply in_map_iff in Hv.
  destruct Hv as (r & <- & Hr). exact (Hall r Hr).
Qed.

End OrderFacts.

(** C7 (as amended).  The matcher's output is the first three of the
    surviving records put in non-increasing order of [culture_score] by
    [sort_values]; without culture keywords there is no sort and the
    output is the first three survivors in catalog order.  The scores of
    the output do not depend on how [sort_values] orders records of
    equal score; which of them come first does, as the example on the
    demo catalog after the theorem shows. *)
Theorem output_is_sorted_by_culture_score :
  forall (sort_values : list PropertyMatchingService.row
                        -> list PropertyMatchingService.row)
         (catalog : list property)
         (req : PropertyMatchingService.requirements),
    sorts_by_score_desc sort_values ->
    let survivors := filter (passes req) catalog in
    let scored :=
      PropertyMatchingService.with_scores
        (PropertyMatchingService.culture_keywords req) survivors in
    let output :=
      PropertyMatchingService._find_matching_properties sort_values
        (Some catalog) req in
    survivors = PropertyMatchingService.filtered req catalog
    /\ map PropertyMatchingService.rec scored = survivors
    /\ (exists sorted_rows,
          output = head3 sorted_rows
          /\ Permutation sorted_rows scored
          /\ StronglySorted score_desc sorted_rows)
    /\ (PropertyMatchingService.culture_keywords req = [] ->
        output = head3 scored)
    /\ (forall other_sort,
          sorts_by_score_desc other_sort ->
          map PropertyMatchingService.score_of
            (PropertyMatchingService._find_matching_properties other_sort
               (Some catalog) req)
          = map PropertyMatchingService.score_of output).
Proof.
  intros sort_values df req Hsort survivors scored output.
  assert (Hsurv : survivors = PropertyMatchingService.filtered req df)
    by (symmetry; apply MatchFacts.filtered_passes).
  assert (Hout : forall sort,
             sorts_by_score_desc sort ->
             PropertyMatchingService._find_matching_properties sort (Some df) req
             = head3 (PropertyMatchingService.ranked sort
                        (PropertyMatchingService.culture_keywords req) survivors)).
  { intros sort Hs. rewrite (RankFacts.find_matching_head3 sort Hs), Hsurv.
    reflexivity. }
  split; [exact Hsurv|].
  split; [apply RankFacts.with_scores_rec|].
  split; [|split].
  - exists (PropertyMatchingService.ranked sort_values
              (PropertyMatchingService.culture_keywords req) survivors).
    destruct (RankFacts.ranked_spec sort_values Hsort
                (PropertyMatchingService.culture_keywords req) survivors)
      as (Hperm & Hsorted).
    split; [apply Hout; exact Hsort|]. split; assumption.
  - intros Hk. subst output scored. rewrite (Hout sort_values Hsort), Hk.
    reflexivity.
  - intros other Hother. subst output.
    rewrite (Hout other Hother), (Hout sort_values Hsort).
    unfold head3. rewrite <- !firstn_map. f_equal.
    destruct (RankFacts.ranked_spec sort_values Hsort
                (PropertyMatchingService.culture_keywords req) survivors)
      as (Hp1 & Hs1).
    destruct (RankFacts.ranked_spec other Hother
                (PropertyMatchingService.culture_keywords req) survivors)
      as (Hp2 & Hs2).
    apply OrderFacts.descending_unique;
      [apply OrderFacts.map_sorted; exact Hs2
      |apply OrderFacts.map_sorted; exact Hs1|].
    apply Permutation_map.
    exact (perm_trans Hp2 (Permutation_sym Hp1)).
Qed.

Lemma output_is_sorted_by_culture_score_witness :
  map (fun r => (unique_id (PropertyMatchingService.rec r),
                 PropertyMatchingService.culture_score r))
      (PropertyMatchingService._find_matching_properties Sorts.sort_keeping_ties
         (Some PropertyMatchingService.sample_data)
         {| PropertyMatchingService.min_size := None;
            PropertyMatchingService.max_size := None;
            PropertyMatchingService.max_rent_per_sf := None;
            PropertyMatchingService.preferred_locations := [];
            PropertyMatchingService.culture_keywords :=
              [lit "tech"; lit "center"] |})
  = [(lit "PROP002", Some 1%Z); (lit "PROP003", Some 1%Z); (lit "PROP001", Some 0%Z)]
  /\ map PropertyMatchingService.score_of
       (PropertyMatchingService._find_matching_properties
          Sorts.sort_reversing_ties
          (Some PropertyMatchingService.sample_data)
          {| PropertyMatchingService.min_size := None;
             PropertyMatchingService.max_size := None;
             PropertyMatchingService.max_rent_per_sf := None;
             PropertyMatchingService.preferred_locations := [];
             PropertyMatchingService.culture_keywords :=
               [lit "tech"; lit "center"] |})
     = [1; 1; 0]%Z.
Proof.
  split; [vm_compute; reflexivity|].
  pose proof (output_is_sorted_by_culture_score Sorts.sort_keeping_ties
                PropertyMatchingService.sample_data
                {| PropertyMatchingService.min_size := None;
                   PropertyMatchingService.max_size := None;
                   PropertyMatchingService.max_rent_per_sf := None;
                   PropertyMatchingService.preferred_locations := [];
                   PropertyMatchingService.culture_keywords :=
                     [lit "tech"; lit "center"] |}
                RankFacts.sort_keeping_ties_sorts) as H.
  cbv zeta in H. destruct H as (_ & _ & _ & _ & H).
  rewrite (H Sorts.sort_reversing_ties RankFacts.sort_reversing_ties_sorts).
  vm_compute. reflexivity.
Defined.

(** Catalog order is not kept among records of equal score by every
    routine that sorts by score.  PROP002 and PROP004 tie on the
    keywords [tech] and [creative]: a sort that keeps ties in place
    returns PROP002 first, one that does not returns PROP004 first.
    Both routines sort by [culture_score] descending, which is all the
    program asks of [sort_values]. *)
Lemma tie_order_depends_on_the_sort :
  let req :=
    {| PropertyMatchingService.min_size := None;
       PropertyMatchingService.max_size := None;
       PropertyMatchingService.max_rent_per_sf := None;
       PropertyMatchingService.preferred_locations := [];
       PropertyMatchingService.culture_keywords :=
         [lit "tech"; lit "creative"] |} in
  sorts_by_score_desc Sorts.sort_keeping_ties
  /\ sorts_by_score_desc Sorts.sort_reversing_ties
  /\ map (fun r => (unique_id (PropertyMatchingService.rec r),
                    PropertyMatchingService.culture_score r))
         (PropertyMatchingService._find_matching_properties
            Sorts.sort_keeping_ties (Some FinalWebApp.sample_data) req)
     = [(lit "PROP002", Some 1%Z); (lit "PROP004", Some 1%Z);
        (lit "PROP001", Some 0%Z)]
  /\ map (fun r => (unique_id (PropertyMatchingService.rec r),
                    PropertyMatchingService.culture_score r))
         (PropertyMatchingService._find_matching_properties
            Sorts.sort_reversing_ties (Some FinalWebApp.sample_data) req)
     = [(lit "PROP004", Some 1%Z); (lit "PROP002", Some 1%Z);
        (lit "PROP005", Some 0%Z)].
Proof.
  intros req.
  split; [exact RankFacts.sort_keeping_ties_sorts|].
  split; [exact RankFacts.sort_reversing_ties_sorts|].
  split; vm_compute; reflexivity.
Qed.

(** C8 (as amended).  In [_find_matching_properties] filtering is
    conjunctive and monotone: when a profile differs from another only
    by further bounds (a size bound, a rent bound, or a location list
    where there was none), every record surviving its filters survives
    the filters of the other, and the survivors are not more numerous.
    In [find_matching_properties] of [final_web_app.py] the selections
    of the criteria are put together: every record selected by the size,
    the budget or the location criterion is among the matches. *)
Theorem adding_bounds_narrows_survivors :
  (forall (properties_df : list property)
          (req1 req2 : PropertyMatchingService.requirements),
      adds_bounds req1 req2 ->
      (forall p, In p (PropertyMatchingService.filtered req2 properties_df) ->
                 In p (PropertyMatchingService.filtered req1 properties_df))
      /\ (length (PropertyMatchingService.filtered req2 properties_df)
          <= length (PropertyMatchingService.filtered req1 properties_df))%nat
      /\ PropertyMatchingService.filtered req2 properties_df
         = filter (passes req2)
             (PropertyMatchingService.filtered req1 properties_df))
  /\ (forall (properties_df : list property) (message : str)
             (matches : list property),
        FinalWebApp.all_matches properties_df message = Some matches ->
        exists by_size by_budget,
          matches = by_size ++ by_budget
                    ++ FinalWebApp.location_matches properties_df (Str.lower message)
          /\ (forall g n,
                FinalWebApp.first_search FinalWebApp.people_patterns
                  (Str.lower message) = Some g ->
                Num.int_of_str g = Some n ->
                by_size = FinalWebApp.size_matches properties_df n)
          /\ (forall g b,
                FinalWebApp.first_search FinalWebApp.budget_patterns
                  (Str.lower message) = Some g ->
                Num.float_of_str g = Some b ->
                by_budget = FinalWebApp.budget_matches properties_df b)).
Proof.
  split.
  - intros df req1 req2 Hadd. rewrite !MatchFacts.filtered_passes.
    pose proof (fun p => MatchFacts.passes_weaken req1 req2 p Hadd) as Hw.
    split; [|split].
    + intros p Hp. apply filter_In in Hp. destruct Hp as [Hin Hp].
      apply filter_In. split; [exact Hin|apply Hw; exact Hp].
    + apply MatchFacts.filter_length_le. exact Hw.
    + rewrite MatchFacts.filter_and. apply filter_ext_in. intros p _.
      destruct (passes req2 p) eqn:E; [rewrite (Hw p E)|rewrite andb_false_r];
        reflexivity.
  - intros df message matches. unfold FinalWebApp.all_matches. cbv zeta.
    destruct (FinalWebApp.first_search FinalWebApp.people_patterns
                (Str.lower message)) as [g1|].
    + destruct (Num.int_of_str g1) as [n1|] eqn:En; cbn [option_map];
        [|discriminate].
      destruct (FinalWebApp.first_search FinalWebApp.budget_patterns
                  (Str.lower message)) as [g2|].
      * destruct (Num.float_of_str g2) as [b2|] eqn:Eb; cbn [option_map];
          [|discriminate].
        intros H. injection H as <-.
        exists (FinalWebApp.size_matches df n1),
               (FinalWebApp.budget_matches df b2).
        split; [reflexivity|]. split; intros g v Hg Hv; congruence.
      * intros H. injection H as <-.
        exists (FinalWebApp.size_matches df n1), [].
        split; [reflexivity|]. split; intros g v Hg Hv; congruence.
    + destruct (FinalWebApp.first_search FinalWebApp.budget_patterns
                  (Str.lower message)) as [g2|].
      * destruct (Num.float_of_str g2) as [b2|] eqn:Eb; cbn [option_map];
          [|discriminate].
        intros H. injection H as <-.
        exists [], (FinalWebApp.budget_matches df b2).
        split; [reflexivity|]. split; intros g v Hg Hv; congruence.
      * intros H. injection H as <-.
        exists [], [].
        split; [reflexivity|]. split; intros g v Hg Hv; congruence.
Qed.

Lemma adding_bounds_narrows_survivors_witness :
  let req1 :=
    {| PropertyMatchingService.min_size := Some 2000;
       PropertyMatchingService.max_size := None;
       PropertyMatchingService.max_rent_per_sf := None;
       PropertyMatchingService.preferred_locations := [];
       PropertyMatchingService.culture_keywords := [] |} in
  let req2 :=
    {| PropertyMatchingService.min_size := Some 2000;
       PropertyMatchingService.max_size := None;
       PropertyMatchingService.max_rent_per_sf := Some 30;
       PropertyMatchingService.preferred_locations := [];
       PropertyMatchingService.culture_keywords := [lit "modern"] |} in
  (adds_bounds req1 req2
   /\ PropertyMatchingService.filtered req1 PropertyMatchingService.sample_data
      = [PROP001; PROP002]
   /\ PropertyMatchingService.filtered req2 PropertyMatchingService.sample_data
      = [PROP001]
   /\ (forall p,
         In p (PropertyMatchingService.filtered req2
                 PropertyMatchingService.sample_data) ->
         In p (PropertyMatchingService.filtered req1
                 PropertyMatchingService.sample_data)))
  /\ (FinalWebApp.all_matches FinalWebApp.sample_data (lit "downtown under $30")
      = Some [PROP001; PROP002; PROP003; PROP004; PROP001]
      /\ exists by_size by_budget,
           [PROP001; PROP002; PROP003; PROP004; PROP001]
           = by_size ++ by_budget
             ++ FinalWebApp.location_matches FinalWebApp.sample_data
                  (Str.lower (lit "downtown under $30"))).
Proof.
  intros req1 req2.
  assert (Hadd : adds_bounds req1 req2).
  { unfold adds_bounds, req1, req2. cbn. repeat split; auto. }
  split.
  - split; [exact Hadd|].
    split; [vm_compute; reflexivity|].
    split; [vm_compute; reflexivity|].
    exact (proj1 (proj1 adding_bounds_narrows_survivors
                    PropertyMatchingService.sample_data req1 req2 Hadd)).
  - assert (Hm : FinalWebApp.all_matches FinalWebApp.sample_data
                   (lit "downtown under $30")
                 = Some [PROP001; PROP002; PROP003; PROP004; PROP001])
      by (vm_compute; reflexivity).
    split; [exact Hm|].
    destruct (proj2 adding_bounds_narrows_survivors FinalWebApp.sample_data
                (lit "downtown under $30") _ Hm)
      as (by_size & by_budget & Heq & _).
    exists by_size, by_budget. exact Heq.
Defined.

(** Adding a rent criterion to a message enlarges the result of
    [find_matching_properties]: the records matching each criterion are
    put together, not intersected. *)
Lemma monolith_grows_with_added_criterion :
  FinalWebApp.find_matching_properties FinalWebApp.sample_data (lit "downtown")
    = Some [PROP001]
  /\ FinalWebApp.find_matching_properties FinalWebApp.sample_data
       (lit "downtown under $30")
     = Some [PROP001; PROP002; PROP003]
  /\ In PROP002 [PROP001; PROP002; PROP003]
  /\ ~ In PROP002 [PROP001].
Proof.
  split; [vm_compute; reflexivity|].
  split; [vm_compute; reflexivity|].
  split; [right; left; reflexivity|].
  intros [H|[]]. discriminate H.
Qed.

(** C1 (as amended).  In [_find_matching_properties], when the filters
    eliminate every record the output is empty (as it is when the table
    is missing or empty); [find_matching_properties] of
    [final_web_app.py] instead returns the first three records of the
    catalog when its criteria select nothing. *)
Theorem empty_result_and_fallback :
  (forall (sort_values : list PropertyMatchingService.row
                         -> list PropertyMatchingService.row)
          (properties_df : list property)
          (req : PropertyMatchingService.requirements),
      sorts_by_score_desc sort_values ->
      PropertyMatchingService.filtered req properties_df = [] ->
      PropertyMatchingService._find_matching_properties sort_values
        (Some properties_df) req = [])
  /\ (forall sort_values req,
        PropertyMatchingService._find_matching_properties sort_values None req
        = [])
  /\ (forall (properties_df : list property) (message : str),
        FinalWebApp.all_matches properties_df message = Some [] ->
        FinalWebApp.find_matching_properties properties_df message
        = Some (head3 properties_df)).
Proof.
  split; [|split].
  - intros sort_values df req Hsort H.
    rewrite (RankFacts.find_matching_head3 sort_values Hsort), H.
    rewrite (RankFacts.ranked_nil sort_values Hsort). reflexivity.
  - intros sort_values req. reflexivity.
  - intros df message H. unfold FinalWebApp.find_matching_properties.
    rewrite H. reflexivity.
Qed.

Lemma empty_result_and_fallback_witness :
  let req :=
    {| PropertyMatchingService.min_size := Some 62500;
       PropertyMatchingService.max_size := None;
       PropertyMatchingService.max_rent_per_sf := None;
       PropertyMatchingService.preferred_locations := [];
       PropertyMatchingService.culture_keywords := [lit "modern"] |} in
  (PropertyMatchingService.filtered req PropertyMatchingService.sample_data = []
   /\ PropertyMatchingService._find_matching_properties Sorts.sort_keeping_ties
        (Some PropertyMatchingService.sample_data) req = [])
  /\ (FinalWebApp.all_matches FinalWebApp.sample_data (lit "team of 500 people")
      = Some []
      /\ FinalWebApp.find_matching_properties FinalWebApp.sample_data
           (lit "team of 500 people")
         = Some (head3 FinalWebApp.sample_data)).
Proof.
  intros req. split.
  - split; [vm_compute; reflexivity|].
    apply (proj1 empty_result_and_fallback Sorts.sort_keeping_ties
             PropertyMatchingService.sample_data req
             RankFacts.sort_keeping_ties_sorts).
    vm_compute. reflexivity.
  - split; [vm_compute; reflexivity|].
    apply (proj2 (proj2 empty_result_and_fallback) FinalWebApp.sample_data
             (lit "team of 500 people")).
    vm_compute. reflexivity.
Defined.

(** A message whose size criterion eliminates every record of the
    catalog: [find_matching_properties] does not answer with an empty
    list but with the first three records, unfiltered. *)
Lemma monolith_falls_back_to_first_three :
  FinalWebApp.size_matches FinalWebApp.sample_data 500 = []
  /\ FinalWebApp.all_matches FinalWebApp.sample_data (lit "team of 500 people")
     = Some []
  /\ FinalWebApp.find_matching_properties FinalWebApp.sample_data
       (lit "team of 500 people")
     = Some [PROP001; PROP002; PROP003]
  /\ FinalWebApp.find_matching_properties FinalWebApp.sample_data
       (lit "team of 500 people")
     <> Some [].
Proof.
  repeat split; try (vm_compute; reflexivity).
  vm_compute. discriminate.
Qed.

(** ** The emotion heuristic on blank text *)

Module BlankFacts.

Lemma space_not_upper (c : ascii) : Str.is_space c = true -> Str.is_upper c = false.
Proof.
  unfold Str.is_space, Str.is_upper. intros H.
  apply orb_true_iff in H. apply andb_false_iff.
  destruct H as [H|H]; apply andb_true_iff in H; destruct H as [H1 H2];
    apply Nat.leb_le in H1, H2; left; apply Nat.leb_gt; lia.
Qed.

Lemma lower_blank (s : str) : forallb Str.is_space s = true -> Str.lower s = s.
Proof.
  induction s as [|c s IH]; [reflexivity|]. cbn [forallb]. intros H.
  apply andb_true_iff in H. destruct H as [Hc Hs].
  unfold Str.lower in *. cbn [map]. rewrite (IH Hs).
  unfold Str.lower_char. rewrite (space_not_upper c Hc). reflexivity.
Qed.

Lemma count_words_blank (s : str) :
  forallb Str.is_space s = true -> Str.count_words s = 0%nat.
Proof.
  unfold Str.count_words. induction s as [|c s IH]; [reflexivity|].
  cbn [forallb Str.count_words_from]. intros H.
  apply andb_true_iff in H. destruct H as [Hc Hs]. rewrite Hc. exact (IH Hs).
Qed.

Lemma contains_blank (keyword s : str) :
  starts_with_nonblank keyword = true ->
  forallb Str.is_space s = true -> Str.contains keyword s = false.
Proof.
  destruct keyword as [|c kw]; [discriminate|]. cbn [starts_with_nonblank].
  intros Hc. apply negb_true_iff in Hc.
  induction s as [|a s IH]; [reflexivity|]. cbn [forallb]. intros H.
  apply andb_true_iff in H. destruct H as [Ha Hs].
  cbn [Str.contains Str.starts_with]. rewrite (IH Hs).
  destruct (Str.eqb c a) eqn:E; [|reflexivity].
  apply Ascii.eqb_eq in E. subst a. congruence.
Qed.

Lemma keyword_hits_blank (keywords : list str) (s : str) :
  forallb starts_with_nonblank keywords = true ->
  forallb Str.is_space s = true -> keyword_hits keywords s = 0%Z.
Proof.
  intros Hk Hs. unfold keyword_hits.
  induction keywords as [|kw kws IH]; [reflexivity|].
  cbn [forallb] in Hk. apply andb_true_iff in Hk. destruct Hk as [Hkw Hkws].
  cbn [filter]. rewrite (contains_blank kw s Hkw Hs). exact (IH Hkws).
Qed.

End BlankFacts.

(** ** Scanning a text that is one head count *)

Module PhraseFacts.

Import PropertyMatchingService.

Lemma must_hit_lang (p : ascii -> bool) (r : regex) (w : str) :
  lang r w -> must_hit p r = true -> existsb p w = true.
Proof.
  induction 1; cbn [must_hit]; intros Hm; try discriminate.
  - cbn. rewrite Hm. reflexivity.
  - rewrite existsb_app. apply orb_true_iff.
    apply orb_true_iff in Hm. destruct Hm as [Hm|Hm]; auto.
  - apply andb_true_iff in Hm. destruct Hm as [Hm _]. auto.
  - apply andb_true_iff in Hm. destruct Hm as [_ Hm]. auto.
  - auto.
Qed.

Lemma captures_in_True (r : regex) : captures_in (fun _ => True) r.
Proof. induction r; cbn; auto. Qed.

(** A pattern whose words all hold a [p] character matches nowhere in a
    text without such a character. *)
Lemma match_here_hits (p : ascii -> bool) (r : regex) (s : str) (x : outcome) :
  must_hit p r = true -> match_here r s = Some x -> existsb p s = true.
Proof.
  intros Hm H. unfold match_here in H.
  assert (Hnone : capture_in (fun _ => True) None) by (intros c Hc; exact I).
  destruct (ReFacts.m_sound (fun _ => True) r (captures_in_True r) _ _ _ _ H Hnone)
    as (w & s' & cap' & -> & Hl & _).
  rewrite existsb_app, (must_hit_lang p r w Hl Hm). reflexivity.
Qed.

Lemma findall_without_hit (p : ascii -> bool) (r : regex) :
  must_hit p r = true ->
  forall fuel s, existsb p s = false -> findall_from fuel r s = [].
Proof.
  intros Hm. induction fuel as [|fuel IH]; intros s Hs; [reflexivity|].
  cbn [findall_from].
  destruct (match_here r s) as [x|] eqn:E.
  - rewrite (match_here_hits p r s x Hm E) in Hs. discriminate.
  - destruct s as [|c s]; [reflexivity|]. apply IH.
    cbn [existsb] in Hs. apply orb_false_iff in Hs. exact (proj2 Hs).
Qed.

(** A greedy run over a character class takes the whole run when what
    follows is accepted by the continuation. *)
Lemma star_one_greedy (p : ascii -> bool) (k : cont) (x : outcome) (tail : str) :
  stops p tail ->
  forall run n cap,
    forallb p run = true -> (length run <= n)%nat ->
    k tail cap = Some x ->
    star_loop (one p) k n (run ++ tail) cap = Some x.
Proof.
  intros Hstop. induction run as [|c run IH]; intros n cap Hrun Hn Hk.
  - cbn [app]. destruct n as [|n]; [exact Hk|]. cbn [star_loop].
    assert (Hone : forall k', one p tail cap k' = None).
    { intros k'. unfold one. destruct tail as [|a tail]; [reflexivity|].
      cbn [stops] in Hstop. rewrite Hstop. reflexivity. }
    rewrite Hone. exact Hk.
  - cbn [forallb] in Hrun. apply andb_true_iff in Hrun. destruct Hrun as [Hc Hrun].
    destruct n as [|n]; [cbn [length] in Hn; lia|].
    cbn [star_loop app one]. rewrite Hc.
    assert (Hlt : (length (run ++ tail) <? length (c :: run ++ tail))%nat = true)
      by (apply Nat.ltb_lt; cbn [length]; lia).
    rewrite Hlt. rewrite (IH n cap Hrun); [reflexivity| |exact Hk].
    cbn [length] in Hn. lia.
Qed.

Lemma digit_not_space (c : ascii) : Str.is_digit c = true -> Str.is_space c = false.
Proof.
  unfold Str.is_digit, Str.is_space. intros H.
  apply andb_true_iff in H. destruct H as [H1 H2].
  apply Nat.leb_le in H1, H2. apply orb_false_iff.
  split; apply andb_false_iff; right; apply Nat.leb_gt; lia.
Qed.

Lemma digit_not_upper (c : ascii) : Str.is_digit c = true -> Str.is_upper c = false.
Proof.
  unfold Str.is_digit, Str.is_upper. intros H.
  apply andb_true_iff in H. destruct H as [H1 H2].
  apply Nat.leb_le in H1, H2. apply andb_false_iff. left. apply Nat.leb_gt. lia.
Qed.

Lemma lower_fixed (s : str) :
  forallb (fun c => negb (Str.is_upper c)) s = true -> Str.lower s = s.
Proof.
  unfold Str.lower. induction s as [|c s IH]; [reflexivity|].
  cbn [forallb map]. intros H. apply andb_true_iff in H. destruct H as [Hc Hs].
  rewrite (IH Hs). unfold Str.lower_char. apply negb_true_iff in Hc.
  rewrite Hc. reflexivity.
Qed.

Lemma existsb_app_false {A : Type} (p : A -> bool) (l1 l2 : list A) :
  existsb p l1 = false -> existsb p l2 = false -> existsb p (l1 ++ l2) = false.
Proof. intros H1 H2. rewrite existsb_app, H1, H2. reflexivity. Qed.

Lemma existsb_false_of_forallb {A : Type} (p q : A -> bool) (l : list A) :
  (forall a, q a = true -> p a = false) ->
  forallb q l = true -> existsb p l = false.
Proof.
  intros Hpq. induction l as [|a l IH]; [reflexivity|].
  cbn [forallb existsb]. intros H. apply andb_true_iff in H. destruct H as [Ha Hl].
  rewrite (Hpq a Ha), (IH Hl). reflexivity.
Qed.

Section HeadCount.

Variables digits blanks : str.
Hypothesis digits_run : digit_run digits.
Hypothesis blanks_blank : forallb Str.is_space blanks = true.

(** The text [N people]: the digits, blanks, and the word. *)
Let phrase : str := digits ++ blanks ++ lit "people".

Lemma phrase_lacks (p : ascii -> bool) :
  (forall c, Str.is_digit c = true -> p c = false) ->
  (forall c, Str.is_space c = true -> p c = false) ->
  existsb p (lit "people") = false ->
  existsb p phrase = false.
Proof.
  intros Hd Hs Hw. unfold phrase.
  apply existsb_app_false;
    [exact (existsb_false_of_forallb p _ digits Hd (proj2 digits_run))|].
  apply existsb_app_false;
    [exact (existsb_false_of_forallb p _ blanks Hs blanks_blank)|exact Hw].
Qed.

Ltac class_tac :=
  let c := fresh "c" in
  let H := fresh "H" in
  intros c H;
  match goal with
  | |- Str.eqb ?a c = false =>
      destruct (Str.eqb a c) eqn:E; [|reflexivity];
      apply Ascii.eqb_eq in E; subst c; discriminate H
  end.

Lemma no_square_footage : findall (re square_footage_pattern) phrase = [].
Proof.
  apply (findall_without_hit (Str.eqb "s"%char)); [reflexivity|].
  apply phrase_lacks; [class_tac|class_tac|reflexivity].
Qed.

Lemma no_team_of : findall (re team_of_pattern) phrase = [].
Proof.
  apply (findall_without_hit (Str.eqb "t"%char)); [reflexivity|].
  apply phrase_lacks; [class_tac|class_tac|reflexivity].
Qed.

Lemma no_employees : findall (re employees_pattern) phrase = [].
Proof.
  apply (findall_without_hit (Str.eqb "m"%char)); [reflexivity|].
  apply phrase_lacks; [class_tac|class_tac|reflexivity].
Qed.

Lemma people_match_here :
  match_here (re people_pattern) phrase = Some (Some digits, []).
Proof.
  destruct digits_run as [Hne Hd].
  unfold phrase. destruct digits as [|d ds] eqn:Ed; [congruence|].
  cbn [forallb] in Hd. apply andb_true_iff in Hd. destruct Hd as [Hd0 Hds].
  unfold match_here, people_pattern. cbn [re seqs m plus app one].
  rewrite Hd0.
  apply (star_one_greedy Str.is_digit _ _ (blanks ++ lit "people")).
  - destruct blanks as [|b bs]; [reflexivity|].
    cbn [forallb] in blanks_blank. apply andb_true_iff in blanks_blank.
    cbn [app stops].
    destruct (Str.is_digit b) eqn:Eb; [|reflexivity].
    rewrite (digit_not_space b Eb) in blanks_blank.
    destruct blanks_blank; discriminate.
  - exact Hds.
  - rewrite length_app. lia.
  - replace (length (d :: ds ++ blanks ++ lit "people")
             - length (blanks ++ lit "people"))%nat with (length (d :: ds))
      by (cbn [length]; rewrite !length_app; lia).
    change (d :: ds ++ blanks ++ lit "people")
      with ((d :: ds) ++ blanks ++ lit "people").
    rewrite firstn_app, Nat.sub_diag, firstn_all. cbn [firstn].
    rewrite app_nil_r. unfold ws. cbn [m].
    apply (star_one_greedy Str.is_space _ _ (lit "people"));
      [reflexivity|exact blanks_blank|rewrite length_app; lia|reflexivity].
Qed.

Lemma only_people : findall (re people_pattern) phrase = [digits].
Proof.
  unfold findall. cbn [findall_from]. rewrite people_match_here.
  destruct digits_run as [Hne _].
  assert (Hlt : (length (@nil ascii) <? length phrase)%nat = true).
  { apply Nat.ltb_lt. unfold phrase. rewrite length_app.
    destruct digits; [congruence|cbn [length]; lia]. }
  rewrite Hlt. cbn [group]. f_equal.
  destruct (length phrase); reflexivity.
Qed.

(** The scan of [N people] has one match: the people count [N]. *)
Lemma phrase_scan : size_scan phrase = [(people_pattern, digits)].
Proof.
  unfold size_scan, size_patterns. cbn [flat_map].
  rewrite no_square_footage, only_people, no_team_of, no_employees.
  reflexivity.
Qed.

Lemma phrase_lower : conversation_text [phrase] = phrase.
Proof.
  unfold conversation_text. cbn [Str.join]. apply lower_fixed.
  unfold phrase. rewrite !forallb_app.
  assert (H1 : forallb (fun c => negb (Str.is_upper c)) digits = true).
  { apply forallb_forall. intros c Hc. apply negb_true_iff.
    apply digit_not_upper.
    exact (proj1 (forallb_forall _ _) (proj2 digits_run) c Hc). }
  assert (H2 : forallb (fun c => negb (Str.is_upper c)) blanks = true).
  { apply forallb_forall. intros c Hc. apply negb_true_iff.
    apply BlankFacts.space_not_upper.
    exact (proj1 (forallb_forall _ _) blanks_blank c Hc). }
  rewrite H1, H2. reflexivity.
Qed.

End HeadCount.

(** The outcome of extraction on the text [N people]. *)
Lemma head_count_outcome (digits blanks : str) :
  digit_run digits ->
  forallb Str.is_space blanks = true ->
  match
    (if (Z.of_nat (length digits) <=? Num.int_max_str_digits)%Z
     then Some (Num.digits_val digits) else None)
  with
  | Some n =>
      if (n * 125 <? Num.float_overflow)%Z
      then exists r,
             _extract_requirements [digits ++ blanks ++ lit "people"] = Return r
             /\ min_size r = Some (inject_Z (n * 125))
             /\ max_size r = Some (inject_Z (n * 125) * (3 # 2))
      else _extract_requirements [digits ++ blanks ++ lit "people"]
           = Raise OverflowError
  | None =>
      exists r,
        _extract_requirements [digits ++ blanks ++ lit "people"] = Return r
        /\ min_size r = None /\ max_size r = None
  end.
Proof.
  intros Hd Hb.
  assert (Hscan : size_scan (conversation_text [digits ++ blanks ++ lit "people"])
                  = [(people_pattern, digits)]).
  { pose proof (phrase_lower digits blanks Hd Hb) as Hl.
    pose proof (phrase_scan digits blanks Hd Hb) as Hs.
    cbv zeta in Hl, Hs. exact (eq_trans (f_equal size_scan Hl) Hs). }
  pose proof (ScanFacts.single_match_outcome _ _ _ Hscan eq_refl) as H.
  rewrite (CaptureFacts.remove_commas_digits digits (proj2 Hd)) in H.
  rewrite (CaptureFacts.digit_run_int digits Hd) in H. exact H.
Qed.

End PhraseFacts.



(** The spec's example: [25 people] gives 3125 and 4687.5. *)
Example twenty_five_people :
  exists r,
    PropertyMatchingService._extract_requirements [lit "25 people"] = Return r
    /\ PropertyMatchingService.min_size r = Some 3125
    /\ PropertyMatchingService.max_size r = Some (3125 * (3 # 2))
    /\ 3125 * (3 # 2) == 4687.5.
Proof.
  eexists. split; [vm_compute; reflexivity|].
  repeat split; vm_compute; reflexivity.
Qed.

(** A head count of 309 digits: [N * 125] is too large for a float and
    extraction raises [OverflowError]. *)
Example huge_head_count_overflows :
  PropertyMatchingService._extract_requirements
    [repeat "1"%char 309 ++ lit " people"] = Raise OverflowError.
Proof. vm_compute. reflexivity. Qed.

(** A head count of 4301 digits is over the limit of [int]:
    [_extract_requirements] skips it and sets no size bound, and
    [find_matching_properties] raises. *)
Example oversized_head_count :
  (exists r,
     PropertyMatchingService._extract_requirements
       [repeat "1"%char 4301 ++ lit " people"] = Return r
     /\ PropertyMatchingService.min_size r = None
     /\ PropertyMatchingService.max_size r = None)
  /\ FinalWebApp.find_matching_properties FinalWebApp.sample_data
       (repeat "1"%char 4301 ++ lit " people") = None.
Proof.
  split.
  - assert (Hd : digit_run (repeat "1"%char 4301))
      by (split; [discriminate|vm_compute; reflexivity]).
    pose proof (PhraseFacts.head_count_outcome (repeat "1"%char 4301) (lit " ")
                  Hd eq_refl) as H.
    assert (Hlen : (Z.of_nat (length (repeat "1"%char 4301))
                    <=? Num.int_max_str_digits)%Z = false)
      by (vm_compute; reflexivity).
    rewrite Hlen in H. exact H.
  - vm_compute. reflexivity.
Qed.


(** C9 (as amended).  On the empty string and on any text made of
    blanks only, [analyze_emotion_from_text] yields enthusiasm,
    professional, confidence and uncertainty levels 0 and emotion score
    0.5; [_basic_emotion_analysis] yields its defaults for a text
    without words: enthusiasm 0.5, professional 0.5, uncertainty 0.3,
    confidence 0.7 and emotion score 0.6. *)
Theorem emotion_of_blank_text :
  forall text : str,
    forallb Str.is_space text = true ->
    (let e := FinalWebApp.analyze_emotion_from_text text in
     enthusiasm_level e == 0
     /\ professional (tone_analysis e) == 0
     /\ confident (tone_analysis e) == 0
     /\ uncertain (tone_analysis e) == 0
     /\ excited (tone_analysis e) == 0
     /\ emotion_score e == 1 # 2)
    /\ (let t := TranscriptionService._basic_emotion_analysis text in
        enthusiasm_level t == 1 # 2
        /\ professional (tone_analysis t) == 1 # 2
        /\ uncertain (tone_analysis t) == 3 # 10
        /\ confident (tone_analysis t) == 7 # 10
        /\ emotion_score t == 6 # 10).
Proof.
  intros text Hblank.
  assert (Hhits : forall kws, forallb starts_with_nonblank kws = true ->
                              keyword_hits kws (Str.lower text) = 0%Z).
  { intros kws Hk. rewrite (BlankFacts.lower_blank text Hblank).
    apply BlankFacts.keyword_hits_blank; assumption. }
  assert (Hwords : Str.count_words (Str.lower text) = 0%nat).
  { rewrite (BlankFacts.lower_blank text Hblank).
    apply BlankFacts.count_words_blank. exact Hblank. }
  split.
  - unfold FinalWebApp.analyze_emotion_from_text. cbv zeta.
    rewrite Hwords, !Hhits by reflexivity.
    vm_compute. repeat split; reflexivity.
  - unfold TranscriptionService._basic_emotion_analysis. cbv zeta.
    rewrite Hwords. vm_compute. repeat split; reflexivity.
Qed.

Lemma emotion_of_blank_text_witness :
  forallb Str.is_space (lit "   ") = true
  /\ emotion_score (FinalWebApp.analyze_emotion_from_text (lit "   ")) == 1 # 2
  /\ emotion_score (TranscriptionService._basic_emotion_analysis (lit "   "))
     == 6 # 10.
Proof.
  split; [reflexivity|].
  pose proof (emotion_of_blank_text (lit "   ") eq_refl) as H.
  cbv zeta in H. destruct H as [(_ & _ & _ & _ & _ & H1) (_ & _ & _ & _ & H2)].
  split; [exact H1|exact H2].
Defined.

(** On the empty transcript [_basic_emotion_analysis] takes its
    no-words branch: the enthusiasm level is 0.5, not 0, and the emotion
    score is 0.6, not 0.5. *)
Lemma transcription_defaults_on_empty_text :
  enthusiasm_level (TranscriptionService._basic_emotion_analysis []) == 1 # 2
  /\ ~ enthusiasm_level (TranscriptionService._basic_emotion_analysis []) == 0
  /\ ~ emotion_score (TranscriptionService._basic_emotion_analysis []) == 1 # 2.
Proof.
  split; [vm_compute; reflexivity|].
  split; intros H; vm_compute in H; discriminate.
Qed.


(** C10 (as amended).  For every catalog whose [unique_id] values are
    pairwise distinct and every message whose people count, if it has
    one, is of at most 4300 digits, [find_matching_properties] returns a
    list in which no two records share a [unique_id].  When some
    criterion selected records, the list is the first three of the
    matches with duplicates removed: every record kept is the first
    occurrence of its identifier in detection order, and no identifier
    is lost by the removal.  On a message whose people count has more
    digits [int] raises [ValueError] and nothing is returned. *)
Theorem monolith_output_has_distinct_ids :
  forall (properties_df : list property) (message : str),
    NoDup (map unique_id properties_df) ->
    (count_readable message ->
     exists output,
       FinalWebApp.find_matching_properties properties_df message = Some output)
    /\ (~ count_readable message ->
        FinalWebApp.find_matching_properties properties_df message = None)
    /\ (forall output,
          FinalWebApp.find_matching_properties properties_df message
            = Some output ->
          NoDup (map unique_id output)
          /\ (forall matches,
                FinalWebApp.all_matches properties_df message = Some matches ->
                matches <> [] ->
                output = head3 (FinalWebApp.unique_from [] matches)
                /\ (forall p, In p (FinalWebApp.unique_from [] matches) ->
                              first_occurrence p matches)
                /\ (forall p, In p matches ->
                              In (unique_id p)
                                 (map unique_id
                                    (FinalWebApp.unique_from [] matches))))).
Proof.
  intros df message Hdistinct.
  split; [apply MonolithFacts.find_matching_returns|].
  split; [apply MonolithFacts.find_matching_raises|].
  intros output. unfold FinalWebApp.find_matching_properties.
  destruct (FinalWebApp.all_matches df message) as [matches|]; [|discriminate].
  destruct matches as [|mt rest]; intros H; injection H as <-.
  - split.
    + rewrite DedupFacts.map_head3. apply DedupFacts.NoDup_head3. exact Hdistinct.
    + intros matches' H Hne. inversion H; subst. congruence.
  - split.
    + rewrite DedupFacts.map_head3. apply DedupFacts.NoDup_head3.
      exact (DedupFacts.unique_from_NoDup (mt :: rest) []).
    + intros matches' H _. inversion H; subst. split; [reflexivity|]. split.
      * intros p Hp. exact (DedupFacts.unique_from_first _ _ _ Hp).
      * intros p Hp.
        destruct (DedupFacts.unique_from_complete _ [] p Hp) as [[]|Hr].
        exact Hr.
Qed.

Lemma monolith_output_has_distinct_ids_witness :
  NoDup (map unique_id FinalWebApp.sample_data)
  /\ count_readable (lit "20 people downtown, budget $30")
  /\ FinalWebApp.all_matches FinalWebApp.sample_data
       (lit "20 people downtown, budget $30")
     = Some [PROP001; PROP002; PROP004;
             PROP001; PROP002; PROP003; PROP004; PROP001]
  /\ FinalWebApp.find_matching_properties FinalWebApp.sample_data
       (lit "20 people downtown, budget $30")
     = Some [PROP001; PROP002; PROP004]
  /\ exists output,
       FinalWebApp.find_matching_properties FinalWebApp.sample_data
         (lit "20 people downtown, budget $30") = Some output
       /\ NoDup (map unique_id output).
Proof.
  assert (Hd : NoDup (map unique_id FinalWebApp.sample_data)).
  { repeat constructor; cbn; intuition discriminate. }
  assert (Hc : count_readable (lit "20 people downtown, budget $30")).
  { intros g Hg. vm_compute in Hg. injection Hg as <-. vm_compute. discriminate. }
  split; [exact Hd|]. split; [exact Hc|].
  split; [vm_compute; reflexivity|].
  split; [vm_compute; reflexivity|].
  destruct (monolith_output_has_distinct_ids FinalWebApp.sample_data
              (lit "20 people downtown, budget $30") Hd)
    as (Hret & _ & Hout).
  destruct (Hret Hc) as [output Ho].
  exists output. split; [exact Ho|]. exact (proj1 (Hout output Ho)).
Defined.

(** A message whose people count has 4301 digits: the count is captured
    whole, [int] refuses it, and [find_matching_properties] raises
    instead of returning a list. *)
Lemma monolith_raises_on_oversized_count :
  option_map (@length ascii)
    (FinalWebApp.first_search FinalWebApp.people_patterns
       (Str.lower (repeat "1"%char 4301 ++ lit " people")))
  = Some 4301%nat
  /\ ~ count_readable (repeat "1"%char 4301 ++ lit " people")
  /\ FinalWebApp.find_matching_properties FinalWebApp.sample_data
       (repeat "1"%char 4301 ++ lit " people") = None.
Proof.
  assert (Hg : option_map (@length ascii)
                 (FinalWebApp.first_search FinalWebApp.people_patterns
                    (Str.lower (repeat "1"%char 4301 ++ lit " people")))
               = Some 4301%nat) by (vm_compute; reflexivity).
  split; [exact Hg|]. split; [|vm_compute; reflexivity].
  intros Hc. unfold count_readable in Hc.
  destruct (FinalWebApp.first_search FinalWebApp.people_patterns
              (Str.lower (repeat "1"%char 4301 ++ lit " people")))
    as [g|]; [|discriminate].
  specialize (Hc g eq_refl). cbn [option_map] in Hg. injection Hg as Hlen.
  rewrite Hlen in Hc. vm_compute in Hc. apply Hc. reflexivity.
Qed.

(** ** The spec's scenarios *)

(** Catalog of three records, profile [2000..3000] sq ft, at most 30 per
    sq ft, downtown: the matcher returns exactly the Downtown record. *)
Example scenario_downtown_2500 :
  forall sort_values,
    PropertyMatchingService._find_matching_properties sort_values
      (Some PropertyMatchingService.sample_data)
      {| PropertyMatchingService.min_size := Some 2000;
         PropertyMatchingService.max_size := Some 3000;
         PropertyMatchingService.max_rent_per_sf := Some 30;
         PropertyMatchingService.preferred_locations := [lit "downtown"];
         PropertyMatchingService.culture_keywords := [] |}
    = [ {| PropertyMatchingService.rec := PROP001;
           PropertyMatchingService.culture_score := None |} ].
Proof. intros sort_values. vm_compute. reflexivity. Qed.

(** The twenty-employee request: 2500..3750 sq ft, 30 per sq ft,
    downtown, collaborative and modern. *)
Example scenario_twenty_employees :
  PropertyMatchingService._extract_requirements
    [lit "I need office space for 20 employees downtown, budget $30 per square foot, modern and collaborative"]
  = Return
      {| PropertyMatchingService.min_size := Some 2500;
         PropertyMatchingService.max_size := Some (2500 * (3 # 2));
         PropertyMatchingService.max_rent_per_sf := Some 30;
         PropertyMatchingService.preferred_locations := [lit "downtown"];
         PropertyMatchingService.culture_keywords :=
           [lit "collaborative"; lit "modern"] |}.
Proof. vm_compute. reflexivity. Qed.

(** An explicit square footage of four digits without separator is read
    from its last three digits: the pattern takes at most three digits
    before the unit. *)
Example four_digit_square_footage :
  PropertyMatchingService.collect_sizes (conversation_text [lit "about 2500 sq ft"])
  = [500%Z].
Proof. vm_compute. reflexivity. Qed.

(** * Further properties of the code *)

(** ** The matcher's output *)

Module OutputFacts.

Import PropertyMatchingService.

Lemma ranked_length (sort_values : list row -> list row)
    (keywords : list str) (df : list property) :
  sorts_by_score_desc sort_values ->
  length (ranked sort_values keywords df) = length df.
Proof.
  intros Hsort.
  destruct (RankFacts.ranked_spec sort_values Hsort keywords df) as (Hp & _).
  rewrite (Permutation_length Hp). unfold with_scores. apply length_map.
Qed.

Lemma head3_length {A : Type} (l : list A) :
  length (head3 l) = Nat.min 3 (length l).
Proof. unfold head3. apply length_firstn. Qed.

Lemma bound_test_holds (bound : option Q) (keep : Q -> property -> bool)
    (b : Q) (p : property) :
  bound = Some b -> ~ b == 0 -> bound_test bound keep p = true -> keep b p = true.
Proof.
  intros -> Hnz H. unfold bound_test in H.
  rewrite (MatchFacts.truthy_nonzero b Hnz) in H. exact H.
Qed.

Lemma passes_parts (req : requirements) (p : property) :
  passes req p = true ->
  bound_test (min_size req) size_at_least p = true
  /\ bound_test (max_size req) size_at_most p = true
  /\ bound_test (max_rent_per_sf req) rent_at_most p = true
  /\ location_test (preferred_locations req) p = true.
Proof.
  unfold passes. intros H.
  apply andb_true_iff in H. destruct H as [H Hl].
  apply andb_true_iff in H. destruct H as [H Hr].
  apply andb_true_iff in H. destruct H as [Hn Hx]. auto.
Qed.

Lemma culture_score_of_range (keywords : list str) (p : property) :
  (0 <= culture_score_of keywords p <= Z.of_nat (length keywords))%Z.
Proof.
  unfold culture_score_of. cbv zeta. split; [lia|].
  apply Nat2Z.inj_le. apply filter_length_le.
Qed.

Lemma culture_score_of_app (k1 k2 : list str) (p : property) :
  culture_score_of (k1 ++ k2) p
  = (culture_score_of k1 p + culture_score_of k2 p)%Z.
Proof.
  unfold culture_score_of. cbv zeta. rewrite filter_app, length_app. lia.
Qed.

Lemma with_scores_row (keywords : list str) (df : list property) (r : row) :
  In r (with_scores keywords df) ->
  In (rec r) df
  /\ culture_score r
     = match keywords with
       | [] => None
       | _ :: _ => Some (culture_score_of keywords (rec r))
       end.
Proof.
  unfold with_scores. intros H. apply in_map_iff in H.
  destruct H as (p & <- & Hp). split; [exact Hp|reflexivity].
Qed.

Lemma StronglySorted_app_inv {A : Type} (R : A -> A -> Prop) (l1 l2 : list A) :
  StronglySorted R (l1 ++ l2) ->
  StronglySorted R l1 /\ forall a b, In a l1 -> In b l2 -> R a b.
Proof.
  induction l1 as [|x l1 IH]; cbn [app]; intros H.
  - split; [constructor|]. intros a b [].
  - inversion H as [|? ? Hs Hall]; subst. destruct (IH Hs) as [Hs1 Hcross].
    rewrite Forall_forall in Hall. split.
    + constructor; [exact Hs1|]. apply Forall_forall. intros y Hy.
      apply Hall. apply in_or_app. left. exact Hy.
    + intros a b [<-|Ha] Hb.
      * apply Hall. apply in_or_app. right. exact Hb.
      * apply Hcross; assumption.
Qed.

End OutputFacts.

(** X1.  [_find_matching_properties] returns at most three rows, exactly
    [min(3, number of survivors)] of them, and every row returned is a
    row of the table that passed the filters. *)
Theorem matcher_output_size_and_origin :
  forall (sort_values : list PropertyMatchingService.row
                        -> list PropertyMatchingService.row)
         (properties_df : list property)
         (req : PropertyMatchingService.requirements),
    sorts_by_score_desc sort_values ->
    let output :=
      PropertyMatchingService._find_matching_properties sort_values
        (Some properties_df) req in
    length output
      = Nat.min 3 (length (PropertyMatchingService.filtered req properties_df))
    /\ (length output <= 3)%nat
    /\ (length output <= length properties_df)%nat
    /\ (forall r, In r output ->
          In (PropertyMatchingService.rec r) properties_df
          /\ In (PropertyMatchingService.rec r)
                (PropertyMatchingService.filtered req properties_df)).
Proof.
  intros sort_values df req Hsort output.
  assert (Hlen : length output
                 = Nat.min 3 (length (PropertyMatchingService.filtered req df))).
  { subst output. rewrite (RankFacts.find_matching_head3 sort_values Hsort),
      OutputFacts.head3_length, (OutputFacts.ranked_length sort_values _ _ Hsort).
    reflexivity. }
  assert (Hsub : (length (PropertyMatchingService.filtered req df) <= length df)%nat).
  { rewrite MatchFacts.filtered_passes. apply filter_length_le. }
  split; [exact Hlen|]. split; [lia|]. split; [lia|].
  intros r Hr.
  destruct (RankFacts.output_row_passes sort_values Hsort req df r Hr)
    as [Hin Hp].
  split; [exact Hin|]. rewrite MatchFacts.filtered_passes.
  apply filter_In. split; assumption.
Qed.

Lemma matcher_output_size_and_origin_witness :
  let req :=
    {| PropertyMatchingService.min_size := Some 2000;
       PropertyMatchingService.max_size := None;
       PropertyMatchingService.max_rent_per_sf := None;
       PropertyMatchingService.preferred_locations := [];
       PropertyMatchingService.culture_keywords := [lit "tech"] |} in
  PropertyMatchingService.filtered req PropertyMatchingService.sample_data
    = [PROP001; PROP002]
  /\ length (PropertyMatchingService._find_matching_properties
               Sorts.sort_reversing_ties
               (Some PropertyMatchingService.sample_data) req) = 2%nat.
Proof.
  intros req.
  assert (Hf : PropertyMatchingService.filtered req
                 PropertyMatchingService.sample_data = [PROP001; PROP002])
    by (vm_compute; reflexivity).
  split; [exact Hf|].
  pose proof (matcher_output_size_and_origin Sorts.sort_reversing_ties
                PropertyMatchingService.sample_data req
                RankFacts.sort_reversing_ties_sorts) as H.
  cbv zeta in H. destruct H as [H _]. rewrite H, Hf. reflexivity.
Defined.

(** X2.  Every row returned by [_find_matching_properties] meets the
    bounds of the profile that are set and not zero: its size is at
    least [min_size] and at most [max_size], and when the location list
    is not empty and made of plain terms (no character special to
    regular expressions) its address holds one of the locations,
    whatever the case. *)
Theorem matcher_output_meets_size_and_location :
  forall (sort_values : list PropertyMatchingService.row
                        -> list PropertyMatchingService.row)
         (properties_df : list property)
         (req : PropertyMatchingService.requirements)
         (r : PropertyMatchingService.row),
    sorts_by_score_desc sort_values ->
    In r (PropertyMatchingService._find_matching_properties sort_values
            (Some properties_df) req) ->
    (forall a, PropertyMatchingService.min_size req = Some a -> ~ a == 0 ->
               a <= size_sf (PropertyMatchingService.rec r))
    /\ (forall b, PropertyMatchingService.max_size req = Some b -> ~ b == 0 ->
                  size_sf (PropertyMatchingService.rec r) <= b)
    /\ (PropertyMatchingService.preferred_locations req <> [] ->
        Forall plain_term (PropertyMatchingService.preferred_locations req) ->
        address_has_one_of (PropertyMatchingService.preferred_locations req)
                           (PropertyMatchingService.rec r)).
Proof.
  intros sort_values df req r Hsort Hr.
  destruct (RankFacts.output_row_passes sort_values Hsort req df r Hr)
    as [_ Hp].
  destruct (OutputFacts.passes_parts req _ Hp) as (Hmin & Hmax & _ & Hloc).
  split; [|split].
  - intros a Ha Hnz. apply Qle_bool_iff.
    exact (OutputFacts.bound_test_holds _ _ a _ Ha Hnz Hmin).
  - intros b Hb Hnz. apply Qle_bool_iff.
    exact (OutputFacts.bound_test_holds _ _ b _ Hb Hnz Hmax).
  - intros Hne _. unfold location_test in Hloc.
    destruct (PropertyMatchingService.preferred_locations req) as [|t ts] eqn:E;
      [congruence|].
    unfold PropertyMatchingService.location_mask in Hloc.
    apply existsb_exists in Hloc. destruct Hloc as (term & Hin & Hc).
    exists term. split; assumption.
Qed.

Lemma matcher_output_meets_size_and_location_witness :
  let req :=
    {| PropertyMatchingService.min_size := Some 2000;
       PropertyMatchingService.max_size := Some 3000;
       PropertyMatchingService.max_rent_per_sf := None;
       PropertyMatchingService.preferred_locations := [lit "Downtown"; lit "harbor"];
       PropertyMatchingService.culture_keywords := [] |} in
  let r := {| PropertyMatchingService.rec := PROP001;
              PropertyMatchingService.culture_score := None |} in
  In r (PropertyMatchingService._find_matching_properties Sorts.sort_keeping_ties
          (Some PropertyMatchingService.sample_data) req)
  /\ Forall plain_term [lit "Downtown"; lit "harbor"]
  /\ 2000 <= size_sf PROP001
  /\ size_sf PROP001 <= 3000
  /\ address_has_one_of [lit "Downtown"; lit "harbor"] PROP001.
Proof.
  intros req r.
  assert (Hin : In r (PropertyMatchingService._find_matching_properties
                        Sorts.sort_keeping_ties
                        (Some PropertyMatchingService.sample_data) req))
    by (vm_compute; left; reflexivity).
  assert (Hplain : Forall plain_term [lit "Downtown"; lit "harbor"])
    by (repeat constructor).
  destruct (matcher_output_meets_size_and_location Sorts.sort_keeping_ties
              PropertyMatchingService.sample_data req r
              RankFacts.sort_keeping_ties_sorts Hin) as (H1 & H2 & H3).
  split; [exact Hin|]. split; [exact Hplain|]. split; [|split].
  - apply (H1 2000 eq_refl). intros H. vm_compute in H. discriminate.
  - apply (H2 3000 eq_refl). intros H. vm_compute in H. discriminate.
  - apply H3; [discriminate|exact Hplain].
Defined.

(** X3.  Ranking by culture score.  Every row returned carries the
    number of culture keywords found in its address, counted with
    repetitions, a number between 0 and the number of keywords; the
    scores never increase along the output; and no surviving row that
    was left out has a higher score than a row returned. *)
Theorem matcher_output_ranks_best_first :
  forall (sort_values : list PropertyMatchingService.row
                        -> list PropertyMatchingService.row)
         (properties_df : list property)
         (req : PropertyMatchingService.requirements),
    sorts_by_score_desc sort_values ->
    let keywords := PropertyMatchingService.culture_keywords req in
    let output :=
      PropertyMatchingService._find_matching_properties sort_values
        (Some properties_df) req in
    (forall r, In r output ->
       PropertyMatchingService.culture_score r
       = match keywords with
         | [] => None
         | _ :: _ =>
             Some (PropertyMatchingService.culture_score_of keywords
                     (PropertyMatchingService.rec r))
         end
       /\ (0 <= PropertyMatchingService.score_of r <= Z.of_nat (length keywords))%Z)
    /\ StronglySorted score_desc output
    /\ (exists left_out,
          Permutation (output ++ left_out)
            (PropertyMatchingService.with_scores keywords
               (PropertyMatchingService.filtered req properties_df))
          /\ forall r s, In r output -> In s left_out -> score_desc r s)
    /\ (forall k1 k2 p,
          PropertyMatchingService.culture_score_of (k1 ++ k2) p
          = (PropertyMatchingService.culture_score_of k1 p
             + PropertyMatchingService.culture_score_of k2 p)%Z).
Proof.
  intros sort_values df req Hsort keywords output.
  set (survivors := PropertyMatchingService.filtered req df).
  set (sorted := PropertyMatchingService.ranked sort_values keywords survivors).
  assert (Hout : output = firstn 3 sorted).
  { subst output sorted survivors keywords.
    apply (RankFacts.find_matching_head3 sort_values Hsort). }
  destruct (RankFacts.ranked_spec sort_values Hsort keywords survivors)
    as (Hperm & Hsorted).
  fold sorted in Hperm, Hsorted.
  assert (Hsplit : sorted = output ++ skipn 3 sorted)
    by (rewrite Hout; symmetry; apply firstn_skipn).
  rewrite Hsplit in Hsorted.
  destruct (OutputFacts.StronglySorted_app_inv _ _ _ Hsorted) as [Hs1 Hcross].
  split; [|split; [exact Hs1|split]].
  - intros r Hr.
    assert (Hin : In r (PropertyMatchingService.with_scores keywords survivors)).
    { apply (Permutation_in _ Hperm). rewrite Hsplit.
      apply in_or_app. left. exact Hr. }
    destruct (OutputFacts.with_scores_row _ _ _ Hin) as [_ Hscore].
    split; [exact Hscore|].
    unfold PropertyMatchingService.score_of. rewrite Hscore.
    destruct keywords; [cbn [length]; lia|].
    apply OutputFacts.culture_score_of_range.
  - exists (skipn 3 sorted). split.
    + rewrite <- Hsplit. exact Hperm.
    + intros r s Hr Hs. apply Hcross; assumption.
  - apply OutputFacts.culture_score_of_app.
Qed.

Lemma matcher_output_ranks_best_first_witness :
  StronglySorted score_desc
    (PropertyMatchingService._find_matching_properties Sorts.sort_reversing_ties
       (Some FinalWebApp.sample_data)
       {| PropertyMatchingService.min_size := None;
          PropertyMatchingService.max_size := None;
          PropertyMatchingService.max_rent_per_sf := None;
          PropertyMatchingService.preferred_locations := [];
          PropertyMatchingService.culture_keywords :=
            [lit "tech"; lit "creative"] |}).
Proof.
  exact (proj1 (proj2 (matcher_output_ranks_best_first Sorts.sort_reversing_ties
                         FinalWebApp.sample_data
                         {| PropertyMatchingService.min_size := None;
                            PropertyMatchingService.max_size := None;
                            PropertyMatchingService.max_rent_per_sf := None;
                            PropertyMatchingService.preferred_locations := [];
                            PropertyMatchingService.culture_keywords :=
                              [lit "tech"; lit "creative"] |}
                         RankFacts.sort_reversing_ties_sorts))).
Defined.

(** ** What the emotion adjustment changes *)

Module AdjustFacts.

Import PropertyMatchingService.

Lemma scale_if_truthy_none_iff (x : option Q) (f : Q) :
  scale_if_truthy x f = None <-> x = None.
Proof.
  unfold scale_if_truthy. destruct x as [v|]; [|tauto].
  destruct (Num.truthy (Some v)); split; discriminate.
Qed.

Lemma apply_emotion_filters_keywords (r : requirements) (e : emotion_data) :
  exists added,
    culture_keywords (_apply_emotion_filters r e) = culture_keywords r ++ added
    /\ (length added <= 5)%nat
    /\ incl added (map lit ["modern"; "innovative"; "tech";
                            "professional"; "corporate"]%string).
Proof.
  unfold _apply_emotion_filters. cbv zeta.
  destruct (gt (get (ed_enthusiasm_level e) (1 # 2)) (7 # 10));
    destruct (gt (get (ed_tone_excited e) 0) (6 # 10));
    destruct (gt (get (ed_tone_professional e) 0) (7 # 10));
    cbn [culture_keywords];
    first
      [ exists (map lit ["modern"; "innovative"; "tech";
                         "professional"; "corporate"]%string);
        (split; [rewrite <- app_assoc; reflexivity|]);
        split; [cbn; lia|apply incl_refl]
      | exists (map lit ["modern"; "innovative"; "tech"]%string);
        (split; [reflexivity|]);
        split; [cbn; lia|intros x Hx; cbn in *; tauto]
      | exists (map lit ["professional"; "corporate"]%string);
        (split; [reflexivity|]);
        split; [cbn; lia|intros x Hx; cbn in *; tauto]
      | exists [];
        (split; [symmetry; apply app_nil_r|]);
        split; [cbn; lia|intros x []] ].
Qed.

Lemma apply_emotion_filters_locations (r : requirements) (e : emotion_data) :
  preferred_locations (_apply_emotion_filters r e) = preferred_locations r.
Proof.
  unfold _apply_emotion_filters. cbv zeta.
  destruct (gt (get (ed_enthusiasm_level e) (1 # 2)) (7 # 10)); reflexivity.
Qed.



End AdjustFacts.

(** X4.  [_apply_emotion_filters] never invents a bound and never
    tightens one: [min_size] and the locations are left as they are, an
    absent [max_size] or [max_rent_per_sf] stays absent and a set one
    stays set, and the culture keywords are kept in place with at most
    five keywords, all from the fixed list, added after them. *)
Theorem emotion_filters_keep_the_profile :
  forall (r : PropertyMatchingService.requirements)
         (e : PropertyMatchingService.emotion_data),
    let r' := PropertyMatchingService._apply_emotion_filters r e in
    PropertyMatchingService.min_size r' = PropertyMatchingService.min_size r
    /\ PropertyMatchingService.preferred_locations r'
       = PropertyMatchingService.preferred_locations r
    /\ (PropertyMatchingService.max_size r' = None
        <-> PropertyMatchingService.max_size r = None)
    /\ (PropertyMatchingService.max_rent_per_sf r' = None
        <-> PropertyMatchingService.max_rent_per_sf r = None)
    /\ exists added,
         PropertyMatchingService.culture_keywords r'
         = PropertyMatchingService.culture_keywords r ++ added
         /\ (length added <= 5)%nat
         /\ incl added (map lit ["modern"; "innovative"; "tech";
                                 "professional"; "corporate"]%string).
Proof.
  intros r e r'.
  destruct (EmotionFacts.apply_emotion_filters_bounds r e) as (Emin & Emax & Erent).
  fold r' in Emin, Emax, Erent.
  split; [exact Emin|].
  split; [apply AdjustFacts.apply_emotion_filters_locations|].
  split; [|split].
  - destruct Emax as [->| ->]; [tauto|apply AdjustFacts.scale_if_truthy_none_iff].
  - destruct Erent as [->| ->]; [tauto|apply AdjustFacts.scale_if_truthy_none_iff].
  - apply AdjustFacts.apply_emotion_filters_keywords.
Qed.



(** ** Letter case and growing conversations *)

Module TextFacts.

Lemma code_of_nat (n : nat) : (n < 256)%nat -> Str.code (ascii_of_nat n) = n.
Proof. intros H. unfold Str.code. apply nat_ascii_embedding. exact H. Qed.

Lemma lower_char_idem (c : ascii) :
  Str.lower_char (Str.lower_char c) = Str.lower_char c.
Proof.
  unfold Str.lower_char. destruct (Str.is_upper c) eqn:E; [|rewrite E; reflexivity].
  assert (Hu : Str.is_upper (ascii_of_nat (Str.code c + 32)) = false).
  { unfold Str.is_upper in *. apply andb_true_iff in E. destruct E as [E1 E2].
    apply Nat.leb_le in E1, E2. rewrite code_of_nat by lia.
    apply andb_false_iff. right. apply Nat.leb_gt. lia. }
  rewrite Hu. reflexivity.
Qed.

Lemma lower_idem (s : str) : Str.lower (Str.lower s) = Str.lower s.
Proof.
  unfold Str.lower. rewrite map_map. apply map_ext. apply lower_char_idem.
Qed.

Lemma lower_app (a b : str) : Str.lower (a ++ b) = Str.lower a ++ Str.lower b.
Proof. unfold Str.lower. apply map_app. Qed.

Lemma lower_join (sep : str) (parts : list str) :
  Str.lower (Str.join sep parts) = Str.join (Str.lower sep) (map Str.lower parts).
Proof.
  induction parts as [|p rest IH]; [reflexivity|].
  destruct rest as [|q rest]; [reflexivity|].
  change (Str.join sep (p :: q :: rest)) with (p ++ sep ++ Str.join sep (q :: rest)).
  rewrite !lower_app, IH. reflexivity.
Qed.

Lemma conversation_text_lower (conversation_history : list str) :
  conversation_text conversation_history
  = Str.join (lit " ") (map Str.lower conversation_history).
Proof. unfold conversation_text. apply lower_join. Qed.

Lemma starts_with_app (sub a b : str) :
  Str.starts_with sub a = true -> Str.starts_with sub (a ++ b) = true.
Proof.
  revert a. induction sub as [|c sub IH]; intros a H; [reflexivity|].
  destruct a as [|x a]; [discriminate|]. cbn [Str.starts_with app] in *.
  apply andb_true_iff in H. destruct H as [H1 H2].
  rewrite H1, (IH a H2). reflexivity.
Qed.

Lemma contains_app_l (sub a b : str) :
  Str.contains sub a = true -> Str.contains sub (a ++ b) = true.
Proof.
  induction a as [|x a IH]; intros H.
  - cbn in H. rewrite orb_false_r in H.
    destruct sub as [|c sub]; [|discriminate]. destruct b; reflexivity.
  - cbn [Str.contains app] in *. apply orb_true_iff in H. apply orb_true_iff.
    destruct H as [H|H]; [left; apply (starts_with_app _ (x :: a)); exact H|].
    right. exact (IH H).
Qed.

Lemma contains_app_r (sub a b : str) :
  Str.contains sub b = true -> Str.contains sub (a ++ b) = true.
Proof.
  intros H. induction a as [|x a IH]; [exact H|].
  cbn [Str.contains app]. rewrite IH. apply orb_true_r.
Qed.

Lemma join_snoc (sep : str) (parts : list str) (last : str) :
  parts <> [] ->
  Str.join sep (parts ++ [last]) = Str.join sep parts ++ sep ++ last.
Proof.
  induction parts as [|p rest IH]; [congruence|]. intros _.
  destruct rest as [|q rest]; [reflexivity|].
  change (Str.join sep ((p :: q :: rest) ++ [last]))
    with (p ++ sep ++ Str.join sep ((q :: rest) ++ [last])).
  rewrite IH by discriminate.
  change (Str.join sep (p :: q :: rest)) with (p ++ sep ++ Str.join sep (q :: rest)).
  rewrite <- !app_assoc. reflexivity.
Qed.

(** A word found in the conversation is still found after one more
    turn. *)
Lemma contains_after_turn (sub : str) (conversation_history : list str)
    (turn : str) :
  Str.contains sub (conversation_text conversation_history) = true ->
  Str.contains sub (conversation_text (conversation_history ++ [turn])) = true.
Proof.
  unfold conversation_text. destruct conversation_history as [|p rest].
  - cbn [app Str.join]. intros H.
    apply (contains_app_l sub [] (Str.lower turn)). exact H.
  - rewrite join_snoc by discriminate. rewrite lower_app.
    apply contains_app_l.
Qed.

Lemma keywords_in_after_turn (vocabulary : list str)
    (conversation_history : list str) (turn keyword : str) :
  In keyword (PropertyMatchingService.keywords_in vocabulary
                (conversation_text conversation_history)) ->
  In keyword (PropertyMatchingService.keywords_in vocabulary
                (conversation_text (conversation_history ++ [turn]))).
Proof.
  unfold PropertyMatchingService.keywords_in. intros H.
  apply filter_In in H. destruct H as [Hin Hc]. apply filter_In.
  split; [exact Hin|apply contains_after_turn; exact Hc].
Qed.

Lemma extract_same_text (h1 h2 : list str) :
  conversation_text h1 = conversation_text h2 ->
  PropertyMatchingService._extract_requirements h1
  = PropertyMatchingService._extract_requirements h2.
Proof.
  unfold PropertyMatchingService._extract_requirements. cbv zeta.
  change (Str.lower (Str.join (lit " ") h1)) with (conversation_text h1).
  change (Str.lower (Str.join (lit " ") h2)) with (conversation_text h2).
  intros ->. reflexivity.
Qed.

End TextFacts.

(** X6.  A location or culture keyword detected in a conversation is
    still detected when the conversation goes on: the keywords of the
    profile extracted from the history are among those of the profile
    extracted from the history followed by one more message. *)
Theorem keywords_persist_when_conversation_grows :
  forall (conversation_history : list str) (new_message keyword : str)
         (r r' : PropertyMatchingService.requirements),
    PropertyMatchingService._extract_requirements conversation_history
      = Return r ->
    PropertyMatchingService._extract_requirements
      (conversation_history ++ [new_message]) = Return r' ->
    (In keyword (PropertyMatchingService.preferred_locations r) ->
     In keyword (PropertyMatchingService.preferred_locations r'))
    /\ (In keyword (PropertyMatchingService.culture_keywords r) ->
        In keyword (PropertyMatchingService.culture_keywords r')).
Proof.
  intros history turn keyword r r' Hr Hr'.
  destruct (ExtractFacts.extract_fields history r Hr) as (_ & _ & El & Ec).
  destruct (ExtractFacts.extract_fields (history ++ [turn]) r' Hr')
    as (_ & _ & El' & Ec').
  cbv zeta in El, Ec, El', Ec'. rewrite El, Ec, El', Ec'.
  split; apply TextFacts.keywords_in_after_turn.
Qed.

Lemma keywords_persist_when_conversation_grows_witness :
  exists r r',
    PropertyMatchingService._extract_requirements
      [lit "Something Downtown please"] = Return r
    /\ PropertyMatchingService._extract_requirements
         ([lit "Something Downtown please"] ++ [lit "for 12 people"])
       = Return r'
    /\ In (lit "downtown") (PropertyMatchingService.preferred_locations r)
    /\ In (lit "downtown") (PropertyMatchingService.preferred_locations r').
Proof.
  destruct (PropertyMatchingService._extract_requirements
              [lit "Something Downtown please"]) as [r|x] eqn:Er;
    [|vm_compute in Er; discriminate].
  destruct (PropertyMatchingService._extract_requirements
              ([lit "Something Downtown please"] ++ [lit "for 12 people"]))
    as [r'|x] eqn:Er'; [|vm_compute in Er'; discriminate].
  exists r, r'. split; [reflexivity|]. split; [reflexivity|].
  assert (H : In (lit "downtown") (PropertyMatchingService.preferred_locations r)).
  { vm_compute in Er. injection Er as <-. left. reflexivity. }
  split; [exact H|].
  exact (proj1 (keywords_persist_when_conversation_grows
                  [lit "Something Downtown please"] (lit "for 12 people")
                  (lit "downtown") r r' Er Er') H).
Defined.

(** X7.  Letter case never matters: conversations whose messages agree
    up to case give the same requirements, and messages that agree up
    to case give the same matches in [find_matching_properties] and the
    same emotion analysis in [analyze_emotion_from_text] and
    [_basic_emotion_analysis]. *)
Theorem text_heuristics_ignore_case :
  (forall h1 h2 : list str,
      map Str.lower h1 = map Str.lower h2 ->
      PropertyMatchingService._extract_requirements h1
      = PropertyMatchingService._extract_requirements h2)
  /\ (forall (properties_df : list property) (m1 m2 : str),
        Str.lower m1 = Str.lower m2 ->
        FinalWebApp.find_matching_properties properties_df m1
        = FinalWebApp.find_matching_properties properties_df m2)
  /\ (forall t1 t2 : str,
        Str.lower t1 = Str.lower t2 ->
        FinalWebApp.analyze_emotion_from_text t1
        = FinalWebApp.analyze_emotion_from_text t2
        /\ TranscriptionService._basic_emotion_analysis t1
           = TranscriptionService._basic_emotion_analysis t2).
Proof.
  split; [|split].
  - intros h1 h2 H. apply TextFacts.extract_same_text.
    rewrite !TextFacts.conversation_text_lower, H. reflexivity.
  - intros df m1 m2 H.
    unfold FinalWebApp.find_matching_properties, FinalWebApp.all_matches.
    cbv zeta. rewrite H. reflexivity.
  - intros t1 t2 H. split.
    + unfold FinalWebApp.analyze_emotion_from_text. cbv zeta. rewrite H.
      reflexivity.
    + unfold TranscriptionService._basic_emotion_analysis. cbv zeta. rewrite H.
      reflexivity.
Qed.

Lemma text_heuristics_ignore_case_witness :
  (map Str.lower [lit "Downtown, 20 EMPLOYEES"] = map Str.lower [lit "downtown, 20 employees"]
   /\ PropertyMatchingService._extract_requirements [lit "Downtown, 20 EMPLOYEES"]
      = PropertyMatchingService._extract_requirements [lit "downtown, 20 employees"])
  /\ FinalWebApp.find_matching_properties FinalWebApp.sample_data (lit "UPTOWN")
     = FinalWebApp.find_matching_properties FinalWebApp.sample_data (lit "uptown")
  /\ FinalWebApp.analyze_emotion_from_text (lit "I LOVE it")
     = FinalWebApp.analyze_emotion_from_text (lit "i love it").
Proof.
  split; [|split].
  - assert (H : map Str.lower [lit "Downtown, 20 EMPLOYEES"]
                = map Str.lower [lit "downtown, 20 employees"])
      by (vm_compute; reflexivity).
    split; [exact H|].
    exact (proj1 text_heuristics_ignore_case _ _ H).
  - apply (proj1 (proj2 text_heuristics_ignore_case)). vm_compute. reflexivity.
  - apply (proj2 (proj2 text_heuristics_ignore_case)). vm_compute. reflexivity.
Defined.


(** X8.  [find_matching_properties] returns for every message whose
    people count, if it has one, is of at most 4300 digits (on the
    others [int] raises [ValueError]).  What it returns has at most
    three records, all of them records of the catalog, and at least one
    record whenever the catalog is not empty: when no criterion selects
    anything the first records of the catalog are returned. *)
Theorem monolith_output_size_and_origin :
  forall (properties_df : list property) (message : str),
    (count_readable message ->
     exists output,
       FinalWebApp.find_matching_properties properties_df message = Some output)
    /\ (~ count_readable message ->
        FinalWebApp.find_matching_properties properties_df message = None)
    /\ (forall output,
          FinalWebApp.find_matching_properties properties_df message
            = Some output ->
          (length output <= 3)%nat
          /\ (forall p, In p output -> In p properties_df)
          /\ (properties_df <> [] -> output <> [])).
Proof.
  intros df message.
  split; [apply MonolithFacts.find_matching_returns|].
  split; [apply MonolithFacts.find_matching_raises|].
  intros output Ho. exact (MonolithFacts.find_matching_facts df message output Ho).
Qed.

Lemma monolith_output_size_and_origin_witness :
  FinalWebApp.sample_data <> []
  /\ count_readable (lit "anything for 3 people?")
  /\ exists output,
       FinalWebApp.find_matching_properties FinalWebApp.sample_data
         (lit "anything for 3 people?") = Some output
       /\ output <> [].
Proof.
  assert (Hne : FinalWebApp.sample_data <> []) by discriminate.
  assert (Hc : count_readable (lit "anything for 3 people?")).
  { intros g Hg. vm_compute in Hg. injection Hg as <-. vm_compute. discriminate. }
  split; [exact Hne|]. split; [exact Hc|].
  destruct (monolith_output_size_and_origin FinalWebApp.sample_data
              (lit "anything for 3 people?")) as (Hret & _ & Hfacts).
  destruct (Hret Hc) as [output Ho].
  exists output. split; [exact Ho|].
  exact (proj2 (proj2 (Hfacts output Ho)) Hne).
Defined.

(** ** Ranges of the emotion values *)

Module RangeFacts.

Lemma keyword_hits_nonneg (keywords : list str) (text_lower : str) :
  (0 <= keyword_hits keywords text_lower)%Z.
Proof. unfold keyword_hits. lia. Qed.

Lemma level_unit (hits word_count : Z) (scale : Q) :
  (0 <= hits)%Z -> (0 < word_count)%Z -> 0 <= scale ->
  unit_interval (level hits word_count scale).
Proof.
  intros Hh Hw Hs. unfold level, unit_interval. split.
  - apply Q.min_glb; [|discriminate].
    apply Qmult_le_0_compat; [|exact Hs].
    apply Qle_shift_div_l; [apply NumFacts.inject_Z_pos; exact Hw|].
    rewrite Qmult_0_l. apply NumFacts.inject_Z_nonneg. exact Hh.
  - apply Q.le_min_r.
Qed.

End RangeFacts.

(** X9.  For every text, [analyze_emotion_from_text] returns
    enthusiasm, professional, confidence and uncertainty levels and an
    emotion score between 0 and 1, and a voice pace between 0.8 and
    1.2. *)
Theorem analyze_emotion_ranges :
  forall text : str,
    let e := FinalWebApp.analyze_emotion_from_text text in
    unit_interval (emotion_score e)
    /\ unit_interval (enthusiasm_level e)
    /\ unit_interval (professional (tone_analysis e))
    /\ unit_interval (excited (tone_analysis e))
    /\ unit_interval (confident (tone_analysis e))
    /\ unit_interval (uncertain (tone_analysis e))
    /\ 8 # 10 <= voice_pace e /\ voice_pace e <= 12 # 10.
Proof.
  intros text. unfold FinalWebApp.analyze_emotion_from_text. cbv zeta.
  set (t := Str.lower text).
  set (wc := Z.max (Z.of_nat (Str.count_words t)) 1).
  assert (Hwc : (0 < wc)%Z) by (subst wc; lia).
  pose proof (RangeFacts.level_unit _ wc 8
                (RangeFacts.keyword_hits_nonneg FinalWebApp.enthusiasm_keywords t)
                Hwc ltac:(discriminate)) as He.
  pose proof (RangeFacts.level_unit _ wc 5
                (RangeFacts.keyword_hits_nonneg FinalWebApp.professional_keywords t)
                Hwc ltac:(discriminate)) as Hp.
  pose proof (RangeFacts.level_unit _ wc 8
                (RangeFacts.keyword_hits_nonneg FinalWebApp.uncertainty_keywords t)
                Hwc ltac:(discriminate)) as Hu.
  pose proof (RangeFacts.level_unit _ wc 8
                (RangeFacts.keyword_hits_nonneg FinalWebApp.confidence_keywords t)
                Hwc ltac:(discriminate)) as Hc.
  cbn [emotion_score enthusiasm_level voice_pace tone_analysis professional
       excited confident uncertain].
  set (en := level (keyword_hits FinalWebApp.enthusiasm_keywords t) wc 8) in *.
  unfold unit_interval in He.
  repeat split; try (apply He); try (apply Hp); try (apply Hu); try (apply Hc).
  - apply Q.le_max_l.
  - apply Q.max_lub; [discriminate|apply Q.le_min_l].
  - lra.
  - lra.
Qed.

(** X10.  For every transcript, [_basic_emotion_analysis] returns
    levels and an emotion score between 0 and 1, and its confidence is
    always one minus its uncertainty, its excited tone is its
    enthusiasm level and its voice pace is 1. *)
Theorem basic_emotion_ranges :
  forall transcript : str,
    let e := TranscriptionService._basic_emotion_analysis transcript in
    unit_interval (emotion_score e)
    /\ unit_interval (enthusiasm_level e)
    /\ unit_interval (professional (tone_analysis e))
    /\ unit_interval (uncertain (tone_analysis e))
    /\ unit_interval (confident (tone_analysis e))
    /\ confident (tone_analysis e) == 1 - uncertain (tone_analysis e)
    /\ excited (tone_analysis e) = enthusiasm_level e
    /\ voice_pace e = 1.
Proof.
  intros transcript. unfold TranscriptionService._basic_emotion_analysis. cbv zeta.
  set (t := Str.lower transcript).
  set (wc := Z.of_nat (Str.count_words t)).
  destruct (0 <? wc)%Z eqn:E.
  - apply Z.ltb_lt in E.
    pose proof (RangeFacts.level_unit _ wc 10
                  (RangeFacts.keyword_hits_nonneg
                     TranscriptionService.enthusiasm_keywords t)
                  E ltac:(discriminate)) as He.
    pose proof (RangeFacts.level_unit _ wc 10
                  (RangeFacts.keyword_hits_nonneg
                     TranscriptionService.professional_keywords t)
                  E ltac:(discriminate)) as Hp.
    pose proof (RangeFacts.level_unit _ wc 10
                  (RangeFacts.keyword_hits_nonneg
                     TranscriptionService.uncertainty_keywords t)
                  E ltac:(discriminate)) as Hu.
    cbn [emotion_score enthusiasm_level voice_pace tone_analysis professional
         excited confident uncertain].
    set (en := level (keyword_hits TranscriptionService.enthusiasm_keywords t) wc 10)
      in *.
    set (un := level (keyword_hits TranscriptionService.uncertainty_keywords t) wc 10)
      in *.
    unfold unit_interval in *.
    repeat split; try (apply He); try (apply Hp); try (apply Hu); try lra.
  - cbn [emotion_score enthusiasm_level voice_pace tone_analysis professional
         excited confident uncertain].
    unfold unit_interval. repeat split; try lra; try reflexivity.
Qed.

(** ** Explicit square footage *)

Module FootageFacts.

Import PropertyMatchingService.

Lemma lang_star_comma (r : regex) (w : str) :
  lang (Star (Seq (Chr ","%char) r)) w ->
  w = [] \/ exists rest, w = ","%char :: rest.
Proof.
  intros H. remember (Star (Seq (Chr ","%char) r)) as sr eqn:E.
  induction H; try discriminate; [left; reflexivity|].
  inversion E; subst. right.
  apply CaptureFacts.lang_seq in H. destruct H as (a & b & -> & Ha & _).
  apply CaptureFacts.lang_chr in Ha. subst a. cbn [app]. eauto.
Qed.

(** A word of [\d{1,3}(?:,\d{3})*] without comma is one to three
    digits. *)
Lemma grouped_without_comma (w : str) :
  lang grouped_number w ->
  existsb (Str.eqb ","%char) w = false ->
  digit_run w /\ (length w <= 3)%nat.
Proof.
  intros H Hc. apply CaptureFacts.lang_seq in H.
  destruct H as (w1 & w2 & -> & H1 & H2).
  rewrite existsb_app in Hc. apply orb_false_iff in Hc. destruct Hc as [_ Hc2].
  destruct (lang_star_comma _ _ H2) as [->|(rest & ->)];
    [|cbn in Hc2; discriminate].
  rewrite app_nil_r.
  apply CaptureFacts.lang_seq in H1. destruct H1 as (a & b & -> & Ha & Hb).
  apply CaptureFacts.lang_digit in Ha. destruct Ha as (d & -> & Hd).
  apply CaptureFacts.lang_opt in Hb. destruct Hb as [->|Hb].
  - split; [split; [discriminate|cbn; rewrite Hd; reflexivity]|cbn; lia].
  - apply CaptureFacts.lang_seq in Hb. destruct Hb as (b1 & b2 & -> & Hb1 & Hb2).
    apply CaptureFacts.lang_digit in Hb1. destruct Hb1 as (d1 & -> & Hd1).
    apply CaptureFacts.lang_opt in Hb2. destruct Hb2 as [->|Hb2].
    + split; [split; [discriminate|cbn; rewrite Hd, Hd1; reflexivity]|cbn; lia].
    + apply CaptureFacts.lang_digit in Hb2. destruct Hb2 as (d2 & -> & Hd2).
      split; [split; [discriminate|cbn; rewrite Hd, Hd1, Hd2; reflexivity]
             |cbn; lia].
Qed.

Lemma digit_val_range (c : ascii) :
  Str.is_digit c = true -> (0 <= Num.digit_val c <= 9)%Z.
Proof.
  unfold Str.is_digit, Num.digit_val. intros H.
  apply andb_true_iff in H. destruct H as [H1 H2].
  apply Nat.leb_le in H1, H2. lia.
Qed.

Lemma short_digit_run_value (w : str) :
  digit_run w -> (length w <= 3)%nat ->
  exists n, Num.int_of_str w = Some n /\ (0 <= n < 1000)%Z.
Proof.
  intros [Hne Hd] Hlen.
  rewrite (NumFacts.int_of_str_digits w Hne Hd).
  assert (Hlim : (Z.of_nat (length w) <=? Num.int_max_str_digits)%Z = true)
    by (apply Z.leb_le; unfold Num.int_max_str_digits; lia).
  rewrite Hlim.
  destruct w as [|a w]; [congruence|].
  eexists. split; [reflexivity|]. unfold Num.digits_val.
  cbn [forallb] in Hd. apply andb_true_iff in Hd. destruct Hd as [Ha Hd].
  pose proof (digit_val_range a Ha) as Ra.
  destruct w as [|b w]; [cbn [fold_left]; lia|].
  cbn [forallb] in Hd. apply andb_true_iff in Hd. destruct Hd as [Hb Hd].
  pose proof (digit_val_range b Hb) as Rb.
  destruct w as [|c w]; [cbn [fold_left]; lia|].
  cbn [forallb] in Hd. apply andb_true_iff in Hd. destruct Hd as [Hc Hd].
  pose proof (digit_val_range c Hc) as Rc.
  destruct w as [|d w]; [cbn [fold_left]; lia|].
  cbn [length] in Hlen. lia.
Qed.

Lemma square_footage_captures (text_lower : str) :
  Forall (lang grouped_number) (findall (re square_footage_pattern) text_lower).
Proof.
  apply ReFacts.findall_capture; [|reflexivity].
  cbn. repeat split; auto.
Qed.

End FootageFacts.

(** X11.  An explicit square footage is read in full only when it is
    written with thousands separators: every capture of the
    square-footage pattern that holds no comma has at most three
    digits, so the size collected for it is below 1000 (a number such
    as 2500 followed by the unit is read from its last digits). *)
Theorem square_footage_without_comma_below_1000 :
  forall (text_lower capture : str),
    In capture (findall (re PropertyMatchingService.square_footage_pattern)
                  text_lower) ->
    existsb (Str.eqb ","%char) capture = false ->
    exists n,
      PropertyMatchingService.size_of_match
        PropertyMatchingService.square_footage_pattern capture = [n]
      /\ (0 <= n < 1000)%Z.
Proof.
  intros text capture Hin Hc.
  pose proof (FootageFacts.square_footage_captures text) as Hall.
  rewrite Forall_forall in Hall. specialize (Hall capture Hin).
  destruct (FootageFacts.grouped_without_comma capture Hall Hc) as [Hrun Hlen].
  destruct (FootageFacts.short_digit_run_value capture Hrun Hlen) as (n & Hn & Hr).
  exists n. split; [|exact Hr].
  unfold PropertyMatchingService.size_of_match.
  rewrite (CaptureFacts.remove_commas_digits capture (proj2 Hrun)), Hn.
  reflexivity.
Qed.

Lemma square_footage_without_comma_below_1000_witness :
  findall (re PropertyMatchingService.square_footage_pattern)
    (lit "we need 12500 square feet") = [lit "500"]
  /\ exists n,
       PropertyMatchingService.size_of_match
         PropertyMatchingService.square_footage_pattern (lit "500") = [n]
       /\ (0 <= n < 1000)%Z.
Proof.
  split; [vm_compute; reflexivity|].
  apply (square_footage_without_comma_below_1000
           (lit "we need 12500 square feet") (lit "500")).
  - vm_compute. left. reflexivity.
  - reflexivity.
Defined.

(** ** Base64 loses nothing *)

Module Base64Facts.

Import Base64.

Lemma small_values_check :
  forallb (fun n => match index (digit n) with
                    | Some k => (k =? n)%nat
                    | None => false
                    end && negb (Str.eqb (digit n) pad))
          (seq 0 64) = true.
Proof. vm_compute. reflexivity. Qed.

Lemma index_digit (n : nat) : (n < 64)%nat -> index (digit n) = Some n.
Proof.
  intros H. pose proof small_values_check as Hall.
  rewrite forallb_forall in Hall.
  assert (Hin : In n (seq 0 64)) by (apply in_seq; lia).
  specialize (Hall n Hin). apply andb_true_iff in Hall. destruct Hall as [Hi _].
  destruct (index (digit n)) as [k|]; [|discriminate].
  apply Nat.eqb_eq in Hi. congruence.
Qed.

Lemma digit_not_pad (n : nat) : (n < 64)%nat -> Str.eqb (digit n) pad = false.
Proof.
  intros H. pose proof small_values_check as Hall.
  rewrite forallb_forall in Hall.
  assert (Hin : In n (seq 0 64)) by (apply in_seq; lia).
  specialize (Hall n Hin). apply andb_true_iff in Hall. destruct Hall as [_ Hp].
  apply negb_true_iff in Hp. exact Hp.
Qed.

Lemma code_bound (a : ascii) : (Str.code a < 256)%nat.
Proof. unfold Str.code. apply nat_ascii_bounded. Qed.

Lemma of_code (a : ascii) (n : nat) : n = Str.code a -> ascii_of_nat n = a.
Proof. intros ->. unfold Str.code. apply ascii_nat_embedding. Qed.

Lemma sextets (n0 n1 n2 : nat) :
  (n0 < 256 -> n1 < 256 -> n2 < 256 ->
   n0 / 4 < 64
   /\ (n0 mod 4) * 16 + n1 / 16 < 64
   /\ (n0 mod 4) * 16 < 64
   /\ (n1 mod 16) * 4 + n2 / 64 < 64
   /\ (n1 mod 16) * 4 < 64
   /\ n2 mod 64 < 64
   /\ n0 / 4 * 4 + ((n0 mod 4) * 16 + n1 / 16) / 16 = n0
   /\ n0 / 4 * 4 + ((n0 mod 4) * 16) / 16 = n0
   /\ (((n0 mod 4) * 16 + n1 / 16) mod 16) * 16
      + ((n1 mod 16) * 4 + n2 / 64) / 4 = n1
   /\ (((n0 mod 4) * 16 + n1 / 16) mod 16) * 16 + ((n1 mod 16) * 4) / 4 = n1
   /\ (((n1 mod 16) * 4 + n2 / 64) mod 4) * 64 + n2 mod 64 = n2)%nat.
Proof.
  intros H0 H1 H2.
  pose proof (Nat.div_mod_eq n0 4). pose proof (Nat.mod_upper_bound n0 4).
  pose proof (Nat.div_mod_eq n1 16). pose proof (Nat.mod_upper_bound n1 16).
  pose proof (Nat.div_mod_eq n2 64). pose proof (Nat.mod_upper_bound n2 64).
  set (q0 := (n0 / 4)%nat) in *. set (r0 := (n0 mod 4)%nat) in *.
  set (q1 := (n1 / 16)%nat) in *. set (r1 := (n1 mod 16)%nat) in *.
  set (q2 := (n2 / 64)%nat) in *. set (r2 := (n2 mod 64)%nat) in *.
  assert (r0 < 4)%nat by lia. assert (r1 < 16)%nat by lia.
  assert (r2 < 64)%nat by lia.
  assert (q0 < 64)%nat by lia. assert (q1 < 16)%nat by lia.
  assert (q2 < 4)%nat by lia.
  assert (E1 : ((r0 * 16 + q1) / 16 = r0)%nat)
    by (symmetry; apply (Nat.div_unique _ 16 r0 q1); lia).
  assert (E1' : ((r0 * 16) / 16 = r0)%nat) by (apply Nat.div_mul; lia).
  assert (E2 : ((r0 * 16 + q1) mod 16 = q1)%nat)
    by (symmetry; apply (Nat.mod_unique _ 16 r0 q1); lia).
  assert (E3 : ((r1 * 4 + q2) / 4 = r1)%nat)
    by (symmetry; apply (Nat.div_unique _ 4 r1 q2); lia).
  assert (E3' : ((r1 * 4) / 4 = r1)%nat) by (apply Nat.div_mul; lia).
  assert (E4 : ((r1 * 4 + q2) mod 4 = q2)%nat)
    by (symmetry; apply (Nat.mod_unique _ 4 r1 q2); lia).
  rewrite E1, E1', E2, E3, E3', E4. repeat split; lia.
Qed.

Lemma encode_length (bytes : list ascii) :
  forall n, (length bytes < n)%nat ->
  (length (b64encode bytes) = 4 * ((length bytes + 2) / 3))%nat.
Proof.
  intros n. revert bytes. induction n as [|n IH]; intros bytes Hn; [lia|].
  destruct bytes as [|a [|b [|c rest]]]; try reflexivity.
  cbn [b64encode length]. rewrite (IH rest) by (cbn [length] in Hn; lia).
  replace (S (S (S (length rest))) + 2)%nat with ((length rest + 2) + 1 * 3)%nat
    by lia.
  rewrite Nat.div_add by lia. lia.
Qed.

Lemma decode_encode (n : nat) :
  forall bytes fuel,
    (length bytes < n)%nat -> (length (b64encode bytes) <= fuel)%nat ->
    decode fuel (b64encode bytes) = Some bytes.
Proof.
  induction n as [|n IH]; intros bytes fuel Hn Hf; [lia|].
  destruct bytes as [|a [|b [|c rest]]].
  - destruct fuel; reflexivity.
  - destruct fuel as [|fuel]; [cbn in Hf; lia|].
    destruct (sextets (Str.code a) 0 0 (code_bound a)) as
      (L0 & _ & L1 & _ & _ & _ & _ & E0 & _); try lia.
    cbn [b64encode decode]. cbv zeta.
    rewrite (index_digit _ L0), (index_digit _ L1).
    change (Str.eqb pad pad) with true. cbv iota.
    rewrite (of_code a _ E0). reflexivity.
  - destruct fuel as [|fuel]; [cbn in Hf; lia|].
    destruct (sextets (Str.code a) (Str.code b) 0 (code_bound a) (code_bound b))
      as (L0 & L1 & _ & _ & L2 & _ & E0 & _ & _ & E1 & _); try lia.
    cbn [b64encode decode]. cbv zeta.
    rewrite (index_digit _ L0), (index_digit _ L1), (digit_not_pad _ L2),
      (index_digit _ L2).
    change (Str.eqb pad pad) with true. cbv iota.
    rewrite (of_code a _ E0), (of_code b _ E1). reflexivity.
  - destruct fuel as [|fuel]; [cbn in Hf; lia|].
    destruct (sextets (Str.code a) (Str.code b) (Str.code c)
                (code_bound a) (code_bound b) (code_bound c))
      as (L0 & L1 & _ & L2 & _ & L3 & E0 & _ & E1 & _ & E2).
    cbn [b64encode decode]. cbv zeta.
    rewrite (index_digit _ L0), (index_digit _ L1), (digit_not_pad _ L2),
      (index_digit _ L2), (digit_not_pad _ L3), (index_digit _ L3).
    rewrite (of_code a _ E0), (of_code b _ E1), (of_code c _ E2).
    rewrite (IH rest fuel); [reflexivity| |].
    + cbn [length] in Hn. lia.
    + cbn [b64encode length] in Hf. lia.
Qed.

(** Decoding what was encoded gives the bytes back. *)
Lemma b64decode_b64encode (bytes : list ascii) :
  b64decode (b64encode bytes) = Some bytes.
Proof.
  unfold b64decode. apply (decode_encode (S (length bytes))); lia.
Qed.

Lemma b64encode_injective (x y : list ascii) :
  b64encode x = b64encode y -> x = y.
Proof.
  intros H. pose proof (b64decode_b64encode x) as Hx.
  rewrite H, b64decode_b64encode in Hx. congruence.
Qed.

Lemma digit_in_alphabet (n : nat) : (n < 64)%nat -> In (digit n) alphabet.
Proof. intros H. unfold digit. apply nth_In. exact H. Qed.

Lemma b64encode_chars (n : nat) :
  forall bytes, (length bytes < n)%nat ->
  Forall (fun c => In c alphabet \/ c = pad) (b64encode bytes).
Proof.
  induction n as [|n IH]; intros bytes Hn; [lia|].
  destruct bytes as [|a [|b [|c rest]]].
  - constructor.
  - destruct (sextets (Str.code a) 0 0 (code_bound a)) as
      (L0 & _ & L1 & _); try lia.
    cbn [b64encode]. cbv zeta.
    repeat (apply Forall_cons; [left; apply digit_in_alphabet; assumption|]).
    repeat (apply Forall_cons; [right; reflexivity|]). constructor.
  - destruct (sextets (Str.code a) (Str.code b) 0 (code_bound a) (code_bound b))
      as (L0 & L1 & _ & _ & L2 & _); try lia.
    cbn [b64encode]. cbv zeta.
    repeat (apply Forall_cons; [left; apply digit_in_alphabet; assumption|]).
    repeat (apply Forall_cons; [right; reflexivity|]). constructor.
  - destruct (sextets (Str.code a) (Str.code b) (Str.code c)
                (code_bound a) (code_bound b) (code_bound c))
      as (L0 & L1 & _ & L2 & _ & L3 & _).
    cbn [b64encode]. cbv zeta.
    repeat (apply Forall_cons; [left; apply digit_in_alphabet; assumption|]).
    apply IH. cbn [length] in Hn. lia.
Qed.

End Base64Facts.

(** X12.  The audio returned by [text_to_speech] is the Base64 text of
    [mock_audio_] followed by the first 20 characters of the text and of
    nothing else: it decodes to exactly that, two texts get the same
    audio exactly when their first 20 characters agree, it is made of
    Base64 characters only and its length is
    [4 * ((13 + min(20, len(text))) / 3)], at most 44; [text_length] is
    the length of the whole text. *)
Theorem speech_audio_is_the_encoded_prefix :
  forall text : str,
    let reply := WebApp.text_to_speech text in
    Base64.b64decode (WebApp.audio_data reply)
      = Some (lit "mock_audio_" ++ firstn 20 text)
    /\ (forall text',
          WebApp.audio_data (WebApp.text_to_speech text') = WebApp.audio_data reply
          <-> firstn 20 text' = firstn 20 text)
    /\ Forall (fun c => In c Base64.alphabet \/ c = Base64.pad)
              (WebApp.audio_data reply)
    /\ length (WebApp.audio_data reply)
       = (4 * ((13 + Nat.min 20 (length text)) / 3))%nat
    /\ (length (WebApp.audio_data reply) <= 44)%nat
    /\ WebApp.text_length reply = length text.
Proof.
  intros text reply. subst reply. unfold WebApp.text_to_speech.
  cbn [WebApp.audio_data WebApp.text_length].
  split; [apply Base64Facts.b64decode_b64encode|].
  split.
  { intros text'. split.
    - intros H. apply Base64Facts.b64encode_injective in H.
      apply app_inv_head in H. exact H.
    - intros ->. reflexivity. }
  split.
  { apply (Base64Facts.b64encode_chars
             (S (length (lit "mock_audio_" ++ firstn 20 text)))). lia. }
  assert (Hlen : length (Base64.b64encode (lit "mock_audio_" ++ firstn 20 text))
                 = (4 * ((13 + Nat.min 20 (length text)) / 3))%nat).
  { rewrite (Base64Facts.encode_length _
               (S (length (lit "mock_audio_" ++ firstn 20 text)))) by lia.
    rewrite length_app, length_firstn.
    change (length (lit "mock_audio_")) with 11%nat.
    replace (11 + Nat.min 20 (length text) + 2)%nat
      with (13 + Nat.min 20 (length text))%nat by lia.
    reflexivity. }
  split; [exact Hlen|]. split; [|reflexivity].
  rewrite Hlen.
  assert (H33 : ((13 + Nat.min 20 (length text)) / 3 <= 33 / 3)%nat)
    by (apply Nat.Div0.div_le_mono; lia).
  change (33 / 3)%nat with 11%nat in H33. lia.
Qed.

(** ** The [/transcribe] endpoint of the modular application *)

Module EndpointFacts.

Import TranscriptionApi.

Lemma basic_analysis_unit (text : str) :
  let e := TranscriptionService._basic_emotion_analysis text in
  unit_interval (emotion_score e)
  /\ unit_interval (enthusiasm_level e)
  /\ unit_interval (professional (tone_analysis e))
  /\ unit_interval (uncertain (tone_analysis e))
  /\ unit_interval (confident (tone_analysis e)).
Proof.
  intros e. subst e.
  unfold TranscriptionService._basic_emotion_analysis. cbv zeta.
  set (t := Str.lower text).
  set (wc := Z.of_nat (Str.count_words t)).
  destruct (0 <? wc)%Z eqn:E.
  - apply Z.ltb_lt in E.
    pose proof (RangeFacts.level_unit _ wc 10
                  (RangeFacts.keyword_hits_nonneg
                     TranscriptionService.enthusiasm_keywords t)
                  E ltac:(discriminate)) as He.
    pose proof (RangeFacts.level_unit _ wc 10
                  (RangeFacts.keyword_hits_nonneg
                     TranscriptionService.professional_keywords t)
                  E ltac:(discriminate)) as Hp.
    pose proof (RangeFacts.level_unit _ wc 10
                  (RangeFacts.keyword_hits_nonneg
                     TranscriptionService.uncertainty_keywords t)
                  E ltac:(discriminate)) as Hu.
    cbn [emotion_score enthusiasm_level voice_pace tone_analysis professional
         excited confident uncertain].
    set (en := level (keyword_hits TranscriptionService.enthusiasm_keywords t) wc 10)
      in *.
    set (un := level (keyword_hits TranscriptionService.uncertainty_keywords t) wc 10)
      in *.
    unfold unit_interval in *.
    repeat split; try (apply He); try (apply Hp); try (apply Hu); try lra.
  - cbn [emotion_score enthusiasm_level voice_pace tone_analysis professional
         excited confident uncertain].
    unfold unit_interval. repeat split; lra.
Qed.

Lemma transcribe_audio_unit (client : option (list ascii -> option str))
    (audio : list ascii) :
  let e := analysis (transcribe_audio client audio) in
  unit_interval (emotion_score e)
  /\ unit_interval (enthusiasm_level e)
  /\ unit_interval (professional (tone_analysis e))
  /\ unit_interval (uncertain (tone_analysis e))
  /\ unit_interval (confident (tone_analysis e)).
Proof.
  assert (Hmock :
    let e := analysis _get_mock_transcription in
    unit_interval (emotion_score e)
    /\ unit_interval (enthusiasm_level e)
    /\ unit_interval (professional (tone_analysis e))
    /\ unit_interval (uncertain (tone_analysis e))
    /\ unit_interval (confident (tone_analysis e))).
  { cbn. unfold unit_interval. repeat split; lra. }
  unfold transcribe_audio. destruct client as [whisper|]; [|exact Hmock].
  destruct (whisper audio) as [text|]; [|exact Hmock].
  cbn [analysis]. apply basic_analysis_unit.
Qed.

End EndpointFacts.

(** X13.  The [/transcribe] endpoint of
    [app/api/endpoints/transcription.py] never answers with status 400:
    its two validation errors (a content type that is missing or does
    not start with [audio/], an empty file) are raised inside the [try]
    and leave the endpoint as status 500.  It returns exactly when the
    content type starts with [audio/] and the file is not empty, with
    the result of [transcribe_audio], whose emotion values are between
    0 and 1. *)
Theorem transcription_endpoint_statuses :
  forall (str_of : exn -> str)
         (openai_client : option (list ascii -> option str))
         (content_type : option str) (audio : list ascii),
    match TranscriptionApi.transcribe_endpoint str_of openai_client
            content_type audio with
    | Return r =>
        (exists ct, content_type = Some ct
                    /\ Str.starts_with (lit "audio/") ct = true)
        /\ audio <> []
        /\ r = TranscriptionApi.transcribe_audio openai_client audio
        /\ unit_interval (emotion_score (TranscriptionApi.analysis r))
        /\ unit_interval (enthusiasm_level (TranscriptionApi.analysis r))
    | Raise e =>
        (exists reason,
            e = HTTPException 500 (str_of (HTTPException 400 reason))
            /\ (reason = lit "File must be an audio file"
                \/ reason = lit "Empty audio file"))
        /\ ((forall ct, content_type = Some ct ->
                        Str.starts_with (lit "audio/") ct = false)
            \/ audio = [])
    end.
Proof.
  intros str_of client content_type audio.
  unfold TranscriptionApi.transcribe_endpoint,
    TranscriptionApi.transcribe_endpoint_body. cbv zeta.
  destruct content_type as [[|c ct]|].
  - cbn [negb]. split; [eexists; split; [reflexivity|left; reflexivity]|].
    left. intros ct H. injection H as <-. reflexivity.
  - destruct (Str.starts_with (lit "audio/") (c :: ct)) eqn:E; cbn [negb].
    + destruct audio as [|a audio].
      * split; [eexists; split; [reflexivity|right; reflexivity]|].
        right. reflexivity.
      * split; [exists (c :: ct); split; [reflexivity|exact E]|].
        split; [discriminate|]. split; [reflexivity|].
        destruct (EndpointFacts.transcribe_audio_unit client (a :: audio))
          as (H1 & H2 & _).
        split; assumption.
    + split; [eexists; split; [reflexivity|left; reflexivity]|].
      left. intros ct' H. injection H as <-. exact E.
  - cbn [negb]. split; [eexists; split; [reflexivity|left; reflexivity]|].
    left. intros ct H. discriminate.
Qed.

(** ** The routes of the web application *)

Module RouteFacts.

Import WebApp.

Lemma gt_weaken (x a b : Q) :
  b <= a -> PropertyMatchingService.gt x a = true ->
  PropertyMatchingService.gt x b = true.
Proof.
  unfold PropertyMatchingService.gt. intros Hba H.
  apply negb_true_iff in H. apply negb_true_iff.
  destruct (Qle_bool x b) eqn:E; [|reflexivity].
  apply Qle_bool_iff in E.
  assert (Hxa : Qle_bool x a = true) by (apply Qle_bool_iff; lra).
  congruence.
Qed.

(** A comparison returns or raises whatever the threshold; it raises
    [TypeError], on the values that are not numbers. *)
Lemma gt_outcome (v : value) (a b : Q) :
  match gt v a with
  | Return x =>
      comparable v
      /\ exists y, gt v b = Return y /\ (b <= a -> x = true -> y = true)
  | Raise e => e = TypeError /\ gt v b = Raise TypeError /\ ~ comparable v
  end.
Proof.
  destruct v; cbn [gt comparable];
    try (split; [reflexivity|split; [reflexivity|tauto]]).
  - split; [exact I|]. eexists. split; [reflexivity|]. apply gt_weaken.
  - split; [exact I|]. eexists. split; [reflexivity|]. apply gt_weaken.
Qed.

Lemma enthusiasm_outcome (emotion_data : option dict) (a b : Q) :
  match enthusiasm_above emotion_data a with
  | Return x =>
      exists y, enthusiasm_above emotion_data b = Return y
                /\ (b <= a -> x = true -> y = true)
  | Raise e => e = TypeError /\ enthusiasm_above emotion_data b = Raise TypeError
  end.
Proof.
  unfold enthusiasm_above. destruct emotion_data as [[|entry d]|];
    try (exists false; split; [reflexivity|auto]).
  pose proof (gt_outcome (get (entry :: d) (lit "enthusiasm_level") (VNum 0)) a b)
    as H.
  destruct (gt (get (entry :: d) (lit "enthusiasm_level") (VNum 0)) a).
  - exact (proj2 H).
  - split; [exact (proj1 H)|exact (proj1 (proj2 H))].
Qed.

Lemma professional_raises (emotion_data : option dict) (a : Q) (e : exn) :
  professional_above emotion_data a = Raise e ->
  e = TypeError \/ e = AttributeError.
Proof.
  unfold professional_above. destruct emotion_data as [[|entry d]|];
    try discriminate.
  destruct (get (entry :: d) (lit "tone_analysis") (VDict [])) as [| | | | |tone];
    try (intros H; injection H as <-; right; reflexivity).
  pose proof (gt_outcome (get tone (lit "professional") (VNum 0)) a a) as H.
  destruct (gt (get tone (lit "professional") (VNum 0)) a); [discriminate|].
  intros E. injection E as <-. left. exact (proj1 H).
Qed.

(** On readable emotion data no comparison raises. *)
Lemma readable_enthusiasm (emotion_data : option dict) (a : Q) :
  readable_emotion emotion_data ->
  exists x, enthusiasm_above emotion_data a = Return x.
Proof.
  unfold readable_emotion, enthusiasm_above.
  destruct emotion_data as [[|entry d]|]; try (eexists; reflexivity).
  intros [Hc _].
  pose proof (gt_outcome (get (entry :: d) (lit "enthusiasm_level") (VNum 0)) a a)
    as H.
  destruct (gt (get (entry :: d) (lit "enthusiasm_level") (VNum 0)) a);
    [eexists; reflexivity|].
  destruct H as (_ & _ & Hn). contradiction.
Qed.

Lemma readable_professional (emotion_data : option dict) (a : Q) :
  readable_emotion emotion_data ->
  exists x, professional_above emotion_data a = Return x.
Proof.
  unfold readable_emotion, professional_above.
  destruct emotion_data as [[|entry d]|]; try (eexists; reflexivity).
  intros [_ Hc].
  destruct (get (entry :: d) (lit "tone_analysis") (VDict [])) as [| | | | |tone];
    try contradiction.
  pose proof (gt_outcome (get tone (lit "professional") (VNum 0)) a a) as H.
  destruct (gt (get tone (lit "professional") (VNum 0)) a);
    [eexists; reflexivity|].
  destruct H as (_ & _ & Hn). contradiction.
Qed.

(** The dictionary of [analyze_emotion_from_text] is readable. *)
Lemma view_of_readable (e : emotion) : readable_emotion (Some (view_of e)).
Proof. cbv. split; exact I. Qed.

(** The dictionary the chat handler uses is readable when the request's
    is. *)
Lemma effective_emotion_readable (emotion_data : option dict) (e : emotion) :
  readable_emotion emotion_data ->
  readable_emotion
    (Some match emotion_data with
          | Some (entry :: d) => entry :: d
          | _ => view_of e
          end).
Proof.
  destruct emotion_data as [[|entry d]|]; intros H;
    [apply view_of_readable|exact H|apply view_of_readable].
Qed.

(** A reply that lists properties does not begin as the help text. *)
Lemma listing_is_not_help (opening : str) (rest : list str) (tail : str) :
  In opening [excited_opening; professional_opening; plain_opening] ->
  Str.join newline (opening :: tail :: rest) <> help_text.
Proof.
  intros Hin H.
  change (Str.join newline (opening :: tail :: rest))
    with (opening ++ newline ++ Str.join newline (tail :: rest)) in H.
  apply (f_equal (firstn 3)) in H.
  destruct Hin as [<-|[<-|[<-|[]]]]; cbn in H; discriminate.
Qed.

Lemma opening_outcome (emotion_data : option dict) :
  match opening_line emotion_data with
  | Return opening =>
      In opening [excited_opening; professional_opening; plain_opening]
      /\ (enthusiasm_above emotion_data (6 # 10) = Return true ->
          opening = excited_opening)
  | Raise e => e = TypeError \/ e = AttributeError
  end.
Proof.
  unfold opening_line.
  pose proof (enthusiasm_outcome emotion_data (6 # 10) (6 # 10)) as He.
  destruct (enthusiasm_above emotion_data (6 # 10)) as [[|]|e]; cbn [bind].
  - split; [left; reflexivity|reflexivity].
  - destruct (professional_above emotion_data (7 # 10)) as [[|]|e] eqn:Ep;
      cbn [bind].
    + split; [right; left; reflexivity|discriminate].
    + split; [right; right; left; reflexivity|discriminate].
    + exact (professional_raises _ _ _ Ep).
  - left. exact (proj1 He).
Qed.

Section Chat.

Variables (format_thousands format_float format_money : Q -> str)
          (format_int : Z -> str).

(** The reply for a list of properties that is not empty. *)
Lemma generate_response_outcome (message : str) (properties : list property)
    (emotion_data : option dict) :
  properties <> [] ->
  match generate_response_with_properties format_thousands format_float
          format_money format_int message properties emotion_data with
  | Return text =>
      text <> help_text
      /\ exists opening closing,
           text
           = Str.join newline
               ([opening; []]
                  ++ flat_map (property_lines format_thousands format_float
                                 format_money format_int) properties
                  ++ [closing])
           /\ In opening [excited_opening; professional_opening; plain_opening]
           /\ In closing [excited_closing; plain_closing]
           /\ (closing = excited_closing -> opening = excited_opening)
  | Raise e => e = TypeError \/ e = AttributeError
  end.
Proof.
  intros Hne. destruct properties as [|p rest]; [congruence|].
  unfold generate_response_with_properties.
  pose proof (opening_outcome emotion_data) as Ho.
  destruct (opening_line emotion_data) as [opening|e]; cbn [bind];
    [|exact Ho].
  destruct Ho as [Hin Hexc]. cbv zeta. unfold closing_line.
  pose proof (enthusiasm_outcome emotion_data (7 # 10) (6 # 10)) as He.
  assert (Hclose : plain_closing <> excited_closing).
  { intros H. apply (f_equal (firstn 1)) in H. cbn in H. discriminate. }
  destruct (enthusiasm_above emotion_data (7 # 10)) as [x|e]; cbn [bind].
  - destruct He as (y & Hy & Hxy). rewrite <- app_assoc. split.
    + cbn [app]. apply listing_is_not_help. exact Hin.
    + eexists. eexists. split; [reflexivity|]. split; [exact Hin|].
      destruct x.
      * split; [left; reflexivity|]. intros _. apply Hexc.
        rewrite Hy, Hxy; [reflexivity|lra|reflexivity].
      * split; [right; left; reflexivity|]. intros H. destruct (Hclose H).
  - left. exact (proj1 He).
Qed.

Lemma generate_response_readable (message : str) (properties : list property)
    (emotion_data : option dict) :
  readable_emotion emotion_data ->
  exists text,
    generate_response_with_properties format_thousands format_float
      format_money format_int message properties emotion_data = Return text.
Proof.
  intros Hread. unfold generate_response_with_properties.
  destruct properties as [|p rest]; [eexists; reflexivity|].
  unfold opening_line, closing_line.
  destruct (readable_enthusiasm emotion_data (6 # 10) Hread) as [x6 ->].
  destruct (readable_enthusiasm emotion_data (7 # 10) Hread) as [x7 ->].
  destruct (readable_professional emotion_data (7 # 10) Hread) as [xp ->].
  destruct x6; cbn [bind]; eexists; reflexivity.
Qed.

(** The outcome of the chat handler's body. *)
Lemma chat_body_outcome (properties_df : list property) (message : str)
    (emotion_data : option dict) :
  match chat_with_llm_body format_thousands format_float format_money
          format_int properties_df message emotion_data with
  | Return reply =>
      exists properties,
        FinalWebApp.find_matching_properties properties_df message
          = Some properties
        /\ generate_response_with_properties format_thousands format_float
             format_money format_int message properties
             (Some match emotion_data with
                   | Some (entry :: d) => entry :: d
                   | _ => view_of (FinalWebApp.analyze_emotion_from_text message)
                   end)
           = Return (response reply)
  | Raise e =>
      (e = ValueError /\ ~ count_readable message)
      \/ ((e = TypeError \/ e = AttributeError)
          /\ count_readable message
          /\ properties_df <> []
          /\ ~ readable_emotion emotion_data)
  end.
Proof.
  unfold chat_with_llm_body.
  destruct (FinalWebApp.find_matching_properties properties_df message)
    as [properties|] eqn:Hfind.
  - cbv zeta.
    set (emotion := match emotion_data with
                    | Some (entry :: d) => entry :: d
                    | _ => view_of (FinalWebApp.analyze_emotion_from_text message)
                    end).
    assert (Hc : count_readable message).
    { intros g Hg.
      destruct (Z.of_nat (length g) <=? Num.int_max_str_digits)%Z eqn:E;
        [apply Z.leb_le; exact E|].
      assert (Hn : ~ count_readable message).
      { intros H. specialize (H g Hg). apply Z.leb_le in H. congruence. }
      rewrite (MonolithFacts.find_matching_raises _ _ Hn) in Hfind.
      discriminate. }
    destruct (generate_response_with_properties format_thousands format_float
                format_money format_int message properties (Some emotion))
      as [text|e] eqn:Hgen; cbn [bind].
    + exists properties. split; [reflexivity|exact Hgen].
    + right.
      assert (Hprops : properties <> []).
      { intros ->. cbn in Hgen. discriminate. }
      pose proof (generate_response_outcome message properties (Some emotion)
                    Hprops) as Ho.
      rewrite Hgen in Ho. split; [exact Ho|]. split; [exact Hc|]. split.
      * intros ->.
        destruct (MonolithFacts.find_matching_facts _ _ _ Hfind) as (_ & Hin & _).
        destruct properties as [|q qs]; [congruence|].
        exact (Hin q (or_introl eq_refl)).
      * intros Hread.
        destruct (generate_response_readable message properties (Some emotion)
                    (effective_emotion_readable emotion_data _ Hread))
          as [text Ht].
        congruence.
  - left. split; [reflexivity|].
    intros Hc.
    destruct (MonolithFacts.find_matching_returns properties_df message Hc)
      as [properties Hp].
    congruence.
Qed.

Lemma chat_body_returns (properties_df : list property) (message : str)
    (emotion_data : option dict) :
  count_readable message ->
  readable_emotion emotion_data \/ properties_df = [] ->
  exists reply,
    chat_with_llm_body format_thousands format_float format_money format_int
      properties_df message emotion_data = Return reply.
Proof.
  intros Hc Hr.
  pose proof (chat_body_outcome properties_df message emotion_data) as H.
  destruct (chat_with_llm_body format_thousands format_float format_money
              format_int properties_df message emotion_data) as [reply|e];
    [eexists; reflexivity|].
  exfalso. destruct H as [[_ Hn]|(_ & _ & Hdf & Hn)]; [exact (Hn Hc)|].
  destruct Hr as [Hr|Hr]; [exact (Hn Hr)|exact (Hdf Hr)].
Qed.

End Chat.

Lemma mock_index (n : nat) :
  exists transcript,
    nth_error mock_transcripts (n mod length mock_transcripts)%nat
      = Some transcript
    /\ In transcript mock_transcripts.
Proof.
  destruct (nth_error mock_transcripts (n mod length mock_transcripts)%nat)
    as [t|] eqn:E.
  - exists t. split; [reflexivity|]. exact (nth_error_In _ _ E).
  - apply nth_error_None in E.
    assert (H : (n mod length mock_transcripts < length mock_transcripts)%nat)
      by (apply Nat.mod_upper_bound; discriminate).
    lia.
Qed.

(** The first mock transcript holds no people count. *)
Lemma first_transcript_readable :
  count_readable (nth 0 mock_transcripts []).
Proof. intros g Hg. vm_compute in Hg. discriminate. Qed.

End RouteFacts.



(** Two requests answered with status 500: an [enthusiasm_level] that is
    [null], and a message whose people count has 4301 digits. *)
Example chat_errors :
  WebApp.chat_with_llm (fun _ => []) (fun _ => []) (fun _ => [])
    (fun _ => []) (fun e => match e with TypeError => lit "TypeError" | _ => [] end)
    FinalWebApp.sample_data (lit "space downtown")
    (Some [(lit "enthusiasm_level", WebApp.VNone)])
  = Raise (HTTPException 500 (lit "TypeError"))
  /\ WebApp.chat_with_llm (fun _ => []) (fun _ => []) (fun _ => [])
       (fun _ => []) (fun e => match e with ValueError => lit "ValueError" | _ => [] end)
       FinalWebApp.sample_data (repeat "1"%char 4301 ++ lit " people") None
     = Raise (HTTPException 500 (lit "ValueError")).
Proof. split; vm_compute; reflexivity. Qed.

(** X15.  [/api/v1/transcribe] never fails with an index error: for every
    upload it returns one of the four mock transcripts, the one at index
    (number of unread bytes) mod 4, with the emotion analysis of that
    transcript, and leaves the upload read to its end.  Two uploads
    whose unread sizes are congruent modulo 4 get the same reply. *)
Theorem transcribe_route_picks_by_size :
  forall (str_of : exn -> str) (audio_file : WebApp.upload_file),
    let unread := skipn (WebApp.position audio_file)
                        (WebApp.file_content audio_file) in
    exists reply,
      WebApp.transcribe_audio str_of audio_file
      = (Return reply,
         {| WebApp.file_content := WebApp.file_content audio_file;
            WebApp.position := length (WebApp.file_content audio_file) |})
      /\ nth_error WebApp.mock_transcripts (length unread mod 4)%nat
         = Some (WebApp.tr_transcript reply)
      /\ In (WebApp.tr_transcript reply) WebApp.mock_transcripts
      /\ WebApp.tr_emotion_analysis reply
         = FinalWebApp.analyze_emotion_from_text (WebApp.tr_transcript reply)
      /\ (forall other : WebApp.upload_file,
            (length (skipn (WebApp.position other) (WebApp.file_content other))
               mod 4 = length unread mod 4)%nat ->
            fst (WebApp.transcribe_audio str_of other) = Return reply).
Proof.
  intros str_of audio_file unread.
  destruct (RouteFacts.mock_index (length unread)) as (t & Ht & Hin).
  change (length WebApp.mock_transcripts) with 4%nat in Ht.
  exists {| WebApp.tr_transcript := t;
            WebApp.tr_confidence := 95 # 100;
            WebApp.tr_provider := lit "smart_mock";
            WebApp.tr_emotion_analysis :=
              FinalWebApp.analyze_emotion_from_text t |}.
  cbn [WebApp.tr_transcript WebApp.tr_emotion_analysis].
  split; [|split; [exact Ht|split; [exact Hin|split; [reflexivity|]]]].
  - unfold WebApp.transcribe_audio, WebApp.read.
    change (length WebApp.mock_transcripts) with 4%nat.
    fold unread. rewrite Ht. reflexivity.
  - intros other Hother.
    unfold WebApp.transcribe_audio, WebApp.read.
    change (length WebApp.mock_transcripts) with 4%nat.
    rewrite Hother. rewrite Ht. reflexivity.
Qed.

Lemma transcribe_route_picks_by_size_witness :
  exists reply,
    fst (WebApp.transcribe_audio (fun _ => [])
           {| WebApp.file_content := lit "abcde"; WebApp.position := 0 |})
      = Return reply
    /\ fst (WebApp.transcribe_audio (fun _ => [])
              {| WebApp.file_content := lit "a"; WebApp.position := 0 |})
       = Return reply.
Proof.
  destruct (transcribe_route_picks_by_size (fun _ => [])
              {| WebApp.file_content := lit "abcde"; WebApp.position := 0 |})
    as (reply & Hr & _ & _ & _ & Hother).
  exists reply. split; [rewrite Hr; reflexivity|].
  apply Hother. reflexivity.
Defined.

(** X16.  [/api/v1/converse] does not depend on the audio it receives:
    the handler reads the upload to its end before it hands it to
    [transcribe_audio], which then reads zero bytes, so for every upload
    the transcript is the first mock transcript and the reply is the
    chat reply to that transcript.  The handler never fails; the audio
    response is present exactly when it is requested and is then the
    speech of the chat reply; a missing or empty session id becomes
    [default_session], any other is kept. *)
Theorem converse_ignores_the_audio :
  forall (format_thousands format_float format_money : Q -> str)
         (format_int : Z -> str) (str_of : exn -> str)
         (properties_df : list property) (audio_file : WebApp.upload_file)
         (session : option str) (include_audio_response : bool),
    exists reply chat transcript,
      WebApp.full_conversation_pipeline format_thousands format_float
        format_money format_int str_of properties_df audio_file session
        include_audio_response = Return reply
      /\ nth_error WebApp.mock_transcripts 0 = Some transcript
      /\ WebApp.cv_transcript reply = transcript
      /\ WebApp.cv_emotion_analysis reply
         = FinalWebApp.analyze_emotion_from_text transcript
      /\ WebApp.chat_with_llm format_thousands format_float format_money
           format_int str_of properties_df transcript
           (Some (WebApp.view_of
                    (FinalWebApp.analyze_emotion_from_text transcript)))
         = Return chat
      /\ WebApp.cv_response reply = WebApp.response chat
      /\ WebApp.audio_response reply
         = (if include_audio_response
            then Some (WebApp.audio_data
                         (WebApp.text_to_speech (WebApp.response chat)))
            else None)
      /\ WebApp.session_id reply <> []
      /\ (forall s, s <> [] -> session = Some s -> WebApp.session_id reply = s)
      /\ (session = None \/ session = Some [] ->
          WebApp.session_id reply = lit "default_session")
      /\ (forall other : WebApp.upload_file,
            WebApp.full_conversation_pipeline format_thousands format_float
              format_money format_int str_of properties_df other session
              include_audio_response = Return reply).
Proof.
  intros ft ff fm fi str_of df audio_file session flag.
  assert (Hread : forall f : WebApp.upload_file,
             fst (WebApp.transcribe_audio str_of (snd (WebApp.read f)))
             = Return
                 {| WebApp.tr_transcript :=
                      nth 0 WebApp.mock_transcripts [];
                    WebApp.tr_confidence := 95 # 100;
                    WebApp.tr_provider := lit "smart_mock";
                    WebApp.tr_emotion_analysis :=
                      FinalWebApp.analyze_emotion_from_text
                        (nth 0 WebApp.mock_transcripts []) |}).
  { intros f. unfold WebApp.transcribe_audio, WebApp.read.
    cbn [snd WebApp.position WebApp.file_content].
    rewrite skipn_all. reflexivity. }
  set (transcript := nth 0 WebApp.mock_transcripts []).
  fold transcript in Hread.
  destruct (RouteFacts.chat_body_returns ft ff fm fi df transcript
              (Some (WebApp.view_of
                       (FinalWebApp.analyze_emotion_from_text transcript)))
              RouteFacts.first_transcript_readable
              (or_introl (RouteFacts.view_of_readable _)))
    as [chat Hbody].
  assert (Hchat :
    WebApp.chat_with_llm ft ff fm fi str_of df transcript
      (Some (WebApp.view_of (FinalWebApp.analyze_emotion_from_text transcript)))
    = Return chat).
  { unfold WebApp.chat_with_llm. rewrite Hbody. reflexivity. }
  assert (Hpipe : forall f : WebApp.upload_file,
    WebApp.full_conversation_pipeline ft ff fm fi str_of df f session flag
    = Return
        {| WebApp.cv_transcript := transcript;
           WebApp.cv_response := WebApp.response chat;
           WebApp.audio_response :=
             if flag
             then Some (WebApp.audio_data
                          (WebApp.text_to_speech (WebApp.response chat)))
             else None;
           WebApp.cv_emotion_analysis :=
             FinalWebApp.analyze_emotion_from_text transcript;
           WebApp.session_id :=
             match session with
             | Some (c :: s) => c :: s
             | _ => lit "default_session"
             end |}).
  { intros f. unfold WebApp.full_conversation_pipeline.
    pose proof (Hread f) as Hf.
    destruct (WebApp.read f) as [data f1]. cbn [snd] in Hf.
    rewrite Hf. cbv zeta.
    cbn [WebApp.tr_transcript WebApp.tr_emotion_analysis].
    rewrite Hchat. reflexivity. }
  eexists. exists chat, transcript.
  split; [apply Hpipe|]. split; [reflexivity|].
  cbn [WebApp.cv_transcript WebApp.cv_emotion_analysis WebApp.cv_response
       WebApp.audio_response WebApp.session_id].
  split; [reflexivity|]. split; [reflexivity|]. split; [exact Hchat|].
  split; [reflexivity|]. split; [reflexivity|]. split.
  { destruct session as [[|c s]|]; discriminate. }
  split.
  { intros s Hs ->. destruct s; [congruence|reflexivity]. }
  split.
  { intros [->| ->]; reflexivity. }
  intros other. apply Hpipe.
Qed.

Lemma converse_ignores_the_audio_witness :
  exists reply,
    WebApp.full_conversation_pipeline (fun _ => []) (fun _ => [])
      (fun _ => []) (fun _ => []) (fun _ => []) FinalWebApp.sample_data
      {| WebApp.file_content := lit "some recorded audio"; WebApp.position := 0 |}
      (Some (lit "web_session")) true = Return reply
    /\ WebApp.session_id reply = lit "web_session".
Proof.
  destruct (converse_ignores_the_audio (fun _ => []) (fun _ => [])
              (fun _ => []) (fun _ => []) (fun _ => []) FinalWebApp.sample_data
              {| WebApp.file_content := lit "some recorded audio";
                 WebApp.position := 0 |}
              (Some (lit "web_session")) true)
    as (reply & chat & transcript & Hr & _ & _ & _ & _ & _ & _ & _ & Hs & _).
  exists reply. split; [exact Hr|].
  apply Hs; [discriminate|reflexivity].
Defined.
